(** * LLM orchestration: execution engine

    A shallow embedding of the execution core of the orchestration server:
    variable substitution and prompt assembly ([routes/execute.js]), the
    gateway to the LLM backends ([services/llm.js]: [sendPrompt],
    [processResponse], [cleanCorruptedText], [makeRequest], the registry of
    instances and the probes of a port), the run coordinator
    ([executeWorkflowAsync] and the two start routes) and the connectivity
    route ([routes/llm.js]).

    Conventions.
    - A JavaScript string is a [string]: a sequence of 8-bit code units, that
      is the Latin-1 range of the UTF-16 code units of the source.
    - A JavaScript number in a value exchanged with a backend or the store
      is an integer of [Z] or [NaN]: the counts and identifiers the engine
      handles are integers.  The progress percentage of an event is the
      double-precision number the source's expression computes.
    - [await]ed collaborators (the relational store's queries, the HTTP
      transport, the clock) are oracles: variables of the enclosing section.
    - A [throw] is the [Throw] outcome of the [Result] type. *)

From Stdlib Require Import ZArith List String Ascii Bool Lia DecimalString.
From Stdlib Require DecimalPos Uint63.
From Stdlib Require Import Floats.
Import ListNotations.

Open Scope list_scope.
Open Scope string_scope.

(* ------------------------------------------------------------------ *)
(** ** Outcomes of fallible code *)

Inductive Result (A : Type) : Type :=
| Return (a : A)
| Throw (message : string).
Arguments Return {A} a.
Arguments Throw {A} message.

Definition bind {A B : Type} (r : Result A) (k : A -> Result B) : Result B :=
  match r with
  | Return a => k a
  | Throw m => Throw m
  end.

Definition is_return {A : Type} (r : Result A) : bool :=
  match r with
  | Return _ => true
  | Throw _ => false
  end.

Notation "'let*' x ':=' r 'in' k" := (bind r (fun x => k))
  (at level 10, x pattern, r at level 100, k at level 200).

(** Computations on a state [S] that may throw; a throw keeps the state
    reached, as the writes made before an exception stay made. *)
Module Eff.

Definition M (S A : Type) : Type := S -> Result A * S.

Definition ret {S A : Type} (a : A) : M S A := fun s => (Return a, s).

Definition raise {S A : Type} (message : string) : M S A :=
  fun s => (Throw message, s).

Definition lift {S A : Type} (r : Result A) : M S A := fun s => (r, s).

Definition andThen {S A B : Type} (x : M S A) (k : A -> M S B) : M S B :=
  fun s =>
    match x s with
    | (Return a, s') => k a s'
    | (Throw m, s') => (Throw m, s')
    end.

(** [try { x } catch (e) { handler(e.message) }] *)
Definition tryCatch {S A : Type} (x : M S A) (handler : string -> M S A) : M S A :=
  fun s =>
    match x s with
    | (Return a, s') => (Return a, s')
    | (Throw m, s') => handler m s'
    end.

End Eff.

Notation "'do' x '<-' c ';' k" := (Eff.andThen c (fun x => k))
  (at level 10, x pattern, c at level 100, k at level 200).

(* ------------------------------------------------------------------ *)
(** ** String primitives of the host language *)

Module JsString.

Definition LF : ascii := ascii_of_nat 10.
Definition TAB : ascii := ascii_of_nat 9.
Definition nl : string := String LF EmptyString.

(** [s.startsWith(p)], and what follows the prefix. *)
Fixpoint strip_prefix (p s : string) : option string :=
  match p with
  | EmptyString => Some s
  | String a p' =>
      match s with
      | EmptyString => None
      | String b s' => if (a =? b)%char then strip_prefix p' s' else None
      end
  end.

Definition starts_with (p s : string) : bool :=
  match strip_prefix p s with Some _ => true | None => false end.

(** [s.includes(needle)]. *)
Fixpoint includes (needle s : string) : bool :=
  starts_with needle s ||
  match s with
  | EmptyString => false
  | String _ t => includes needle t
  end.

(** The longest prefix of characters satisfying [p], and the rest: a greedy
    character-class star. *)
Fixpoint span (p : ascii -> bool) (s : string) : string * string :=
  match s with
  | EmptyString => (EmptyString, EmptyString)
  | String c t =>
      if p c then let (a, b) := span p t in (String c a, b)
      else (EmptyString, s)
  end.

(** Every character of [s] satisfies [p]. *)
Fixpoint all_chars (p : ascii -> bool) (s : string) : bool :=
  match s with
  | EmptyString => true
  | String c t => p c && all_chars p t
  end.

(** [s.replace(re, fn)] for a global regular expression [re].  The matcher
    [m] is [re] anchored at the head of its argument: the length of the match
    and its replacement.  The scan goes left to right; after a match it
    resumes behind the matched text ([skip] counts the characters of the
    match still to be passed over), and the replacement is not rescanned. *)
Fixpoint replace_global (m : string -> option (nat * string)) (skip : nat)
    (s : string) : string :=
  match s with
  | EmptyString => EmptyString
  | String c t =>
      match skip with
      | S k => replace_global m k t
      | O =>
          match m s with
          | Some (S k, r) => r ++ replace_global m k t
          | Some (O, r) => r ++ String c (replace_global m 0 t)
          | None => String c (replace_global m 0 t)
          end
      end
  end.

(** White space of the regular-expression class [\s] and of [trim], within
    the 8-bit range: TAB, LF, VT, FF, CR, SPACE and NBSP. *)
Definition is_space (c : ascii) : bool :=
  let n := nat_of_ascii c in
  ((9 <=? n)%nat && (n <=? 13)%nat) || (n =? 32)%nat || (n =? 160)%nat.

Fixpoint trim_start (s : string) : string :=
  match s with
  | EmptyString => EmptyString
  | String c t => if is_space c then trim_start t else s
  end.

Fixpoint rev (s : string) : string :=
  match s with
  | EmptyString => EmptyString
  | String c t => rev t ++ String c EmptyString
  end.

Definition trim_end (s : string) : string := rev (trim_start (rev s)).

Definition trim (s : string) : string := trim_end (trim_start s).

End JsString.

(* ------------------------------------------------------------------ *)
(** ** Context accumulator and variable substitution
    ([replaceVariables], routes/execute.js) *)

Module Context.

Section Substitution.

(** The metadata kept with a response plays no part in substitution. *)
Variable Meta : Type.

(** One entry of [context.responses]. *)
Record response : Type := mkResponse {
  payloadId : Z;
  payloadName : string;
  content : string;
  metadata : Meta
}.

(** The regular expression [/\{\{([^}]+)\}\}/] anchored at the head of [s]:
    the captured variable.  The class [[^}]] cannot step over a closing
    brace, so the capture is the whole run of other characters behind the
    two opening braces, and two closing braces must follow it. *)
Definition match_variable (s : string) : option string :=
  match JsString.strip_prefix "{{" s with
  | Some t =>
      let (variable, rest) := JsString.span (fun c => negb (c =? "}")%char) t in
      match variable with
      | EmptyString => None
      | _ => if JsString.starts_with "}}" rest then Some variable else None
      end
  | None => None
  end.

(** The replacement callback: the first response of the context whose
    [payloadName] is the variable gives its [content]; otherwise the matched
    text stands. *)
Fixpoint lookup (responses : list response) (variable : string) : option string :=
  match responses with
  | [] => None
  | r :: rest =>
      if (payloadName r =? variable)%string then Some (content r)
      else lookup rest variable
  end.

Definition token (variable : string) : string := "{{" ++ variable ++ "}}".

Definition resolve (responses : list response) (variable : string) : string :=
  match lookup responses variable with
  | Some text => text
  | None => token variable
  end.

Definition variable_matcher (responses : list response) (s : string)
  : option (nat * string) :=
  match match_variable s with
  | Some variable => Some (String.length variable + 4, resolve responses variable)
  | None => None
  end.

(** [prompt.replace(/\{\{([^}]+)\}\}/g, ...)]. *)
Definition substitute_tokens (responses : list response) (prompt : string) : string :=
  JsString.replace_global (variable_matcher responses) 0 prompt.

Definition separator : string :=
  JsString.nl ++ JsString.nl ++ "Previous response:" ++ JsString.nl.

Definition replaceVariables (prompt : string) (responses : list response) : string :=
  let processedPrompt := substitute_tokens responses prompt in
  if (processedPrompt =? prompt)%string && (0 <? List.length responses)%nat then
    match nth_error responses (List.length responses - 1) with
    | Some lastResponse => processedPrompt ++ separator ++ content lastResponse
    | None => processedPrompt
    end
  else processedPrompt.

(** *** Tokens and templates, to state what substitution does

    A token is [{{variable}}], its variable a non-empty run of characters
    other than the closing brace; the variable may hold opening braces.  A
    template is made of tokens and of stretches of text free of opening
    braces: in such a text no token begins, whatever follows it. *)

Inductive piece : Type :=
| Plain (text : string)
| Token (variable : string).

Definition is_variable_name (variable : string) : bool :=
  negb (variable =? "")%string
  && JsString.all_chars (fun c => negb (c =? "}")%char) variable.

Definition well_formed (p : piece) : bool :=
  match p with
  | Plain text => JsString.all_chars (fun c => negb (c =? "{")%char) text
  | Token variable => is_variable_name variable
  end.

(** The text [s] begins with a token of the variable [variable]. *)
Definition begins_with_token (s variable : string) : Prop :=
  is_variable_name variable = true /\ exists rest : string, s = token variable ++ rest.

(** No token begins at a position of [before], in the text [before ++ after]. *)
Definition no_token_begins_in (before after : string) : Prop :=
  forall (x y : string) (variable : string),
    before = x ++ y -> y <> "" -> ~ begins_with_token (y ++ after) variable.

(** The template as written. *)
Fixpoint template (pieces : list piece) : string :=
  match pieces with
  | [] => ""
  | Plain text :: rest => text ++ template rest
  | Token variable :: rest => token variable ++ template rest
  end.

(** The template with every token whose variable names an entry replaced
    by the text of the earliest such entry, the other tokens standing. *)
Fixpoint expansion (responses : list response) (pieces : list piece) : string :=
  match pieces with
  | [] => ""
  | Plain text :: rest => text ++ expansion responses rest
  | Token variable :: rest => resolve responses variable ++ expansion responses rest
  end.

(** The most recent entry. *)
Definition most_recent (responses : list response) : option response :=
  nth_error responses (List.length responses - 1).

End Substitution.

Arguments mkResponse {Meta}.
Arguments payloadId {Meta}.
Arguments payloadName {Meta}.
Arguments content {Meta}.
Arguments metadata {Meta}.
Arguments lookup {Meta}.
Arguments resolve {Meta}.
Arguments variable_matcher {Meta}.
Arguments substitute_tokens {Meta}.
Arguments replaceVariables {Meta}.
Arguments expansion {Meta}.
Arguments most_recent {Meta}.

End Context.

(* ------------------------------------------------------------------ *)
(** ** Values of the host language

    What [JSON.parse] yields, plus [undefined] and [NaN].  The fields of an
    object are an association list; a key is read at its first binding. *)

Module Js.

#[warnings="-register-all"]
Inductive value : Type :=
| Undefined
| Null
| Bool (b : bool)
| Num (n : Z)
| NaN
| Text (s : string)
| Arr (items : list value)
| Obj (fields : list (string * value)).

Definition truthy (v : value) : bool :=
  match v with
  | Undefined | Null | NaN => false
  | Bool b => b
  | Num n => negb (n =? 0)%Z
  | Text s => negb (s =? "")%string
  | Arr _ | Obj _ => true
  end.

(** [a || b] *)
Definition or_else (a b : value) : value := if truthy a then a else b.

Definition nullish (v : value) : bool :=
  match v with
  | Undefined | Null => true
  | _ => false
  end.

(** [typeof v === 'object'] *)
Definition is_object (v : value) : bool :=
  match v with
  | Null | Arr _ | Obj _ => true
  | _ => false
  end.

Fixpoint assoc (fields : list (string * value)) (key : string) : value :=
  match fields with
  | [] => Undefined
  | (k, v) :: rest => if (k =? key)%string then v else assoc rest key
  end.

(** The property [key] of a value that is neither [null] nor [undefined].
    Of the indices of arrays and strings the service reads only [0]. *)
Definition prop (v : value) (key : string) : value :=
  match v with
  | Obj fields => assoc fields key
  | Arr items =>
      if (key =? "length")%string then Num (Z.of_nat (List.length items))
      else if (key =? "0")%string then
        match items with
        | [] => Undefined
        | x :: _ => x
        end
      else Undefined
  | Text s =>
      if (key =? "length")%string then Num (Z.of_nat (String.length s))
      else if (key =? "0")%string then
        match s with
        | EmptyString => Undefined
        | String c _ => Text (String c EmptyString)
        end
      else Undefined
  | _ => Undefined
  end.

Definition type_name (v : value) : string :=
  match v with
  | Null => "null"
  | _ => "undefined"
  end.

(** [v.key]: a [TypeError] on [null] and [undefined]. *)
Definition get (v : value) (key : string) : Result value :=
  if nullish v then
    Throw ("Cannot read properties of " ++ type_name v
             ++ " (reading '" ++ key ++ "')")
  else Return (prop v key).

(** [v?.key] *)
Definition opt_get (v : value) (key : string) : value :=
  if nullish v then Undefined else prop v key.

Definition string_of_Z (n : Z) : string :=
  DecimalString.NilZero.string_of_int (Z.to_int n).

(** [String(v)] *)
Fixpoint to_string (v : value) : string :=
  match v with
  | Undefined => "undefined"
  | Null => "null"
  | Bool true => "true"
  | Bool false => "false"
  | Num n => string_of_Z n
  | NaN => "NaN"
  | Text s => s
  | Arr items =>
      (fix join (l : list value) : string :=
         match l with
         | [] => ""
         | x :: rest =>
             (if nullish x then "" else to_string x)
             ++ match rest with
                | [] => ""
                | _ :: _ => "," ++ join rest
                end
         end) items
  | Obj _ => "[object Object]"
  end.

(** The number a string denotes: an optionally signed run of decimal digits
    between white space, [0] for the blank string, otherwise [NaN] (numerals
    that are not integers lie outside the number model). *)
Definition number_of_string (s : string) : option Z :=
  match JsString.trim s with
  | EmptyString => Some 0%Z
  | String c t as whole =>
      if (c =? "-")%char then
        option_map (fun d => (- Z.of_uint d)%Z) (DecimalString.NilZero.uint_of_string t)
      else if (c =? "+")%char then
        option_map Z.of_uint (DecimalString.NilZero.uint_of_string t)
      else option_map Z.of_uint (DecimalString.NilZero.uint_of_string whole)
  end.

(** [Number(v)]: [None] is [NaN]. *)
Definition to_number (v : value) : option Z :=
  match v with
  | Undefined | NaN => None
  | Null => Some 0%Z
  | Bool b => Some (if b then 1 else 0)%Z
  | Num n => Some n
  | Text s => number_of_string s
  | Arr _ | Obj _ => number_of_string (to_string v)
  end.

Definition is_stringy (v : value) : bool :=
  match v with
  | Text _ | Arr _ | Obj _ => true
  | _ => false
  end.

(** [a + b]: concatenation as soon as one side is a string (or an object,
    whose primitive is a string), the sum of the numbers otherwise. *)
Definition add (a b : value) : value :=
  if is_stringy a || is_stringy b then Text (to_string a ++ to_string b)
  else
    match to_number a, to_number b with
    | Some x, Some y => Num (x + y)
    | _, _ => NaN
    end.

(** [v > 0] *)
Definition gt0 (v : value) : bool :=
  match to_number v with
  | Some n => (0 <? n)%Z
  | None => false
  end.

(** [a === b] on the primitive values (objects are compared by identity,
    which two distinct results never share). *)
Definition strict_eq (a b : value) : bool :=
  match a, b with
  | Undefined, Undefined => true
  | Null, Null => true
  | Bool x, Bool y => Bool.eqb x y
  | Num x, Num y => (x =? y)%Z
  | Text x, Text y => (x =? y)%string
  | _, _ => false
  end.

End Js.

(* ------------------------------------------------------------------ *)
(** ** The model gateway ([LLMService], services/llm.js) *)

Module Gateway.

Import Js.

(** *** Output sanitization ([cleanCorruptedText]) *)

Definition corrupted_message : string :=
  "[Error: The model returned corrupted or binary data. Please try different model settings or a different model format.]".

(** [c.charCodeAt(0) < 32 && c !== '\n' && c !== '\t'] *)
Definition is_control (c : ascii) : bool :=
  (nat_of_ascii c <? 32)%nat
  && negb (c =? JsString.LF)%char && negb (c =? JsString.TAB)%char.

Fixpoint count_control (s : string) : nat :=
  match s with
  | EmptyString => 0
  | String c t => ((if is_control c then 1 else 0) + count_control t)%nat
  end.

(** The corruption test.  The last disjunct compares the count with
    [text.length * 0.1]: the count exceeds a tenth of the length. *)
Definition isCorrupted (text : string) : bool :=
  JsString.includes "[UNK_BYTE" text
  || JsString.includes "UNK_BYTE" text
  || ((0 <? String.length text)%nat
      && (String.length text <? 10 * count_control text)%nat).

(** [/\[UNK_BYTE_[^\]]*\]/] at the head of [s]. *)
Definition bracketed_marker (s : string) : option (nat * string) :=
  match JsString.strip_prefix "[UNK_BYTE_" s with
  | Some t =>
      let (body, rest) := JsString.span (fun c => negb (c =? "]")%char) t in
      if JsString.starts_with "]" rest
      then Some ((10 + String.length body + 1)%nat, " ")
      else None
  | None => None
  end.

(** [/UNK_BYTE_[^\s]*/] at the head of [s]. *)
Definition bare_marker (s : string) : option (nat * string) :=
  match JsString.strip_prefix "UNK_BYTE_" s with
  | Some t =>
      let (body, _) := JsString.span (fun c => negb (JsString.is_space c)) t in
      Some ((9 + String.length body)%nat, " ")
  | None => None
  end.

(** The class [[\x20-\x7E\n\t]]. *)
Definition is_printable (c : ascii) : bool :=
  ((32 <=? nat_of_ascii c)%nat && (nat_of_ascii c <=? 126)%nat)
  || (c =? JsString.LF)%char || (c =? JsString.TAB)%char.

(** [/[^\x20-\x7E\n\t]/] at the head of [s]. *)
Definition unprintable (s : string) : option (nat * string) :=
  match s with
  | String c _ => if is_printable c then None else Some (1%nat, " ")
  | EmptyString => None
  end.

(** [/\s+/] at the head of [s]. *)
Definition spaces (s : string) : option (nat * string) :=
  match JsString.span JsString.is_space s with
  | (EmptyString, _) => None
  | (run, _) => Some (String.length run, " ")
  end.

(** The four replacements and the [trim] of the [try] block. *)
Definition scrub (text : string) : string :=
  let cleanedText := JsString.replace_global bracketed_marker 0 text in
  let cleanedText := JsString.replace_global bare_marker 0 cleanedText in
  let cleanedText := JsString.replace_global unprintable 0 cleanedText in
  JsString.trim (JsString.replace_global spaces 0 cleanedText).

Definition clean_string (text : string) : string :=
  if negb (isCorrupted text) then text
  else
    let cleanedText := scrub text in
    if (3 <? String.length cleanedText)%nat then cleanedText
    else corrupted_message.

Definition is_text (needle : string) (v : value) : bool :=
  strict_eq v (Text needle).

(** [cleanCorruptedText(text)].  The argument is whatever the backend put
    in the text field.  A falsy one gives the empty string.  On a string
    the method does its work.  An array has [includes] and [length] but
    neither [split] nor [replace]: [replace] fails inside the [try] (the
    sentinel is returned), [split] outside it (a [TypeError]).  Any other
    value has no [includes]. *)
Definition cleanCorruptedText (text : value) : Result value :=
  if negb (truthy text) then Return (Text "")
  else
    match text with
    | Text s => Return (Text (clean_string s))
    | Arr items =>
        if existsb (is_text "[UNK_BYTE") items || existsb (is_text "UNK_BYTE") items
        then Return (Text corrupted_message)
        else if (0 <? List.length items)%nat
             then Throw "text.split is not a function"
             else Return text
    | _ => Throw "text.includes is not a function"
    end.

(** *** Response normalization ([processResponse]) *)

Record metadata : Type := mkMetadata {
  tokens : value;
  promptTokens : value;
  completionTokens : value;
  finishReason : value;
  responseType : option string
}.

Record processed : Type := mkProcessed {
  text : value;
  meta : metadata
}.

Definition processResponse (response : value) : Result processed :=
  if negb (truthy response) || negb (is_object response) then
    Throw "Invalid LLM response format"
  else
    let results := prop response "results" in
    let generations := prop response "generations" in
    let choices := prop response "choices" in
    if truthy results && truthy (prop results "0") then
      (* Kobold API format *)
      let first := prop results "0" in
      let* text := cleanCorruptedText (or_else (prop first "text") (Text "")) in
      Return (mkProcessed text
        (mkMetadata
           (add (prop first "prompt_tokens") (prop first "completion_tokens"))
           (or_else (prop first "prompt_tokens") (Num 0))
           (or_else (prop first "completion_tokens") (Num 0))
           (or_else (prop first "finish_reason") (Text "unknown"))
           None))
    else if truthy generations && gt0 (prop generations "length") then
      (* Command-R format *)
      let first := prop generations "0" in
      let* t := get first "text" in
      let* text := cleanCorruptedText (or_else t (Text "")) in
      let billed := opt_get (opt_get response "meta") "billed_units" in
      let* reason := get first "finish_reason" in
      Return (mkProcessed text
        (mkMetadata
           (or_else (add (opt_get billed "input_tokens") (opt_get billed "output_tokens"))
                    (Num 0))
           (or_else (opt_get billed "input_tokens") (Num 0))
           (or_else (opt_get billed "output_tokens") (Num 0))
           (or_else reason (Text "unknown"))
           (Some "command-r")))
    else if truthy choices && truthy (prop choices "0")
            && truthy (prop (prop choices "0") "message") then
      (* OpenAI chat completions API format *)
      let first := prop choices "0" in
      let usage := prop response "usage" in
      let* text := cleanCorruptedText
                     (or_else (prop (prop first "message") "content") (Text "")) in
      Return (mkProcessed text
        (mkMetadata
           (or_else (opt_get usage "total_tokens") (Num 0))
           (or_else (opt_get usage "prompt_tokens") (Num 0))
           (or_else (opt_get usage "completion_tokens") (Num 0))
           (or_else (prop first "finish_reason") (Text "unknown"))
           (Some "chat")))
    else if truthy choices && truthy (prop choices "0") then
      (* OpenAI-compatible API format (completions) *)
      let first := prop choices "0" in
      let usage := prop response "usage" in
      let* text := cleanCorruptedText (or_else (prop first "text") (Text "")) in
      Return (mkProcessed text
        (mkMetadata
           (or_else (opt_get usage "total_tokens") (Num 0))
           (or_else (opt_get usage "prompt_tokens") (Num 0))
           (or_else (opt_get usage "completion_tokens") (Num 0))
           (or_else (prop first "finish_reason") (Text "unknown"))
           (Some "completion")))
    else if truthy (prop response "result") then
      (* Direct result format *)
      Return (mkProcessed (prop response "result")
        (mkMetadata
           (or_else (prop response "tokens") (Num 0))
           (or_else (prop response "prompt_tokens") (Num 0))
           (or_else (prop response "completion_tokens") (Num 0))
           (or_else (prop response "finish_reason") (Text "unknown"))
           None))
    else Throw "Unsupported LLM response format".

(** A field that holds its default unless the backend gave a truthy value. *)
Definition defaulted (v default : value) : Prop :=
  v = default \/ truthy v = true.

(** *** Prompt pre-formatting ([formatPromptForModel]) *)

Definition formatPromptForModel (prompt : string) (modelFormat : value) : string :=
  if strict_eq modelFormat (Text "mistral") then prompt
  else if strict_eq modelFormat (Text "llama") then
    "<s>[INST] " ++ prompt ++ " [/INST]"
  else if strict_eq modelFormat (Text "llama_chat") then
    "<s>[INST] <<SYS>>" ++ JsString.nl ++ "You are a helpful assistant."
      ++ JsString.nl ++ "<</SYS>>" ++ JsString.nl ++ JsString.nl
      ++ prompt ++ " [/INST]"
  else if strict_eq modelFormat (Text "command-r") then prompt
  else prompt.

(** *** Sending a prompt ([sendPrompt]) *)

(** A configuration object. *)
Definition config := list (string * value).

(** [{ ...a, ...b }]: the bindings of [b] shadow those of [a]. *)
Definition spread (a b : config) : config := (b ++ a)%list.

(** An entry of the [llmInstances] map. *)
Record instance : Type := mkInstance {
  name : string;
  status : string;
  lastUsed : option string;
  instance_config : config
}.

(** The payload shapes of the fallback chain.  Each is built from the
    formatted prompt, the merged configuration and the caller's
    configuration, which the request carries along. *)
Inductive payload_shape : Type :=
| ChatMessages        (* model, messages, max_tokens, temperature, top_p, stream *)
| KoboldSampler       (* prompt, max_length, temperature, top_p, ..., quiet *)
| CommandR            (* prompt, model, max_tokens, ..., frequency_penalty *)
| KoboldGenerate      (* prompt, max_length, temperature, top_p, top_k, stream *)
| Completion.         (* model, prompt, max_tokens, temperature, top_p, stream *)

Record request : Type := mkRequest {
  port : Z;
  path : string;
  shape : payload_shape;
  prompt : string;
  merged : config;
  given : config;
  timeout : value
}.

(** What the service does to the outside world, in order. *)
Inductive effect : Type :=
| Sent (r : request)
| Waited (milliseconds : Z)
| AttemptFailed (attempt : Z) (message : string).

Record service : Type := mkService {
  llmInstances : list (Z * instance);
  effects : list effect
}.

Definition M := Eff.M service.

Definition perform (e : effect) : M unit :=
  fun s => (Return tt, mkService (llmInstances s) (effects s ++ [e])%list).

Fixpoint find_instance (l : list (Z * instance)) (p : Z) : option instance :=
  match l with
  | [] => None
  | (q, i) :: rest => if (q =? p)%Z then Some i else find_instance rest p
  end.

(** [llmInstances.set(port, instance)] on a port that is registered. *)
Fixpoint set_instance (l : list (Z * instance)) (p : Z) (i : instance)
  : list (Z * instance) :=
  match l with
  | [] => [(p, i)]
  | (q, j) :: rest =>
      if (q =? p)%Z then (q, i) :: rest else (q, j) :: set_instance rest p i
  end.

(** The turns of the retry loop that failed, and the pauses between turns. *)
Definition attempts_failed (l : list effect) : nat :=
  List.length (filter (fun e => match e with AttemptFailed _ _ => true | _ => false end) l).

Definition pauses (l : list effect) : list Z :=
  flat_map (fun e => match e with Waited ms => [ms] | _ => [] end) l.

Definition requests (l : list effect) : list string :=
  flat_map (fun e => match e with Sent r => [path r] | _ => [] end) l.

(** A stretch of effects made of requests only. *)
Definition only_requests (l : list effect) : Prop :=
  attempts_failed l = 0%nat /\ pauses l = [].

(** What a computation that fails after sending requests leaves behind. *)
Definition fails_sending {A : Type} (x : M A) : Prop :=
  forall s, exists message sent,
    x s = (Throw message, mkService (llmInstances s) (effects s ++ sent)%list)
    /\ only_requests sent.

Section Transport.

(** The HTTP transport: what the backend answers to a request, given what
    happened before.  A rejected promise is a [Throw]. *)
Variable transport : list effect -> request -> Result value.

(** [new Date()] *)
Variable now : string.

(** [makeRequest(port, path, 'POST', payload, { timeout })] *)
Definition makeRequest (port : Z) (path : string) (shape : payload_shape)
    (prompt : string) (merged given : config) (timeout : value) : M value :=
  fun s =>
    let isGenerationRequest :=
      JsString.includes "/generate" path
      || JsString.includes "/completions" path
      || JsString.includes "/chat" path in
    let timeout :=
      if isGenerationRequest then or_else timeout (Num 120000)
      else or_else timeout (Num 30000) in
    let r := mkRequest port path shape prompt merged given timeout in
    (transport (effects s) r,
     mkService (llmInstances s) (effects s ++ [Sent r])%list).

Definition retryDelayMs : Z := 2000.

Section Attempt.

Variables (port : Z) (formattedPrompt : string) (mergedConfig given : config)
          (modelFormat : value).

Definition post (path : string) (shape : payload_shape) : M value :=
  makeRequest port path shape formattedPrompt mergedConfig given
    (or_else (assoc mergedConfig "timeout") (Num 180000)).

(** The Kobold endpoint, then the OpenAI-compatible one. *)
Definition default_chain : M value :=
  Eff.tryCatch (post "/api/v1/generate" KoboldGenerate)
           (fun _ => post "/v1/completions" Completion).

Definition command_r_chain : M value :=
  if strict_eq modelFormat (Text "command-r") then
    Eff.tryCatch
      (Eff.tryCatch (post "/api/v1/generate" KoboldSampler)
         (fun _ =>
            Eff.tryCatch (post "/v1/generate" CommandR)
                     (fun _ => post "/generate" CommandR)))
      (fun _ => default_chain)
  else default_chain.

Definition chat_chain : M value :=
  if strict_eq modelFormat (Text "mistral") then
    Eff.tryCatch (post "/v1/chat/completions" ChatMessages)
             (fun _ => command_r_chain)
  else command_r_chain.

(** The body of the [try] of one turn of the retry loop. *)
Definition attempt_once (attempt : Z) : M value :=
  Eff.andThen (if (0 <? attempt)%Z then perform (Waited retryDelayMs) else Eff.ret tt)
          (fun _ => chat_chain).

(** The retry loop, [turns] turns of it being left before
    [attempt <= maxRetries] fails. *)
Fixpoint retry_loop (maxRetries : value) (turns : nat) (attempt : Z)
    (lastError : option string) : M value :=
  match turns with
  | O =>
      Eff.raise
        match lastError with
        | Some message => message
        | None =>
            "Failed to send prompt to LLM on port " ++ string_of_Z port
              ++ " after " ++ to_string (add maxRetries (Num 1)) ++ " attempts"
        end
  | S turns' =>
      Eff.tryCatch (attempt_once attempt)
        (fun error =>
           Eff.andThen (perform (AttemptFailed (attempt + 1) error))
             (fun _ =>
                if strict_eq (Num attempt) maxRetries then Eff.raise error
                else retry_loop maxRetries turns' (attempt + 1) (Some error)))
  end.

End Attempt.

(** The number of turns of [for (attempt = 0; attempt <= maxRetries; attempt++)]. *)
Definition turns_of (maxRetries : value) : nat :=
  match to_number maxRetries with
  | Some n => Z.to_nat (n + 1)
  | None => 0
  end.

Definition sendPrompt (port : Z) (prompt : string) (given : config) : M value :=
  fun s =>
    match find_instance (llmInstances s) port with
    | None =>
        (Throw ("No LLM instance registered on port " ++ string_of_Z port), s)
    | Some inst =>
        let mergedConfig := spread (instance_config inst) given in
        let inst := mkInstance (name inst) (status inst) (Some now)
                      (instance_config inst) in
        let s := mkService (set_instance (llmInstances s) port inst) (effects s) in
        let maxRetries := or_else (assoc given "retries") (Num 2) in
        let modelFormat := or_else (assoc given "model_format") (Text "default") in
        let formattedPrompt := formatPromptForModel prompt modelFormat in
        retry_loop port formattedPrompt mergedConfig given modelFormat
          maxRetries (turns_of maxRetries) 0 None s
    end.

End Transport.

End Gateway.


(* ------------------------------------------------------------------ *)
(** ** The run coordinator (routes/execute.js) *)

Module Coordinator.

Import Js.

(** *** Rows of the relational store *)

(** A row of [payloads]: one step of a pipeline. *)
Record payload : Type := mkPayload {
  id : Z;
  name : string;
  temperature : value;
  response_length : value;
  llm_port : value;
  model_format : value
}.

(** A row of [blocks]; [None] is SQL [NULL]. *)
Record block : Type := mkBlock {
  block_id : Z;
  title : string;
  block_content : option string;
  tags : option string
}.

Record workflow : Type := mkWorkflow {
  workflow_name : string
}.

Record llm_config : Type := mkLlmConfig {
  config_port : value;
  config_temperature : value;
  config_max_length : value;
  config_model_format : value
}.

(** The measurements kept with a response. *)
Record stats : Type := mkStats {
  base : Gateway.metadata;
  duration_ms : Z;
  tokens_per_second : value;
  model_info : value
}.

(** A row of [runs].  The [metadata] column holds a JSON object or [NULL]. *)
Record run : Type := mkRun {
  run_id : Z;
  workflow_id : value;
  status : string;
  completed_at : option string;
  run_metadata : option (list (string * value))
}.

(** A row of [responses]: a Result. *)
Record result : Type := mkResult {
  result_run_id : Z;
  result_payload_id : Z;
  result_content : value;
  result_stats : stats;
  result_config : llm_config
}.

(** The write statements the coordinator issues, in order. *)
Inductive write : Type :=
| InsertRun (runId : Z)
| InsertResponse (runId payloadId : Z)
| UpdateRunStatus (runId : Z) (status : string)
| UpdateRunMetadata (runId : Z) (key : string).

(** *** Lifecycle events handed to the broadcaster *)

Inductive event : Type :=
| execution_progress (runId payloadId : Z) (payloadName : string) (progress : float)
| payload_completed (runId payloadId : Z) (payloadName : string)
    (content : value) (metadata : stats)
| workflow_completed (runId : Z)
| workflow_failed (runId : Z) (error : string).

(** What the coordinator does, in the order in which it does it: the write
    statements it issues to the store, the events it hands to the
    broadcaster, and the requests a step makes of the store (the blocks of
    its payload) and of the gateway ([getModelInfo], [sendPrompt]). *)
Inductive action : Type :=
| Wrote (w : write)
| Emitted (e : event)
| Queried (payloadId : Z)
| Probed (payloadId : Z)
| Prompted (payloadId : Z).

(** The store, the writes and the events so far, and, in [log], the same
    writes and events with the requests, in one sequence. *)
Record world : Type := mkWorld {
  runs : list run;
  responses : list result;
  journal : list write;
  events : list event;
  log : list action
}.

Definition M := Eff.M world.

Definition entry := Context.response stats.

(** *** Store primitives *)

Definition max_run_id (rs : list run) : Z :=
  fold_right (fun r m => Z.max (run_id r) m) 0%Z rs.

(** [lastID] of an insert: the store numbers the new row above every row
    of the table. *)
Definition next_run_id (rs : list run) : Z := (max_run_id rs + 1)%Z.

Fixpoint set_key (fields : list (string * value)) (key : string) (v : value)
  : list (string * value) :=
  match fields with
  | [] => [(key, v)]
  | (k, old) :: rest =>
      if (k =? key)%string then (k, v) :: rest
      else (k, old) :: set_key rest key v
  end.

(** SQLite's [json_set(metadata, '$.key', v)]: [NULL] stays [NULL]. *)
Definition json_set (metadata : option (list (string * value))) (key : string)
    (v : value) : option (list (string * value)) :=
  option_map (fun fields => set_key fields key v) metadata.

(** [UPDATE runs SET ... WHERE id = runId] *)
Definition update_run (f : run -> run) (runId : Z) (rs : list run) : list run :=
  map (fun r => if (run_id r =? runId)%Z then f r else r) rs.

Definition find_run (rs : list run) (runId : Z) : option run :=
  find (fun r => (run_id r =? runId)%Z) rs.

Definition insert_response (r : result) : M unit :=
  fun s => (Return tt,
            mkWorld (runs s) (responses s ++ [r])%list
              (journal s ++ [InsertResponse (result_run_id r) (result_payload_id r)])%list
              (events s)
              (log s ++ [Wrote (InsertResponse (result_run_id r)
                                  (result_payload_id r))])%list).

Definition modify_run (runId : Z) (f : run -> run) (w : write) : M unit :=
  fun s => (Return tt,
            mkWorld (update_run f runId (runs s)) (responses s)
              (journal s ++ [w])%list (events s) (log s ++ [Wrote w])%list).

(** A request made of the store or of the gateway. *)
Definition note (a : action) : M unit :=
  fun s => (Return tt,
            mkWorld (runs s) (responses s) (journal s) (events s)
              (log s ++ [a])%list).

(** *** Prompt assembly *)

Definition is_digit (c : ascii) : bool :=
  ((48 <=? nat_of_ascii c)%nat && (nat_of_ascii c <=? 57)%nat).

(** [/payload_(\d+)/] at the head of [s]: the captured digits. *)
Definition payload_tag (s : string) : option string :=
  match JsString.strip_prefix "payload_" s with
  | Some t =>
      match JsString.span is_digit t with
      | (EmptyString, _) => None
      | (digits, _) => Some digits
      end
  | None => None
  end.

(** [tags.match(/payload_(\d+)/)]: the leftmost match. *)
Fixpoint match_payload_tag (s : string) : option string :=
  match payload_tag s with
  | Some digits => Some digits
  | None =>
      match s with
      | EmptyString => None
      | String _ t => match_payload_tag t
      end
  end.

(** [parseInt] of a run of decimal digits. *)
Definition parseInt (digits : string) : Z :=
  match DecimalString.NilZero.uint_of_string digits with
  | Some d => Z.of_uint d
  | None => 0%Z
  end.

(** The effective block: a response block whose tag names a payload that
    has answered in this run takes that answer as its content. *)
Definition process_block (context : list entry) (b : block) : block :=
  match tags b with
  | Some t =>
      if negb (t =? "")%string && JsString.includes "response" t then
        match match_payload_tag t with
        | Some digits =>
            let sourcePayloadId := parseInt digits in
            match find (fun r => (Context.payloadId r =? sourcePayloadId)%Z) context with
            | Some sourceResponse =>
                mkBlock (block_id b) (title b)
                  (Some (Context.content sourceResponse)) (tags b)
            | None => b
            end
        | None => b
        end
      else b
  | None => b
  end.

(** [parts.join(sep)]; a [null] part counts as empty. *)
Fixpoint join (sep : string) (parts : list (option string)) : string :=
  match parts with
  | [] => ""
  | p :: rest =>
      (match p with Some s => s | None => "" end)
      ++ match rest with
         | [] => ""
         | _ :: _ => sep ++ join sep rest
         end
  end.

Definition assemble (blocks : list block) (context : list entry) : string :=
  let processedBlocks := map (process_block context) blocks in
  let prompt := join (JsString.nl ++ JsString.nl) (map block_content processedBlocks) in
  Context.replaceVariables prompt context.

(** An index or a length as a number: the double of that value, exact
    below 2^53. *)
Definition number_of_nat (n : nat) : float :=
  PrimFloat.of_uint63 (Uint63.of_Z (Z.of_nat n)).

(** [(i / payloads.length) * 100]: a division and a multiplication of
    doubles, each rounded to the nearest. *)
Definition progress_of (i n : nat) : float :=
  PrimFloat.mul (PrimFloat.div (number_of_nat i) (number_of_nat n))
    (number_of_nat 100).

(** *** The event feed of a run, to state what a run emits *)

(** The events of the steps [payloads], numbered from [i] on, of a run of
    [n] steps: for each step its progress event and, built from the Result
    stored for it, its completion event. *)
Fixpoint step_events (runId : Z) (n i : nat) (payloads : list payload)
    (rows : list result) : list event :=
  match payloads, rows with
  | p :: payloads', r :: rows' =>
      execution_progress runId (id p) (name p) (progress_of i n)
      :: payload_completed runId (id p) (name p) (result_content r) (result_stats r)
      :: step_events runId n (S i) payloads' rows'
  | _, _ => []
  end.

(** What reaches the broadcaster of the events the coordinator gives out. *)
Definition shown (broadcast : bool) (es : list event) : list event :=
  if broadcast then es else [].

(** What is done of a sequence of actions: without a broadcaster no event
    is handed over. *)
Definition heard (broadcast : bool) (l : list action) : list action :=
  filter (fun a => match a with Emitted _ => broadcast | _ => true end) l.

(** The actions of the steps [payloads], numbered from [i] on, of a run of
    [n] steps that all complete: for each step its progress event, the
    request for its blocks, the two requests to the gateway, the insert of
    its Result and its completion event. *)
Fixpoint step_log (runId : Z) (n i : nat) (payloads : list payload)
    (rows : list result) : list action :=
  match payloads, rows with
  | p :: payloads', r :: rows' =>
      Emitted (execution_progress runId (id p) (name p) (progress_of i n))
      :: Queried (id p)
      :: Probed (id p)
      :: Prompted (id p)
      :: Wrote (InsertResponse runId (id p))
      :: Emitted (payload_completed runId (id p) (name p)
                    (result_content r) (result_stats r))
      :: step_log runId n (S i) payloads' rows'
  | _, _ => []
  end.

(** The status updates of the run [runId] in a journal. *)
Definition status_updates (runId : Z) (l : list write) : list string :=
  flat_map (fun w => match w with
                     | UpdateRunStatus r st => if (r =? runId)%Z then [st] else []
                     | _ => []
                     end) l.

(** The failures of the run [runId] announced in an event feed. *)
Definition announced_failures (runId : Z) (es : list event) : list string :=
  flat_map (fun e => match e with
                     | workflow_failed r message =>
                         if (r =? runId)%Z then [message] else []
                     | _ => []
                     end) es.

(** The Results of the run [runId]. *)
Definition results_of (runId : Z) (rows : list result) : list result :=
  filter (fun r => (result_run_id r =? runId)%Z) rows.

Definition empty_world : world := mkWorld [] [] [] [] [].

(** The inserts of a list of Results, as the journal records them. *)
Definition inserts (runId : Z) (rows : list result) : list write :=
  map (fun r => InsertResponse runId (result_payload_id r)) rows.

(** Results that belong to the run [runId]. *)
Definition of_run (runId : Z) (rows : list result) : Prop :=
  Forall (fun r => result_run_id r = runId) rows.


Section Run.

(** Whether [setBroadcast] has installed a broadcast function. *)
Variable broadcast : bool.

(** The store's queries; a rejected query is a [Throw]. *)
Variable select_workflow : value -> Result (option workflow).
Variable select_payloads : value -> Result (list payload).
Variable select_blocks : nat -> Z -> Result (list block).

(** The gateway, at the [i]-th step of the run. *)
Variable getModelInfo : nat -> value -> Result value.
Variable sendPrompt : nat -> value -> string -> Gateway.config -> Result value.

(** [Date.now()] before and after the gateway call of the [i]-th step,
    [new Date().toISOString()] and [CURRENT_TIMESTAMP]. *)
Variables startTime endTime : nat -> Z.
Variables isoNow sqlNow : string.

(** The literal [0.6], which is not an integer. *)
Variable default_temperature : value.

(** [Math.round((tokens / durationMs) * 1000)], in floating point. *)
Variable round_rate : value -> Z -> value.

(** [JSON.stringify] *)
Variable stringify : value -> string.

Definition emit (e : event) : M unit :=
  fun s =>
    (Return tt,
     if broadcast
     then mkWorld (runs s) (responses s) (journal s) (events s ++ [e])%list
            (log s ++ [Emitted e])%list
     else s).

(** [processed.text.trim()] *)
Definition trim_text (text : value) : Result string :=
  match text with
  | Text s => Return (JsString.trim s)
  | _ => Throw "processed.text.trim is not a function"
  end.

(** The head of a turn of the loop over the payloads, the [i]-th of [n]:
    the progress event is handed over and the blocks of the payload are
    asked of the store.  There the turn waits for the first time. *)
Definition announce (runId : Z) (n i : nat) (p : payload) : M unit :=
  do _ <- emit (execution_progress runId (id p) (name p) (progress_of i n));
  note (Queried (id p)).

(** The turn from the answer of the store on. *)
Definition work (runId : Z) (n i : nat) (p : payload) (context : list entry)
  : M (list entry) :=
  do blocks <- Eff.lift (select_blocks i (id p));
  let prompt := assemble blocks context in
  let llmConfig :=
    mkLlmConfig (or_else (llm_port p) (Num 5001))
                (or_else (temperature p) default_temperature)
                (or_else (response_length p) (Num 1000))
                (or_else (model_format p) (Text "default")) in
  do _ <- note (Probed (id p));
  let modelInfo :=
    match getModelInfo i (config_port llmConfig) with
    | Return info => info
    | Throw _ => Null
    end in
  do _ <- note (Prompted (id p));
  do llmResponse <-
    Eff.lift (sendPrompt i (config_port llmConfig) prompt
                [("temperature", config_temperature llmConfig);
                 ("max_length", config_max_length llmConfig);
                 ("stream", Bool false);
                 ("model_format", config_model_format llmConfig)]);
  do processed <- Eff.lift (Gateway.processResponse llmResponse);
  let durationMs := (endTime i - startTime i)%Z in
  let tokensPerSecond :=
    if truthy (Gateway.tokens (Gateway.meta processed))
    then round_rate (Gateway.tokens (Gateway.meta processed)) durationMs
    else Num 0 in
  let measured :=
    mkStats (Gateway.meta processed) durationMs tokensPerSecond modelInfo in
  do _ <- insert_response
            (mkResult runId (id p) (Gateway.text processed) measured llmConfig);
  do content <- Eff.lift (trim_text (Gateway.text processed));
  let context := (context ++ [Context.mkResponse (id p) (name p) content measured])%list in
  do _ <- emit (payload_completed runId (id p) (name p)
                  (Gateway.text processed) measured);
  Eff.ret context.

(** One turn of the loop over the payloads: the [i]-th of [n]. *)
Definition run_step (runId : Z) (n i : nat) (p : payload) (context : list entry)
  : M (list entry) :=
  do _ <- announce runId n i p;
  work runId n i p context.

(** [for (let i = 0; i < payloads.length; i++)], from turn [i] on. *)
Fixpoint run_steps (runId : Z) (n i : nat) (rest : list payload)
    (context : list entry) : M (list entry) :=
  match rest with
  | [] => Eff.ret context
  | p :: rest' =>
      do context' <- run_step runId n i p context;
      run_steps runId n (S i) rest' context'
  end.

Definition mark_completed (runId : Z) : M unit :=
  modify_run runId
    (fun r => mkRun (run_id r) (workflow_id r) "completed" (Some sqlNow)
                (json_set (run_metadata r) "completed_at" (Text isoNow)))
    (UpdateRunStatus runId "completed").

Definition record_models (runId : Z) (context : list entry) : M unit :=
  let allModels :=
    map (fun r => Obj [("payloadName", Text (Context.payloadName r));
                       ("modelInfo", model_info (Context.metadata r))])
        (filter (fun r => truthy (model_info (Context.metadata r))) context) in
  if (0 <? List.length allModels)%nat then
    modify_run runId
      (fun r => mkRun (run_id r) (workflow_id r) (status r) (completed_at r)
                  (json_set (run_metadata r) "models"
                     (Text (stringify (Arr allModels)))))
      (UpdateRunMetadata runId "models")
  else Eff.ret tt.

Definition mark_failed (runId : Z) (message : string) : M unit :=
  modify_run runId
    (fun r => mkRun (run_id r) (workflow_id r) "failed" (Some sqlNow)
                (json_set (run_metadata r) "error" (Text message)))
    (UpdateRunStatus runId "failed").

(** [executeWorkflowAsync(workflowId, runId, payloads)].  The writes to the
    store and the broadcasts do not throw, so the handler of the [catch]
    block runs to its end. *)
Definition executeWorkflowAsync (workflowId : value) (runId : Z)
    (payloads : list payload) : world -> world :=
  fun s =>
    snd
      (Eff.tryCatch
         (do context <- run_steps runId (List.length payloads) 0 payloads [];
          do _ <- mark_completed runId;
          do _ <- record_models runId context;
          emit (workflow_completed runId))
         (fun message =>
            do _ <- mark_failed runId message;
            emit (workflow_failed runId message))
         s).

(** *** The two halves of an execution

    A call of [executeWorkflowAsync] that is not awaited runs as far as the
    point where the function first waits, and hands control back to its
    caller there; the rest runs later. *)

(** [executeWorkflowAsync] up to the point where it first waits: the head
    of the first turn of the loop, and for no payload at all the update
    that completes the run. *)
Definition launch (runId : Z) (payloads : list payload) : M unit :=
  match payloads with
  | [] => mark_completed runId
  | p :: _ => announce runId (List.length payloads) 0 p
  end.

(** [executeWorkflowAsync] from that point on. *)
Definition resume (workflowId : value) (runId : Z) (payloads : list payload)
  : world -> world :=
  fun s =>
    snd
      (Eff.tryCatch
         match payloads with
         | [] =>
             do _ <- record_models runId [];
             emit (workflow_completed runId)
         | p :: rest =>
             do context <- work runId (List.length payloads) 0 p [];
             do context <- run_steps runId (List.length payloads) 1 rest context;
             do _ <- mark_completed runId;
             do _ <- record_models runId context;
             emit (workflow_completed runId)
         end
         (fun message =>
            do _ <- mark_failed runId message;
            emit (workflow_failed runId message))
         s).

(** *** Starting a run ([router.post('/')])

    The handler inserts the run row, calls [executeWorkflowAsync] without
    awaiting it, and answers: the world it answers in is the one the call
    has left at its first wait, and the execution in flight is returned as
    a [task], to be resumed on that world.  The insert of the run row does
    not throw. *)

Record reply : Type := mkReply {
  code : Z;
  body : list (string * value)
}.

(** The background execution of a start request. *)
Record task : Type := mkTask {
  task_workflow : value;
  task_run : Z;
  task_payloads : list payload
}.

Definition error_reply (c : Z) (message : string) : reply :=
  mkReply c [("error", Text message)].

Definition start (workflowId : value) (s : world) : reply * world * option task :=
  if negb (truthy workflowId) then
    (error_reply 400 "Workflow ID is required", s, None)
  else
    match select_workflow workflowId with
    | Throw _ => (error_reply 500 "Failed to start workflow execution", s, None)
    | Return None => (error_reply 404 "Workflow not found", s, None)
    | Return (Some w) =>
        match select_payloads workflowId with
        | Throw _ => (error_reply 500 "Failed to start workflow execution", s, None)
        | Return payloads =>
            if (List.length payloads =? 0)%nat then
              (error_reply 400 "Workflow has no payloads to execute", s, None)
            else
              let runId := next_run_id (runs s) in
              let row :=
                mkRun runId workflowId "running" None
                  (Some [("workflow_name", Text (workflow_name w));
                         ("total_payloads", Num (Z.of_nat (List.length payloads)));
                         ("started_at", Text isoNow)]) in
              let inserted :=
                mkWorld (runs s ++ [row])%list (responses s)
                  (journal s ++ [InsertRun runId])%list (events s)
                  (log s ++ [Wrote (InsertRun runId)])%list in
              (mkReply 200 [("runId", Num runId);
                            ("message", Text "Workflow execution started");
                            ("status", Text "running")],
               snd (launch runId payloads inserted),
               Some (mkTask workflowId runId payloads))
        end
    end.

(** A start request followed by the rest of the execution it launched. *)
Definition start_and_run (workflowId : value) (s : world) : reply * world :=
  match start workflowId s with
  | (r, s', Some t) =>
      (r, resume (task_workflow t) (task_run t) (task_payloads t) s')
  | (r, s', None) => (r, s')
  end.

End Run.

End Coordinator.

(* ------------------------------------------------------------------ *)
(** ** Tidy text, to state what the cleaning yields *)

Module Sanitized.

(** A character of the range [\x20-\x7E]. *)
Definition is_visible (c : ascii) : bool :=
  (32 <=? nat_of_ascii c)%nat && (nat_of_ascii c <=? 126)%nat.

(** Text made of characters of that range only, with no space at either
    end and no two spaces in a row. *)
Definition tidy (s : string) : bool :=
  JsString.all_chars is_visible s
  && negb (JsString.starts_with " " s)
  && negb (JsString.starts_with " " (JsString.rev s))
  && negb (JsString.includes "  " s).

(** Text of such characters with no two spaces in a row. *)
Definition single_spaced (s : string) : Prop :=
  JsString.all_chars is_visible s = true /\ JsString.includes "  " s = false.

(** A matcher whose every match is non-empty and replaced by one space. *)
Definition spacing (m : string -> option (nat * string)) : Prop :=
  forall s, m s = None \/ exists k, m s = Some (S k, " ").

(** A matcher whose every match is replaced by the matched text. *)
Definition self_replacing (Q : string -> Prop) (m : string -> option (nat * string)) : Prop :=
  forall s len r,
    Q s -> m s = Some (len, r) ->
    exists c a rest,
      s = String c a ++ rest /\ len = S (String.length a) /\ r = String c a
      /\ Q rest.

End Sanitized.

(* ------------------------------------------------------------------ *)
(** ** Response blocks (routes/payloads.js)

    Creating a payload creates the block that stands for its answer: a
    block of empty content whose tags name the payload. *)

Module Payloads.

(** [`response,payload_${payloadId}`] *)
Definition response_block_tags (payloadId : Z) : string :=
  "response,payload_" ++ Js.string_of_Z payloadId.

(** The row inserted into [blocks] for the payload [payloadId] named
    [name], under the identifier the store gives it. *)
Definition response_block (blockId payloadId : Z) (name : string) : Coordinator.block :=
  Coordinator.mkBlock blockId (name ++ " - response") (Some "")
    (Some (response_block_tags payloadId)).

End Payloads.

(* ------------------------------------------------------------------ *)
(** ** The fallback chain, to state what [sendPrompt] sends *)

Module Fallback.

Import Js Gateway.

(** The endpoints one turn of the retry loop tries, in order, when each of
    them fails. *)
Definition chain_paths (modelFormat : value) : list string :=
  ((if strict_eq modelFormat (Text "mistral") then ["/v1/chat/completions"] else [])
   ++ (if strict_eq modelFormat (Text "command-r")
       then ["/api/v1/generate"; "/v1/generate"; "/generate"] else [])
   ++ ["/api/v1/generate"; "/v1/completions"])%list.

Section Transport.

Variable transport : list effect -> request -> Result value.

(** Every request of the stretch [made], sent behind [history], was
    answered by a failure. *)
Fixpoint refused (history made : list effect) : Prop :=
  match made with
  | [] => True
  | e :: rest =>
      match e with
      | Sent r => is_return (transport history r) = false
      | _ => True
      end
      /\ refused (history ++ [e])%list rest
  end.

(** A computation that leaves the registry alone, only adds to the
    effects, returns nothing but the answer to the last request it sent,
    every request before that one having failed, and throws only when
    every request it sent has failed. *)
Definition short_circuits (x : M value) : Prop :=
  forall s,
    llmInstances (snd (x s)) = llmInstances s
    /\ exists made,
         effects (snd (x s)) = (effects s ++ made)%list
         /\ match fst (x s) with
            | Return v =>
                exists before r,
                  made = (before ++ [Sent r])%list
                  /\ refused (effects s) before
                  /\ transport (effects s ++ before)%list r = Return v
            | Throw _ => refused (effects s) made
            end.

(** A computation that throws after sending requests to the endpoints
    [paths], in that order, and doing nothing else. *)
Definition fails_along (paths : list string) (x : M value) : Prop :=
  forall s, exists message sent,
    x s = (Throw message, mkService (llmInstances s) (effects s ++ sent)%list)
    /\ requests sent = paths
    /\ only_requests sent.

End Transport.

End Fallback.

(* ------------------------------------------------------------------ *)
(** ** The recognized response shapes, to state what is refused *)

Module Shapes.

Import Js.

(** The tests of the five branches of [processResponse], in one. *)
Definition recognized (response : value) : bool :=
  truthy response && is_object response
  && ((truthy (prop response "results")
       && truthy (prop (prop response "results") "0"))
      || (truthy (prop response "generations")
          && gt0 (prop (prop response "generations") "length"))
      || (truthy (prop response "choices")
          && truthy (prop (prop response "choices") "0"))
      || truthy (prop response "result")).

(** The five shapes, in the order [processResponse] tests them. *)
Inductive shape : Type :=
| Kobold
| CommandR
| Chat
| Completion
| Direct.

Definition shape_of (response : value) : option shape :=
  if negb (truthy response && is_object response) then None
  else if truthy (prop response "results")
          && truthy (prop (prop response "results") "0") then Some Kobold
  else if truthy (prop response "generations")
          && gt0 (prop (prop response "generations") "length") then Some CommandR
  else if truthy (prop response "choices")
          && truthy (prop (prop response "choices") "0") then
    Some (if truthy (prop (prop (prop response "choices") "0") "message")
          then Chat else Completion)
  else if truthy (prop response "result") then Some Direct
  else None.

(** Where a response of each shape carries its counts: the first result,
    the billed units, the usage, the response itself. *)
Definition counts_holder (sh : shape) (response : value) : value :=
  match sh with
  | Kobold => prop (prop response "results") "0"
  | CommandR => opt_get (opt_get response "meta") "billed_units"
  | Chat | Completion => prop response "usage"
  | Direct => response
  end.

(** What the backend gave for the prompt count, the completion count, the
    finish reason and the total; [undefined] where it gave nothing. *)
Definition given_prompt_tokens (sh : shape) (response : value) : value :=
  opt_get (counts_holder sh response)
    match sh with CommandR => "input_tokens" | _ => "prompt_tokens" end.

Definition given_completion_tokens (sh : shape) (response : value) : value :=
  opt_get (counts_holder sh response)
    match sh with CommandR => "output_tokens" | _ => "completion_tokens" end.

Definition given_finish_reason (sh : shape) (response : value) : value :=
  match sh with
  | Kobold => prop (prop (prop response "results") "0") "finish_reason"
  | CommandR => prop (prop (prop response "generations") "0") "finish_reason"
  | Chat | Completion => prop (prop (prop response "choices") "0") "finish_reason"
  | Direct => prop response "finish_reason"
  end.

(** The Kobold and the Command-R shape carry no total: it is the sum of the
    two counts as given. *)
Definition given_total (sh : shape) (response : value) : value :=
  match sh with
  | Kobold | CommandR =>
      add (given_prompt_tokens sh response) (given_completion_tokens sh response)
  | Chat | Completion => opt_get (prop response "usage") "total_tokens"
  | Direct => prop response "tokens"
  end.

Definition response_type (sh : shape) : option string :=
  match sh with
  | Kobold | Direct => None
  | CommandR => Some "command-r"
  | Chat => Some "chat"
  | Completion => Some "completion"
  end.

End Shapes.

(* ------------------------------------------------------------------ *)
(** ** What a run adds to a world, to state its independence *)

Module Frame.

Import Coordinator.

(** The world [s] with Results appended, events given out and the actions
    [acts] done. *)
Definition grown (runId : Z) (rows : list result) (evs : list event)
    (acts : list action) (broadcast : bool) (s : world) : world :=
  mkWorld (runs s) (responses s ++ rows)%list
    (journal s ++ inserts runId rows)%list
    (events s ++ shown broadcast evs)%list
    (log s ++ heard broadcast acts)%list.

(** The world [s] with the Results [rows] of the run [runId] appended, the
    writes [tail] journalled behind their inserts, the run rows of that
    identifier updated by [g], the events [evs] given out and the actions
    [acts] done. *)
Definition extended (runId : Z) (g : run -> run) (rows : list result)
    (tail : list write) (evs : list event) (acts : list action)
    (broadcast : bool) (s : world) : world :=
  mkWorld (update_run g runId (runs s))
    (responses s ++ rows)%list
    (journal s ++ inserts runId rows ++ tail)%list
    (events s ++ shown broadcast evs)%list
    (log s ++ heard broadcast acts)%list.

(** An update that ends a run with the status [st] at the time [sqlNow]:
    it keeps the identifier and the workflow of the row, and leaves a
    [NULL] metadata [NULL]. *)
Definition terminal_update (sqlNow : string) (st : string) (g : run -> run) : Prop :=
  forall r,
    run_id (g r) = run_id r
    /\ workflow_id (g r) = workflow_id r
    /\ status (g r) = st
    /\ completed_at (g r) = Some sqlNow
    /\ (run_metadata r = None -> run_metadata (g r) = None).

(** The rows of a table other than those of the run [runId]. *)
Definition other_runs (runId : Z) (rs : list run) : list run :=
  filter (fun r => negb (run_id r =? runId)%Z) rs.

End Frame.

(* ------------------------------------------------------------------ *)
(** ** The HTTP exchange of a request ([makeRequest], services/llm.js) *)

Module Http.

Import Js.

(** What the socket of a request delivers first: the end of a response,
    an error, or a timeout. *)
Inductive exchange : Type :=
| Ended (statusCode : Z) (responseData : string)
| Failed (message : string)
| TimedOut.

Section Exchange.

(** [this.defaultHost], and [JSON.parse], whose [SyntaxError] is a [Throw]. *)
Variable defaultHost : string.
Variable parse : string -> Result value.

Definition isGenerationRequest (path : string) : bool :=
  JsString.includes "/generate" path
  || JsString.includes "/completions" path
  || JsString.includes "/chat" path.

(** The timeout of a request to [path], [given] being [options.timeout]. *)
Definition timeout_of (path : string) (given : value) : value :=
  if isGenerationRequest path then or_else given (Num 120000)
  else or_else given (Num 30000).

(** How the promise of a request settles.  The handler of the end of the
    response resolves or rejects inside a [try] whose [catch] rejects with
    a parse failure. *)
Definition settle (port : Z) (path : string) (timeout : value) (x : exchange)
  : Result value :=
  match x with
  | Ended statusCode responseData =>
      if (JsString.trim responseData =? "")%string then Return (Obj [])
      else
        match
          (let* parsedData := parse responseData in
           if (200 <=? statusCode)%Z && (statusCode <? 300)%Z then
             Return (Return parsedData)
           else
             let* message := get parsedData "message" in
             Return
               (Throw
                  (to_string
                     (or_else message
                        (Text ("HTTP Error: " ++ string_of_Z statusCode))))))
        with
        | Return settled => settled
        | Throw message => Throw ("Failed to parse response: " ++ message)
        end
  | Failed message =>
      Throw ("Connection error to " ++ defaultHost ++ ":" ++ string_of_Z port
               ++ path ++ ": " ++ message)
  | TimedOut =>
      Throw ("Request timed out after " ++ to_string timeout
               ++ "ms when connecting to " ++ defaultHost ++ ":"
               ++ string_of_Z port ++ path)
  end.

(** The transport of the prompts, over a backend that answers each request
    by an exchange. *)
Definition over (wire : list Gateway.effect -> Gateway.request -> exchange)
  : list Gateway.effect -> Gateway.request -> Result value :=
  fun history r =>
    settle (Gateway.port r) (Gateway.path r) (Gateway.timeout r) (wire history r).

End Exchange.

End Http.

(* ------------------------------------------------------------------ *)
(** ** The registry of instances and the probes of a port
    ([registerInstance], [getInstance], [getInstances],
    [checkInstanceAvailability], [getModelInfo], [testConnectivity],
    [getDetailedConnectivity], services/llm.js) *)

Module Registry.

Import Js.

(** The [llmInstances] map and the [GET] requests made, in order. *)
Record net : Type := mkNet {
  instances : list (Z * Gateway.instance);
  asked : list (Z * string)
}.

Definition G := Eff.M net.

(** Whether a configuration binds [key]. *)
Definition bound (c : Gateway.config) (key : string) : bool :=
  existsb (fun kv => (fst kv =? key)%string) c.

(** The result of [getDetailedConnectivity]. *)
Record detail : Type := mkDetail {
  detail_port : Z;
  detail_timestamp : string;
  connected : bool;
  koboldApiAvailable : bool;
  openAiApiAvailable : bool;
  modelInfo : value;
  apiDetails : list (string * value);
  endpointInfo : list (string * value)
}.

Section Service.

Variable defaultHost : string.
Variable parse : string -> Result value.

(** What comes back from a [GET] to a path of a port. *)
Variable wire : Z -> string -> Http.exchange.

(** The literals [0.7] and [0.9], which are not integers. *)
Variables temperature top_p : value.

(** [NODE_ENV === 'development' || SIMULATE_LLM === 'true'], and
    [SIMULATE_LLM_AVAILABLE !== 'false']. *)
Variables simulated simulated_available : bool.

(** [new Date()] *)
Variable now : string.

Definition defaultConfig : Gateway.config :=
  [("temperature", temperature);
   ("max_length", Num 1000);
   ("top_p", top_p);
   ("top_k", Num 40);
   ("stream", Bool false)].

(** [makeRequest(port, path, 'GET')] *)
Definition get_json (port : Z) (path : string) : G value :=
  fun s =>
    (Http.settle defaultHost parse port path (Http.timeout_of path Undefined)
       (wire port path),
     mkNet (instances s) (asked s ++ [(port, path)])%list).

(** The entry [registerInstance] sets; the availability check it launches
    is [checkInstanceAvailability], below. *)
Definition registerInstance (port : Z) (name : string) (given : Gateway.config)
    (s : net) : net :=
  mkNet
    (Gateway.set_instance (instances s) port
       (Gateway.mkInstance name "unknown" None (Gateway.spread defaultConfig given)))
    (asked s).

Definition getInstance (port : Z) (s : net) : option Gateway.instance :=
  Gateway.find_instance (instances s) port.

Definition getInstances (s : net) : list Gateway.instance :=
  map snd (instances s).

Definition with_status (st : string) (i : Gateway.instance) : Gateway.instance :=
  Gateway.mkInstance (Gateway.name i) st (Gateway.lastUsed i)
    (Gateway.instance_config i).

Definition checkInstanceAvailability (port : Z) (s : net) : value * net :=
  match Gateway.find_instance (instances s) port with
  | None => (Bool false, s)
  | Some instance =>
      if simulated then (Bool simulated_available, s)
      else
        match get_json port "/health" s with
        | (Return response, s') =>
            let available :=
              if truthy response
              then Bool (strict_eq (prop response "status") (Text "ok"))
              else response in
            (available,
             mkNet
               (Gateway.set_instance (instances s') port
                  (with_status
                     (if truthy available then "available" else "unavailable")
                     instance))
               (asked s'))
        | (Throw _, s') =>
            (Bool false,
             mkNet
               (Gateway.set_instance (instances s') port
                  (with_status "unavailable" instance))
               (asked s'))
        end
  end.

Definition getModelInfo (port : Z) : G value :=
  Eff.tryCatch (get_json port "/api/v1/model")
    (fun _ =>
       Eff.tryCatch (get_json port "/v1/models")
         (fun _ =>
            Eff.ret
              (Obj [("success", Bool false);
                    ("message",
                     Text "Server reachable but could not get model information");
                    ("port", Num port)]))).

Definition testConnectivity (port : Z) : G value :=
  Eff.tryCatch
    (do info <- getModelInfo port;
     Eff.ret (Obj [("connected", Bool true);
                   ("modelInfo", info);
                   ("timestamp", Text now)]))
    (fun message =>
       Eff.ret (Obj [("connected", Bool false);
                     ("error", or_else (Text message) (Text "Unknown error"));
                     ("timestamp", Text now)])).

(** The three probes of [getDetailedConnectivity], each in its own [try]. *)
Definition probe_kobold (result : detail) : G detail :=
  Eff.tryCatch
    (do koboldModelInfo <- get_json (detail_port result) "/api/v1/model";
     Eff.ret (mkDetail (detail_port result) (detail_timestamp result) true true
                (openAiApiAvailable result)
                koboldModelInfo
                (apiDetails result ++ [("kobold", koboldModelInfo)])%list
                (endpointInfo result)))
    (fun message =>
       Eff.ret (mkDetail (detail_port result) (detail_timestamp result)
                  (connected result)
                  (koboldApiAvailable result) (openAiApiAvailable result)
                  (modelInfo result)
                  (apiDetails result ++ [("koboldError", Text message)])%list
                  (endpointInfo result))).

Definition probe_openai (result : detail) : G detail :=
  Eff.tryCatch
    (do openAiInfo <- get_json (detail_port result) "/v1/models";
     Eff.ret (mkDetail (detail_port result) (detail_timestamp result) true
                (koboldApiAvailable result) true
                (if truthy (modelInfo result) then modelInfo result else openAiInfo)
                (apiDetails result ++ [("openai", openAiInfo)])%list
                (endpointInfo result)))
    (fun message =>
       Eff.ret (mkDetail (detail_port result) (detail_timestamp result)
                  (connected result)
                  (koboldApiAvailable result) (openAiApiAvailable result)
                  (modelInfo result)
                  (apiDetails result ++ [("openaiError", Text message)])%list
                  (endpointInfo result))).

Definition probe_info (result : detail) : G detail :=
  if connected result then
    Eff.tryCatch
      (do infoResponse <- get_json (detail_port result) "/info";
       Eff.ret (mkDetail (detail_port result) (detail_timestamp result)
                  (connected result)
                  (koboldApiAvailable result) (openAiApiAvailable result)
                  (modelInfo result) (apiDetails result)
                  (endpointInfo result ++ [("info", infoResponse)])%list))
      (fun _ => Eff.ret result)
  else Eff.ret result.

(** The outer [catch] of the source is never entered: each probe catches
    its own failure. *)
Definition getDetailedConnectivity (port : Z) : G detail :=
  do result <- probe_kobold (mkDetail port now false false false Null [] []);
  do result <- probe_openai result;
  probe_info result.

End Service.

End Registry.

(* ------------------------------------------------------------------ *)
(** ** The connectivity routes (routes/llm.js) *)

Module LlmRoutes.

Import Js.

(** [parseInt(s, 10)]: white space is skipped, a sign is read, and the
    longest run of decimal digits that follows is the number; [None] is
    [NaN]. *)
Definition parseInt (s : string) : option Z :=
  let s := JsString.trim_start s in
  let (negative, s) :=
    match s with
    | String "-" t => (true, t)
    | String "+" t => (false, t)
    | _ => (false, s)
    end in
  match JsString.span Coordinator.is_digit s with
  | (EmptyString, _) => None
  | (digits, _) =>
      let n := Coordinator.parseInt digits in
      Some (if negative then (- n)%Z else n)
  end.

(** [isNaN(port) || port <= 0 || port > 65535] *)
Definition invalid (port : option Z) : bool :=
  match port with
  | None => true
  | Some p => (p <=? 0)%Z || (65535 <? p)%Z
  end.

(** A message handed to the broadcaster. *)
Record notice : Type := SYSTEM_MESSAGE {
  level : string;
  message : string
}.

Record reply : Type := mkReply {
  code : Z;
  body : value
}.

Section Routes.

Variable defaultHost : string.
Variable parse : string -> Result value.
Variable wire : Z -> string -> Http.exchange.
Variable now : string.

(** Whether [setBroadcast] has installed a broadcast function. *)
Variable broadcast : bool.

(** [router.get('/test/:port')]: the reply, what is broadcast, and the
    service afterwards. *)
Definition test_port (param : string) (s : Registry.net)
  : reply * list notice * Registry.net :=
  match parseInt param with
  | Some port =>
      if invalid (Some port) then
        (mkReply 400 (Obj [("error", Text "Invalid port number")]), [], s)
      else
        match Registry.testConnectivity defaultHost parse wire now port s with
        | (Return result, s') =>
            (mkReply 200 result,
             if broadcast then
               [if truthy (prop result "connected")
                then SYSTEM_MESSAGE "INFO"
                       ("Successfully connected to LLM on port " ++ string_of_Z port)
                else SYSTEM_MESSAGE "WARNING"
                       ("Failed to connect to LLM on port " ++ string_of_Z port)]
             else [],
             s')
        | (Throw details, s') =>
            (mkReply 500 (Obj [("error", Text "Failed to test LLM connectivity");
                               ("details", Text details)]),
             [], s')
        end
  | None => (mkReply 400 (Obj [("error", Text "Invalid port number")]), [], s)
  end.

End Routes.

End LlmRoutes.

(* ------------------------------------------------------------------ *)
(** ** Starting a run by path ([router.post('/workflow/:id')],
    routes/execute.js) *)

Module PathStart.

Import Js Coordinator.

Section Route.

Variable select_workflow : value -> Result (option workflow).
Variable select_payloads : value -> Result (list payload).

(** The handler answers before it calls [executeWorkflowAsync]: the world
    it answers in holds the run row only, and the execution, not yet
    launched, is returned as a [task].  The run row is inserted with a
    status and no metadata.  The insert of the run row does not throw. *)
Definition start_by_path (workflowId : value) (s : world)
  : reply * world * option task :=
  if negb (truthy workflowId) then
    (error_reply 400 "Workflow ID is required", s, None)
  else
    match select_workflow workflowId with
    | Throw message =>
        (error_reply 500 ("Failed to start workflow execution: " ++ message), s, None)
    | Return None => (error_reply 404 "Workflow not found", s, None)
    | Return (Some _) =>
        match select_payloads workflowId with
        | Throw message =>
            (error_reply 500 ("Failed to start workflow execution: " ++ message),
             s, None)
        | Return payloads =>
            if (List.length payloads =? 0)%nat then
              (error_reply 400 "Workflow has no payloads to execute", s, None)
            else
              let runId := next_run_id (runs s) in
              let row := mkRun runId workflowId "IN_PROGRESS" None None in
              (mkReply 202 [("message", Text "Workflow execution started");
                            ("runId", Num runId)],
               mkWorld (runs s ++ [row])%list (responses s)
                 (journal s ++ [InsertRun runId])%list (events s)
                 (log s ++ [Wrote (InsertRun runId)])%list,
               Some (mkTask workflowId runId payloads))
        end
    end.

End Route.

End PathStart.

(* ------------------------------------------------------------------ *)
(** ** Sample pipelines and collaborators *)

Module Examples.

Import Js Coordinator.

Definition step (i : Z) (n : string) : payload :=
  mkPayload i n Null (Num 1000) (Num 5001) (Text "default").

Definition three_steps : list payload :=
  [step 1 "step1"; step 2 "step2"; step 3 "step3"].

Definition one_step : list payload := [step 1 "step1"].

Definition research : value -> Result (option workflow) :=
  fun _ => Return (Some (mkWorkflow "Research")).

Definition no_workflow : value -> Result (option workflow) :=
  fun _ => Return None.

Definition steps_of (payloads : list payload) : value -> Result (list payload) :=
  fun _ => Return payloads.

Definition blocks_of : nat -> Z -> Result (list block) :=
  fun _ _ => Return [mkBlock 1 "task" (Some "Summarize the text.") None].

Definition no_model_info : nat -> value -> Result value :=
  fun _ _ => Throw "Connection error".

Definition kobold_answer : value :=
  Obj [("results",
        Arr [Obj [("text", Text "Done.");
                  ("prompt_tokens", Num 4);
                  ("completion_tokens", Num 2)]])].

(** A backend that answers every prompt. *)
Definition answering : nat -> value -> string -> Gateway.config -> Result value :=
  fun _ _ _ _ => Return kobold_answer.


(** A backend that is down at the second step. *)
Definition down_at_second : nat -> value -> string -> Gateway.config -> Result value :=
  fun i _ _ _ =>
    if (i =? 1)%nat then Throw "Connection error to host.docker.internal:5001/v1/completions"
    else Return kobold_answer.

(** A backend that answers in the flat shape, with a number for a result. *)
Definition answering_a_number : nat -> value -> string -> Gateway.config -> Result value :=
  fun _ _ _ _ => Return (Obj [("result", Num 42)]).

Definition started_at : nat -> Z := fun _ => 1000%Z.
Definition ended_at : nat -> Z := fun _ => 1500%Z.
Definition iso : string := "2026-01-01T00:00:00.000Z".
Definition sql : string := "2026-01-01 00:00:00".
Definition rate : value -> Z -> value := fun _ _ => Num 12.
Definition print : value -> string := fun _ => "[]".

(** The world a start request for the three-step pipeline has inserted its
    run row in. *)
Definition started : world :=
  mkWorld
    [mkRun 1 (Num 1) "running" None
       (Some [("workflow_name", Text "Research");
              ("total_payloads", Num 3);
              ("started_at", Text iso)])]
    [] [InsertRun 1] [] [Wrote (InsertRun 1)].

(** A backend that refuses every connection. *)
Definition refusing : list Gateway.effect -> Gateway.request -> Result value :=
  fun _ r => Throw ("Connection error to " ++ Gateway.path r).

Definition one_instance : Gateway.service :=
  Gateway.mkService
    [(5001%Z, Gateway.mkInstance "local" "unknown" None [("max_length", Num 1000)])]
    [].

(** A backend whose Kobold endpoint is missing and whose OpenAI-compatible
    endpoint answers. *)
Definition completions_only : list Gateway.effect -> Gateway.request -> Result value :=
  fun _ r =>
    if (Gateway.path r =? "/v1/completions")%string
    then Return (Obj [("choices", Arr [Obj [("text", Text "Done.")]])])
    else Throw "HTTP Error: 404".

Definition two_instances : Gateway.service :=
  Gateway.mkService
    [(5001%Z, Gateway.mkInstance "small" "unknown" None [("max_length", Num 1000)]);
     (5002%Z, Gateway.mkInstance "large" "available" None [("max_length", Num 4000)])]
    [].

Definition host : string := "host.docker.internal".

(** A parser for bodies that are not JSON. *)
Definition unparsed : string -> Result value :=
  fun _ => Throw "Unexpected end of JSON input".

(** A backend that answers every prompt with an error status and a blank
    body. *)
Definition blank_error : list Gateway.effect -> Gateway.request -> Http.exchange :=
  fun _ _ => Http.Ended 500 " ".

(** A port nobody listens on. *)
Definition nobody : Z -> string -> Http.exchange :=
  fun _ _ => Http.Failed "connect ECONNREFUSED".

Definition nothing_asked : Registry.net := Registry.mkNet [] [].

End Examples.

(* ================================================================== *)
(** * Properties *)

(** ** Strings *)

Module JsStringFacts.

Import JsString.

Lemma append_assoc (a b c : string) : (a ++ b) ++ c = a ++ (b ++ c).
Proof.
  induction a as [|x a IH]; simpl; [reflexivity | now rewrite IH].
Qed.

Lemma append_empty_r (a : string) : a ++ "" = a.
Proof.
  induction a as [|x a IH]; simpl; [reflexivity | now rewrite IH].
Qed.

Lemma length_append (a b : string) :
  String.length (a ++ b) = (String.length a + String.length b)%nat.
Proof.
  induction a as [|x a IH]; simpl; [reflexivity | now rewrite IH].
Qed.

(** A greedy run stops exactly at the first character outside the class. *)
Lemma span_run (p : ascii -> bool) (a : string) (c : ascii) (s : string) :
  all_chars p a = true -> p c = false ->
  span p (a ++ String c s) = (a, String c s).
Proof.
  intros Ha Hc. induction a as [|x a IH]; simpl in *.
  - now rewrite Hc.
  - apply andb_prop in Ha as [Hx Ha]. rewrite Hx, (IH Ha). reflexivity.
Qed.

(** Behind a match the scan resumes after the matched text. *)
Lemma replace_global_skip m (a s : string) :
  replace_global m (String.length a) (a ++ s) = replace_global m 0 s.
Proof.
  induction a as [|x a IH]; simpl; [reflexivity | exact IH].
Qed.

(** A non-empty match at the head is replaced, and the scan goes on behind it. *)
Lemma replace_global_match m (c : ascii) (a s r : string) :
  m (String c a ++ s) = Some (S (String.length a), r) ->
  replace_global m 0 (String c a ++ s) = r ++ replace_global m 0 s.
Proof.
  intros H. change (String c a ++ s) with (String c (a ++ s)) in *.
  cbn [replace_global]. rewrite H. now rewrite replace_global_skip.
Qed.

(** Text in which the pattern matches nowhere is copied. *)
Lemma replace_global_copy m (a s : string) :
  (forall x y z, a = x ++ String y z -> m (String y z ++ s) = None) ->
  replace_global m 0 (a ++ s) = a ++ replace_global m 0 s.
Proof.
  induction a as [|c a IH]; intros H; simpl; [reflexivity|].
  pose proof (H "" c a eq_refl) as E. simpl in E. rewrite E.
  f_equal. apply IH.
  intros x y z ->. apply (H (String c x) y z). reflexivity.
Qed.

End JsStringFacts.

(** ** Variable substitution *)

Module ContextFacts.

Import JsString JsStringFacts Context.

Section Facts.

Context {Meta : Type}.
Implicit Types (responses : list (response Meta)) (prompt variable : string).

Lemma token_unfold variable (s : string) :
  token variable ++ s = String "{" (String "{" (variable ++ String "}" (String "}" s))).
Proof.
  unfold token. simpl. now rewrite append_assoc.
Qed.

Lemma match_variable_token variable (s : string) :
  is_variable_name variable = true ->
  match_variable (token variable ++ s) = Some variable.
Proof.
  unfold is_variable_name. intros H. apply andb_prop in H as [Hne Hall].
  rewrite token_unfold. unfold match_variable. simpl strip_prefix.
  cbv beta iota.
  rewrite (span_run _ variable "}" (String "}" s) Hall eq_refl).
  destruct variable; [discriminate|]. reflexivity.
Qed.

Lemma match_variable_other (c : ascii) (s : string) :
  (c =? "{")%char = false -> match_variable (String c s) = None.
Proof.
  intros H. unfold match_variable.
  change (strip_prefix "{{" (String c s))
    with (if ("{" =? c)%char then strip_prefix "{" s else None).
  rewrite Ascii.eqb_sym, H. reflexivity.
Qed.

Lemma all_chars_split p (a x : string) (y : ascii) (z : string) :
  all_chars p a = true -> a = x ++ String y z -> p y = true.
Proof.
  revert a. induction x as [|c x IH]; intros a Ha ->; simpl in Ha.
  - now apply andb_prop in Ha as [Hy _].
  - apply andb_prop in Ha as [_ Ha]. exact (IH _ Ha eq_refl).
Qed.

(** Text free of opening braces is copied. *)
Lemma substitute_plain responses (text s : string) :
  all_chars (fun c => negb (c =? "{")%char) text = true ->
  substitute_tokens responses (text ++ s)
  = text ++ substitute_tokens responses s.
Proof.
  intros H. unfold substitute_tokens. apply replace_global_copy.
  intros x y z E. pose proof (all_chars_split _ _ _ _ _ H E) as Hy.
  unfold variable_matcher. simpl append.
  rewrite match_variable_other; [reflexivity|].
  cbv beta in Hy. now destruct (y =? "{")%char.
Qed.

(** A token is resolved, and the scan goes on behind it. *)
Lemma substitute_token responses variable (s : string) :
  is_variable_name variable = true ->
  substitute_tokens responses (token variable ++ s)
  = resolve responses variable ++ substitute_tokens responses s.
Proof.
  intros H. unfold substitute_tokens.
  pose proof (match_variable_token variable s H) as E.
  rewrite token_unfold in *.
  change (String "{" (String "{" (variable ++ String "}" (String "}" s))))
    with (String "{" (String "{" EmptyString ++ (variable ++ String "}" (String "}" s)))).
  replace (String "{" EmptyString ++ variable ++ String "}" (String "}" s))
    with ((String "{" variable ++ "}}") ++ s)
    by (simpl; now rewrite append_assoc).
  apply replace_global_match.
  unfold variable_matcher.
  replace (String "{" (String "{" variable ++ "}}") ++ s)
    with (String "{" (String "{" (variable ++ String "}" (String "}" s))))
    by (simpl; now rewrite append_assoc).
  rewrite E. do 2 f_equal. simpl. rewrite length_append. simpl. lia.
Qed.

Lemma substitute_template responses (pieces : list piece) :
  forallb well_formed pieces = true ->
  substitute_tokens responses (template pieces) = expansion responses pieces.
Proof.
  induction pieces as [|p pieces IH]; intros H; [reflexivity|].
  simpl in H. apply andb_prop in H as [Hp H].
  destruct p as [text|variable]; cbn [template expansion well_formed] in *.
  - rewrite substitute_plain by exact Hp. now rewrite IH.
  - rewrite substitute_token by exact Hp. now rewrite IH.
Qed.

Lemma strip_prefix_some (p s t : string) :
  strip_prefix p s = Some t -> s = p ++ t.
Proof.
  revert s. induction p as [|a p IH]; intros s H; simpl in H.
  - now injection H as ->.
  - destruct s as [|b s]; [discriminate|].
    destruct (a =? b)%char eqn:E; [|discriminate].
    apply Ascii.eqb_eq in E. subst b. simpl. f_equal. now apply IH.
Qed.

Lemma span_some (p : ascii -> bool) (s a b : string) :
  span p s = (a, b) -> s = a ++ b /\ all_chars p a = true.
Proof.
  revert a b. induction s as [|c s IH]; intros a b H; simpl in H.
  - injection H as <- <-. now split.
  - destruct (p c) eqn:E.
    + destruct (span p s) as [a' b'] eqn:S. injection H as <- <-.
      destruct (IH a' b' eq_refl) as [-> A]. simpl. now rewrite E, A.
    + injection H as <- <-. now split.
Qed.

(** The anchored pattern matches exactly where a token begins, and captures
    its variable. *)
Lemma match_variable_some (s variable : string) :
  match_variable s = Some variable <-> begins_with_token s variable.
Proof.
  split.
  - unfold match_variable. intros H.
    destruct (strip_prefix "{{" s) as [t|] eqn:P; [|discriminate].
    apply strip_prefix_some in P. subst s.
    destruct (span (fun c => negb (c =? "}")%char) t) as [v rest] eqn:S.
    apply span_some in S as [-> A].
    destruct v as [|c v]; [discriminate|].
    unfold starts_with in H.
    destruct (strip_prefix "}}" rest) as [rest'|] eqn:Q; [|discriminate].
    apply strip_prefix_some in Q. subst rest. injection H as <-.
    split; [unfold is_variable_name; now rewrite A|].
    exists rest'. unfold token. now rewrite !append_assoc.
  - intros [N [rest ->]]. now apply match_variable_token.
Qed.

Lemma match_variable_none (s : string) :
  match_variable s = None <-> forall variable, ~ begins_with_token s variable.
Proof.
  split.
  - intros H variable B. apply match_variable_some in B. congruence.
  - intros H. destruct (match_variable s) as [variable|] eqn:E; [|reflexivity].
    apply match_variable_some in E. now apply H in E.
Qed.

Lemma no_token_begins_in_cons (c : ascii) (before after : string) :
  match_variable (String c (before ++ after)) = None ->
  no_token_begins_in before after ->
  no_token_begins_in (String c before) after.
Proof.
  intros H N x y variable E Y.
  destruct x as [|c' x]; simpl in E.
  - subst y. simpl. now apply match_variable_none.
  - injection E as _ E. now apply (N x y).
Qed.

(** The pass, at every prompt: either no token begins anywhere in the
    prompt, which is returned as it is; or the text before the leftmost
    token is copied, the token is resolved, and the pass goes on behind the
    token. *)
Lemma substitute_leftmost responses prompt :
  (no_token_begins_in prompt "" /\ substitute_tokens responses prompt = prompt)
  \/ (exists (before variable rest : string),
        prompt = before ++ token variable ++ rest
        /\ is_variable_name variable = true
        /\ no_token_begins_in before (token variable ++ rest)
        /\ substitute_tokens responses prompt
           = before ++ resolve responses variable ++ substitute_tokens responses rest).
Proof.
  induction prompt as [|c t IH].
  - left. split; [|reflexivity].
    intros x y variable E Y. destruct x, y; try discriminate. now contradiction Y.
  - destruct (match_variable (String c t)) as [variable|] eqn:M.
    + right. apply match_variable_some in M as [N [rest E]].
      exists "", variable, rest. split; [exact E|]. split; [exact N|].
      split.
      * intros x y v' E' Y. destruct x, y; try discriminate. now contradiction Y.
      * rewrite E. now apply substitute_token.
    + assert (S : substitute_tokens responses (String c t)
                  = String c (substitute_tokens responses t)).
      { unfold substitute_tokens. cbn [replace_global].
        unfold variable_matcher at 1. now rewrite M. }
      destruct IH as [[N E] | (before & variable & rest & E & V & N & R)].
      * left. split; [|now rewrite S, E].
        apply no_token_begins_in_cons; [now rewrite append_empty_r | exact N].
      * right. exists (String c before), variable, rest.
        split; [now rewrite E|]. split; [exact V|].
        split; [apply no_token_begins_in_cons; [now rewrite <- E | exact N]|].
        now rewrite S, R.
Qed.

Lemma most_recent_last responses (r : response Meta) :
  most_recent (responses ++ [r]) = Some r.
Proof.
  unfold most_recent. rewrite length_app. simpl.
  replace (List.length responses + 1 - 1)%nat with (List.length responses) by lia.
  rewrite nth_error_app2 by lia. now rewrite Nat.sub_diag.
Qed.

(** [replaceVariables] in terms of the two rules. *)
Lemma replaceVariables_cases prompt responses :
  replaceVariables prompt responses =
  if (substitute_tokens responses prompt =? prompt)%string then
    match most_recent responses with
    | Some lastResponse => prompt ++ separator ++ content lastResponse
    | None => prompt
    end
  else substitute_tokens responses prompt.
Proof.
  unfold replaceVariables, most_recent.
  destruct (substitute_tokens responses prompt =? prompt)%string eqn:E; simpl.
  - apply String.eqb_eq in E. rewrite E.
    destruct responses as [|r rest]; [reflexivity|].
    simpl (0 <? _)%nat. cbv iota.
    destruct (nth_error (r :: rest) (List.length (r :: rest) - 1)); reflexivity.
  - reflexivity.
Qed.

Lemma lookup_first responses (r : response Meta) (later : list (response Meta)) variable :
  (forall e, In e responses -> payloadName e <> variable) ->
  payloadName r = variable ->
  lookup (responses ++ r :: later) variable = Some (content r).
Proof.
  intros Hbefore Hr. induction responses as [|e responses IH]; simpl.
  - rewrite <- Hr, String.eqb_refl. reflexivity.
  - destruct (payloadName e =? variable)%string eqn:E.
    + apply String.eqb_eq in E. exfalso. apply (Hbefore e); [now left | exact E].
    + apply IH. intros e' He'. apply Hbefore. now right.
Qed.

End Facts.

(** C3 (fallback-append rule).  Whenever the substitution pass returns the
    template as it was given and the context holds at least one response,
    [replaceVariables] returns the template followed by a blank line, the
    label "Previous response:" and the content of the most recent response.
    In particular "Hello" under a context of one response named "s1" with
    content "World" gives "Hello\n\nPrevious response:\nWorld". *)
Theorem fallback_appends_most_recent :
  (forall (Meta : Type) (prompt : string)
          (earlier : list (response Meta)) (lastResponse : response Meta),
      substitute_tokens (earlier ++ [lastResponse])%list prompt = prompt ->
      replaceVariables prompt (earlier ++ [lastResponse])%list
      = prompt ++ nl ++ nl ++ "Previous response:" ++ nl ++ content lastResponse)
  /\ (forall (Meta : Type) (payloadId : Z) (metadata : Meta),
      replaceVariables "Hello" [mkResponse payloadId "s1" "World" metadata]
      = "Hello" ++ nl ++ nl ++ "Previous response:" ++ nl ++ "World").
Proof.
  split.
  - intros Meta prompt earlier lastResponse H.
    rewrite replaceVariables_cases, H, String.eqb_refl, most_recent_last.
    unfold separator. now rewrite !append_assoc.
  - reflexivity.
Qed.

Lemma fallback_appends_most_recent_witness :
  substitute_tokens ([] ++ [mkResponse 1%Z "s1" "World" tt])%list "Hello" = "Hello"
  /\ replaceVariables "Hello" ([] ++ [mkResponse 1%Z "s1" "World" tt])%list
     = "Hello" ++ nl ++ nl ++ "Previous response:" ++ nl ++ "World".
Proof.
  split.
  - reflexivity.
  - apply (proj1 fallback_appends_most_recent unit "Hello" []
             (mkResponse 1%Z "s1" "World" tt)).
    reflexivity.
Defined.

(** C4, as the code has it.  A token is [{{variable}}], where the variable
    is a non-empty run of characters other than the closing brace; it may
    hold opening braces.  (a) At every prompt the substitution pass either
    finds that no token begins anywhere and returns the prompt as it is, or
    copies the text before the leftmost token, puts for the token the
    content of the earliest response its variable names, or the token as
    written when it names none, and goes on behind the token, the text it
    has put not being read again; it never fails.  (b) So, in a template
    made of brace-free text and of tokens, every token is resolved in this
    way and the text is copied.  (c) When the pass changed the prompt, or
    the context is empty, [replaceVariables] returns the result of the
    pass.  (d) "Analyze: {{s1}}" gives "Analyze: X" when the earliest
    response named "s1" has content "X"; so does "{ {{s1}}" give "{ X";
    while "{{{s1}}" is the token of the variable "{s1", which the pass
    leaves as written when no response has that name.  (e) "{{unknown}}",
    no response being named "unknown", is returned unchanged under the
    empty context, and followed by the fallback block of the most recent
    response otherwise. *)
Theorem substitution_of_tokens :
  (forall (Meta : Type) (responses : list (response Meta)) (prompt : string),
      (no_token_begins_in prompt ""
       /\ substitute_tokens responses prompt = prompt)
      \/ (exists (before variable rest : string),
            prompt = before ++ token variable ++ rest
            /\ is_variable_name variable = true
            /\ no_token_begins_in before (token variable ++ rest)
            /\ substitute_tokens responses prompt
               = before ++ resolve responses variable
                   ++ substitute_tokens responses rest))
  /\ (forall (s variable : string),
        match_variable s = Some variable <-> begins_with_token s variable)
  /\ (forall (Meta : Type) (responses : list (response Meta)) (variable : string),
        resolve responses variable
        = match find (fun r => (payloadName r =? variable)%string) responses with
          | Some r => content r
          | None => token variable
          end)
  /\ (forall (Meta : Type) (responses : list (response Meta)) (pieces : list piece),
      forallb well_formed pieces = true ->
      substitute_tokens responses (template pieces) = expansion responses pieces)
  /\ (forall (Meta : Type) (responses : list (response Meta)) (prompt : string),
      substitute_tokens responses prompt <> prompt \/ responses = [] ->
      replaceVariables prompt responses = substitute_tokens responses prompt)
  /\ (forall (Meta : Type) (responses : list (response Meta)),
      lookup responses "s1" = Some "X" ->
      replaceVariables "Analyze: {{s1}}" responses = "Analyze: X"
      /\ replaceVariables "{ {{s1}}" responses = "{ X")
  /\ (forall (Meta : Type) (responses : list (response Meta)),
      lookup responses "{s1" = None ->
      "{{{s1}}" = token "{s1"
      /\ substitute_tokens responses "{{{s1}}" = "{{{s1}}")
  /\ (forall (Meta : Type) (responses : list (response Meta)),
      lookup responses "unknown" = None ->
      replaceVariables "{{unknown}}" responses
      = match most_recent responses with
        | None => "{{unknown}}"
        | Some lastResponse =>
            "{{unknown}}" ++ nl ++ nl ++ "Previous response:" ++ nl
              ++ content lastResponse
        end).
Proof.
  split; [|split; [|split; [|split; [|split; [|split; [|split]]]]]].
  - intros Meta responses prompt. apply substitute_leftmost.
  - apply match_variable_some.
  - intros Meta responses variable. unfold resolve.
    induction responses as [|r responses IH]; [reflexivity|].
    cbn [lookup find]. now destruct (payloadName r =? variable)%string.
  - intros Meta responses pieces H. now apply substitute_template.
  - intros Meta responses prompt H. rewrite replaceVariables_cases.
    destruct (substitute_tokens responses prompt =? prompt)%string eqn:E;
      [|reflexivity].
    apply String.eqb_eq in E. destruct H as [H | ->]; [contradiction|].
    now rewrite E.
  - intros Meta responses H. split.
    + assert (E : substitute_tokens responses "Analyze: {{s1}}" = "Analyze: X").
      { change "Analyze: {{s1}}" with (template [Plain "Analyze: "; Token "s1"]).
        rewrite substitute_template by reflexivity.
        simpl. unfold resolve. now rewrite H. }
      rewrite replaceVariables_cases, E. reflexivity.
    + assert (E : substitute_tokens responses "{ {{s1}}" = "{ X").
      { change "{ {{s1}}" with ("{ " ++ token "s1" ++ "").
        unfold substitute_tokens. rewrite replace_global_copy.
        - fold (substitute_tokens responses (token "s1" ++ "")).
          rewrite substitute_token by reflexivity.
          unfold resolve. now rewrite H.
        - intros x y z E.
          destruct x as [|c1 [|c2 [|c3 x]]]; simpl in E; try discriminate;
            injection E as <- <-; reflexivity. }
      rewrite replaceVariables_cases, E. reflexivity.
  - intros Meta responses H. split; [reflexivity|].
    change "{{{s1}}" with (token "{s1" ++ "") at 1.
    rewrite substitute_token by reflexivity.
    unfold resolve. now rewrite H.
  - intros Meta responses H.
    assert (E : substitute_tokens responses "{{unknown}}" = "{{unknown}}").
    { change "{{unknown}}" with (template [Token "unknown"]) at 1.
      rewrite substitute_template by reflexivity.
      simpl. unfold resolve. now rewrite H. }
    rewrite replaceVariables_cases, E, String.eqb_refl.
    destruct (most_recent responses); reflexivity.
Qed.

Lemma substitution_of_tokens_witness :
  (forallb well_formed [Plain "Analyze: "; Token "s1"; Plain " and "; Token "s2"] = true
   /\ substitute_tokens [mkResponse 1%Z "s1" "X" tt]
        (template [Plain "Analyze: "; Token "s1"; Plain " and "; Token "s2"])
      = "Analyze: X and {{s2}}")
  /\ replaceVariables "Analyze: {{s1}}" [mkResponse 1%Z "s1" "X" tt] = "Analyze: X"
  /\ replaceVariables "{ {{s1}}" [mkResponse 1%Z "s1" "X" tt] = "{ X"
  /\ substitute_tokens [mkResponse 1%Z "s1" "X" tt] "{{{s1}}" = "{{{s1}}"
  /\ replaceVariables "{{unknown}}" (@nil (response unit)) = "{{unknown}}".
Proof.
  pose proof substitution_of_tokens as (_ & _ & _ & Ha & Hb & Hc & Hd & _).
  split; [split; [reflexivity|] | split; [|split; [|split]]].
  - apply (Ha unit [mkResponse 1%Z "s1" "X" tt]
             [Plain "Analyze: "; Token "s1"; Plain " and "; Token "s2"]).
    reflexivity.
  - apply (Hc unit [mkResponse 1%Z "s1" "X" tt]). reflexivity.
  - apply (Hc unit [mkResponse 1%Z "s1" "X" tt]). reflexivity.
  - apply (Hd unit [mkResponse 1%Z "s1" "X" tt]). reflexivity.
  - rewrite (Hb unit [] "{{unknown}}"); [reflexivity | now right].
Defined.

(** C4 as stated fails: under a non-empty context without a response named
    "unknown", "{{unknown}}" does not come back unchanged. *)
Lemma unknown_token_not_unchanged :
  lookup [mkResponse 1%Z "s1" "World" tt] "unknown" = None
  /\ replaceVariables "{{unknown}}" [mkResponse 1%Z "s1" "World" tt]
     = "{{unknown}}" ++ nl ++ nl ++ "Previous response:" ++ nl ++ "World"
  /\ replaceVariables "{{unknown}}" [mkResponse 1%Z "s1" "World" tt]
     <> "{{unknown}}".
Proof.
  repeat split. discriminate.
Qed.

(** C10.  When several responses share a name, a token of that name takes
    the content of the earliest of them, while the fallback block takes the
    content of the most recent response: with two responses named "s1",
    "{{s1}}" resolves to the first and the fallback appends the second. *)
Theorem duplicate_names_resolve_in_opposite_directions :
  (forall (Meta : Type) (before between : list (response Meta))
          (earliest latest : response Meta) (variable prompt : string),
      is_variable_name variable = true ->
      payloadName earliest = variable ->
      payloadName latest = variable ->
      (forall e, In e before -> payloadName e <> variable) ->
      let responses := (before ++ earliest :: between ++ [latest])%list in
      substitute_tokens responses (token variable) = content earliest
      /\ (substitute_tokens responses prompt = prompt ->
          replaceVariables prompt responses
          = prompt ++ separator ++ content latest))
  /\ (forall (Meta : Type) (metadata : Meta),
      let responses := [mkResponse 1%Z "s1" "A" metadata;
                        mkResponse 2%Z "s1" "B" metadata] in
      replaceVariables "{{s1}}" responses = "A"
      /\ replaceVariables "Hello" responses
         = "Hello" ++ nl ++ nl ++ "Previous response:" ++ nl ++ "B").
Proof.
  split.
  - intros Meta before between earliest latest variable prompt Hname He Hl Hb
           responses.
    split.
    + rewrite <- (append_empty_r (token variable)).
      rewrite substitute_token by exact Hname.
      unfold resolve, responses. rewrite (lookup_first _ _ _ _ Hb He).
      apply append_empty_r.
    + intros H. rewrite replaceVariables_cases, H, String.eqb_refl.
      unfold responses.
      change (before ++ earliest :: between ++ [latest])%list
        with (before ++ (earliest :: between) ++ [latest])%list.
      rewrite app_assoc, most_recent_last. reflexivity.
  - intros Meta metadata responses. split; reflexivity.
Qed.

Lemma duplicate_names_resolve_in_opposite_directions_witness :
  let responses := ([] ++ mkResponse 1%Z "s1" "A" tt
                       :: [] ++ [mkResponse 2%Z "s1" "B" tt])%list in
  substitute_tokens responses (token "s1") = "A"
  /\ replaceVariables "Hello" responses = "Hello" ++ separator ++ "B".
Proof.
  intros responses.
  destruct (proj1 duplicate_names_resolve_in_opposite_directions unit [] []
              (mkResponse 1%Z "s1" "A" tt) (mkResponse 2%Z "s1" "B" tt)
              "s1" "Hello" eq_refl eq_refl eq_refl
              (fun e (H : In e []) => False_ind _ H)) as [H1 H2].
  split; [exact H1 | apply H2; reflexivity].
Defined.

End ContextFacts.

(** ** The model gateway *)

Module GatewayFacts.

Import Js Gateway.

(** *** Response normalization *)

Lemma or_else_defaulted (v default : value) : defaulted (or_else v default) default.
Proof.
  unfold defaulted, or_else. destruct (truthy v) eqn:E; [right; exact E | now left].
Qed.

Lemma bind_Return {A B : Type} (r : Result A) (k : A -> Result B) (b : B) :
  bind r k = Return b -> exists a, r = Return a /\ k a = Return b.
Proof.
  destruct r as [a|m]; simpl; [intros H; now exists a | discriminate].
Qed.

(** What is not a non-null object is refused. *)
Lemma processResponse_invalid (response : value) :
  truthy response && is_object response = false ->
  processResponse response = Throw "Invalid LLM response format".
Proof.
  intros H. unfold processResponse.
  destruct (truthy response), (is_object response); simpl in *;
    try discriminate; reflexivity.
Qed.

(** An object of none of the five shapes is refused. *)
Lemma processResponse_unsupported (response : value) :
  truthy response = true -> is_object response = true ->
  truthy (prop response "results") && truthy (prop (prop response "results") "0") = false ->
  truthy (prop response "generations")
    && gt0 (prop (prop response "generations") "length") = false ->
  truthy (prop response "choices") && truthy (prop (prop response "choices") "0") = false ->
  truthy (prop response "result") = false ->
  processResponse response = Throw "Unsupported LLM response format".
Proof.
  intros Ht Ho H1 H2 H3 H4. unfold processResponse.
  rewrite Ht, Ho, H1, H2, H3, H4. simpl.
  destruct (truthy (prop (prop (prop response "choices") "0") "message"));
    reflexivity.
Qed.

(** Whatever the shape, the prompt count, the completion count and the
    finish reason of a result are truthy or their defaults; so is the total
    outside the Kobold shape. *)
Lemma processResponse_defaults (response : value) (p : processed) :
  processResponse response = Return p ->
  defaulted (promptTokens (meta p)) (Num 0)
  /\ defaulted (completionTokens (meta p)) (Num 0)
  /\ defaulted (finishReason (meta p)) (Text "unknown")
  /\ (truthy (prop response "results")
        && truthy (prop (prop response "results") "0") = false ->
      defaulted (tokens (meta p)) (Num 0)).
Proof.
  unfold processResponse.
  destruct (negb (truthy response) || negb (is_object response)); [discriminate|].
  destruct (truthy (prop response "results")
            && truthy (prop (prop response "results") "0")) eqn:E1.
  { intros H. apply bind_Return in H as (t & _ & H). injection H as <-. simpl.
    repeat split; try apply or_else_defaulted. discriminate. }
  destruct (truthy (prop response "generations")
            && gt0 (prop (prop response "generations") "length")).
  { intros H. apply bind_Return in H as (t & _ & H).
    apply bind_Return in H as (t' & _ & H).
    apply bind_Return in H as (r & _ & H). injection H as <-. simpl.
    repeat split; try apply or_else_defaulted. intros _. apply or_else_defaulted. }
  destruct (truthy (prop response "choices")
            && truthy (prop (prop response "choices") "0")
            && truthy (prop (prop (prop response "choices") "0") "message")).
  { intros H. apply bind_Return in H as (t & _ & H). injection H as <-. simpl.
    repeat split; try apply or_else_defaulted. intros _. apply or_else_defaulted. }
  destruct (truthy (prop response "choices")
            && truthy (prop (prop response "choices") "0")).
  { intros H. apply bind_Return in H as (t & _ & H). injection H as <-. simpl.
    repeat split; try apply or_else_defaulted. intros _. apply or_else_defaulted. }
  destruct (truthy (prop response "result")); [|discriminate].
  intros H. injection H as <-. simpl.
  repeat split; try apply or_else_defaulted. intros _. apply or_else_defaulted.
Qed.

(** C1 at the failing input.  A response of the Kobold shape whose result
    carries a text and no token counts is normalized with the total [NaN],
    not [0]; the Command-R shape without billed units, next to it, gets the
    total [0]. *)
Theorem kobold_total_without_counts_is_NaN :
  processResponse (Obj [("results", Arr [Obj [("text", Text "ok")]])])
  = Return (mkProcessed (Text "ok")
              (mkMetadata NaN (Num 0) (Num 0) (Text "unknown") None))
  /\ processResponse (Obj [("generations", Arr [Obj [("text", Text "ok")]])])
     = Return (mkProcessed (Text "ok")
                 (mkMetadata (Num 0) (Num 0) (Num 0) (Text "unknown")
                    (Some "command-r"))).
Proof.
  split; reflexivity.
Qed.

(** *** Output sanitization *)

(** C2 at the failing inputs.  The marker followed by no underscore is
    flagged as corruption and survives the cleaning; a marker in a response
    of the flat shape is not cleaned at all. *)
Theorem marker_survives_response_processing :
  (isCorrupted "xx UNK_BYTE yy" = true
   /\ option_map text
        (match processResponse
                 (Obj [("results", Arr [Obj [("text", Text "xx UNK_BYTE yy")]])])
         with Return p => Some p | Throw _ => None end)
      = Some (Text "xx UNK_BYTE yy")
   /\ JsString.includes "UNK_BYTE" "xx UNK_BYTE yy" = true)
  /\ (option_map text
        (match processResponse (Obj [("result", Text "[UNK_BYTE_0x8f]")])
         with Return p => Some p | Throw _ => None end)
      = Some (Text "[UNK_BYTE_0x8f]")
      /\ JsString.includes "UNK_BYTE" "[UNK_BYTE_0x8f]" = true).
Proof.
  repeat split.
Qed.

(** *** Retrying the fallback chain *)

Section Exhaustion.

Variable transport : list effect -> request -> Result value.

(** Every candidate fails on every attempt. *)
Hypothesis transport_fails : forall history r, exists message, transport history r = Throw message.

Lemma attempts_failed_app (a b : list effect) :
  attempts_failed (a ++ b) = (attempts_failed a + attempts_failed b)%nat.
Proof.
  unfold attempts_failed. now rewrite filter_app, length_app.
Qed.

Lemma pauses_app (a b : list effect) : pauses (a ++ b) = (pauses a ++ pauses b)%list.
Proof.
  unfold pauses. apply flat_map_app.
Qed.

Lemma only_requests_app (a b : list effect) :
  only_requests a -> only_requests b -> only_requests (a ++ b).
Proof.
  intros [A1 A2] [B1 B2]. split.
  - rewrite attempts_failed_app. lia.
  - rewrite pauses_app, A2, B2. reflexivity.
Qed.

Lemma makeRequest_fails port path shape prompt merged given timeout :
  fails_sending (makeRequest transport port path shape prompt merged given timeout).
Proof.
  intros s. unfold makeRequest.
  match goal with |- context [transport ?h ?r] =>
    destruct (transport_fails h r) as [message E]; rewrite E;
    exists message, [Sent r]
  end.
  split; [reflexivity | split; reflexivity].
Qed.

Lemma tryCatch_fails {A : Type} (x : M A) (handler : string -> M A) :
  fails_sending x -> (forall m, fails_sending (handler m)) ->
  fails_sending (Eff.tryCatch x handler).
Proof.
  intros Hx Hh s. unfold Eff.tryCatch.
  destruct (Hx s) as (m & sent & E & Hs). rewrite E.
  destruct (Hh m (mkService (llmInstances s) (effects s ++ sent)%list))
    as (m' & sent' & E' & Hs').
  rewrite E'. exists m', (sent ++ sent')%list. simpl. split.
  - now rewrite app_assoc.
  - now apply only_requests_app.
Qed.

Lemma chat_chain_fails port formattedPrompt mergedConfig given modelFormat :
  fails_sending (chat_chain transport port formattedPrompt mergedConfig given modelFormat).
Proof.
  assert (D : fails_sending
                (default_chain transport port formattedPrompt mergedConfig given)).
  { apply tryCatch_fails; [|intros _]; apply makeRequest_fails. }
  assert (C : fails_sending
                (command_r_chain transport port formattedPrompt mergedConfig given
                   modelFormat)).
  { unfold command_r_chain. destruct (strict_eq modelFormat (Text "command-r"));
      [|exact D].
    apply tryCatch_fails; [|intros _; exact D].
    apply tryCatch_fails; [apply makeRequest_fails | intros _].
    apply tryCatch_fails; [|intros _]; apply makeRequest_fails. }
  unfold chat_chain. destruct (strict_eq modelFormat (Text "mistral")); [|exact C].
  apply tryCatch_fails; [apply makeRequest_fails | intros _; exact C].
Qed.

(** From turn [attempt] on, with every turn up to [n] still to be made, the
    loop makes all of them and raises the error of the last. *)
Lemma retry_loop_exhausts port formattedPrompt mergedConfig given modelFormat
    (n : Z) (turns : nat) (attempt : Z) (lastError : option string) (s : service) :
  (0 <= attempt)%Z -> (attempt + Z.of_nat turns = n + 1)%Z -> (0 < turns)%nat ->
  exists message made,
    retry_loop transport port formattedPrompt mergedConfig given modelFormat
      (Num n) turns attempt lastError s
    = (Throw message,
       mkService (llmInstances s)
         (effects s ++ made ++ [AttemptFailed (n + 1) message])%list)
    /\ attempts_failed made = (turns - 1)%nat
    /\ pauses made = repeat retryDelayMs (turns - (if (0 <? attempt)%Z then 0 else 1)).
Proof.
  revert attempt lastError s.
  induction turns as [|turns IH]; intros attempt lastError s Ha Hn Ht; [lia|].
  cbn [retry_loop]. unfold Eff.tryCatch at 1.
  assert (A : exists message sent,
             attempt_once transport port formattedPrompt mergedConfig given
               modelFormat attempt s
             = (Throw message,
                mkService (llmInstances s) (effects s ++ sent)%list)
             /\ attempts_failed sent = 0%nat
             /\ pauses sent = if (0 <? attempt)%Z then [retryDelayMs] else []).
  { unfold attempt_once, Eff.andThen.
    destruct (0 <? attempt)%Z.
    - unfold perform at 1.
      destruct (chat_chain_fails port formattedPrompt mergedConfig given modelFormat
                  (mkService (llmInstances s) (effects s ++ [Waited retryDelayMs])%list))
        as (m & sent & E & H1 & H2).
      rewrite E. exists m, (Waited retryDelayMs :: sent). simpl. repeat split.
      + now rewrite <- app_assoc.
      + exact H1.
      + unfold pauses in *. simpl. now rewrite H2.
    - unfold Eff.ret at 1.
      destruct (chat_chain_fails port formattedPrompt mergedConfig given modelFormat s)
        as (m & sent & E & H1 & H2).
      rewrite E. exists m, sent. repeat split; assumption. }
  destruct A as (m & sent & E & S1 & S2). rewrite E.
  unfold Eff.andThen, perform. cbn [llmInstances effects].
  destruct turns as [|turns'].
  - (* the last turn *)
    assert (attempt = n) as -> by lia.
    cbn [strict_eq]. rewrite Z.eqb_refl. unfold Eff.raise.
    exists m, sent. rewrite <- app_assoc. repeat split.
    + exact S1.
    + rewrite S2. destruct (0 <? n)%Z; reflexivity.
  - cbn [strict_eq]. replace (attempt =? n)%Z with false by (symmetry; apply Z.eqb_neq; lia).
    destruct (IH (attempt + 1)%Z (Some m)
                (mkService (llmInstances s)
                   ((effects s ++ sent) ++ [AttemptFailed (attempt + 1) m])%list))
      as (m' & made & E' & M1 & M2); [lia | lia | lia |].
    rewrite E'. cbn [llmInstances effects].
    exists m', (sent ++ AttemptFailed (attempt + 1) m :: made)%list. repeat split.
    + f_equal. f_equal. rewrite <- !app_assoc. reflexivity.
    + rewrite attempts_failed_app, S1. unfold attempts_failed in *. simpl.
      rewrite M1. lia.
    + rewrite pauses_app, S2. unfold pauses in *. simpl. rewrite M2.
      replace (0 <? attempt + 1)%Z with true by (symmetry; apply Z.ltb_lt; lia).
      destruct (0 <? attempt)%Z; simpl; rewrite ?Nat.sub_0_r; reflexivity.
Qed.

Variable now : string.

(** X7.  With every candidate failing, a registered port and a retry count [n]
    in force, [sendPrompt] makes [n + 1] turns of the chain, pauses 2000 ms
    between turns, and raises the error of the last turn. *)
Lemma sendPrompt_exhausts (port : Z) (prompt : string) (given : config)
    (s : service) (inst : instance) (n : Z) :
  find_instance (llmInstances s) port = Some inst ->
  or_else (assoc given "retries") (Num 2) = Num n -> (0 <= n)%Z ->
  exists message made s',
    sendPrompt transport now port prompt given s = (Throw message, s')
    /\ effects s' = (effects s ++ made ++ [AttemptFailed (n + 1) message])%list
    /\ attempts_failed (made ++ [AttemptFailed (n + 1) message]) = Z.to_nat (n + 1)
    /\ pauses (made ++ [AttemptFailed (n + 1) message])
       = repeat retryDelayMs (Z.to_nat n).
Proof.
  intros Hi Hr Hn. unfold sendPrompt. rewrite Hi, Hr.
  unfold turns_of. cbn [to_number].
  match goal with |- context [retry_loop _ ?p ?f ?m ?g ?mf _ _ _ _ ?st] =>
    destruct (retry_loop_exhausts p f m g mf n (Z.to_nat (n + 1)) 0 None st)
      as (message & made & E & M1 & M2); [lia | lia | lia |]
  end.
  rewrite E. eexists message, made, _. split; [reflexivity|].
  cbn [effects]. split; [reflexivity|]. split.
  - rewrite attempts_failed_app, M1. unfold attempts_failed. simpl. lia.
  - rewrite pauses_app, M2. unfold pauses. simpl. rewrite app_nil_r.
    f_equal. lia.
Qed.

End Exhaustion.

(** C5 at the failing input.  With [retries: 0] in the configuration the
    default of two retries is taken: three turns of the chain are made, and
    two pauses, where [retries + 1] is one turn. *)
Theorem zero_retries_makes_three_attempts :
  let outcome := sendPrompt Examples.refusing Examples.iso 5001 "Hello"
                   [("retries", Num 0)] Examples.one_instance in
  fst outcome = Throw "Connection error to /v1/completions"
  /\ attempts_failed (effects (snd outcome)) = 3%nat
  /\ pauses (effects (snd outcome)) = [2000%Z; 2000%Z]
  /\ requests (effects (snd outcome))
     = ["/api/v1/generate"; "/v1/completions";
        "/api/v1/generate"; "/v1/completions";
        "/api/v1/generate"; "/v1/completions"].
Proof.
  repeat split.
Qed.

End GatewayFacts.

(** ** The run coordinator *)

Module CoordinatorFacts.

Import Js Coordinator.

Section Facts.

Variable broadcast : bool.
Variable select_workflow : value -> Result (option workflow).
Variable select_payloads : value -> Result (list payload).
Variable select_blocks : nat -> Z -> Result (list block).
Variable getModelInfo : nat -> value -> Result value.
Variable sendPrompt : nat -> value -> string -> Gateway.config -> Result value.
Variables startTime endTime : nat -> Z.
Variables isoNow sqlNow : string.
Variable default_temperature : value.
Variable round_rate : value -> Z -> value.
Variable stringify : value -> string.

Local Abbreviation run_step :=
  (run_step broadcast select_blocks getModelInfo sendPrompt startTime endTime
     default_temperature round_rate).
Local Abbreviation run_steps :=
  (run_steps broadcast select_blocks getModelInfo sendPrompt startTime endTime
     default_temperature round_rate).
Local Abbreviation executeWorkflowAsync :=
  (executeWorkflowAsync broadcast select_blocks getModelInfo sendPrompt
     startTime endTime isoNow sqlNow default_temperature round_rate stringify).
Local Abbreviation announce := (announce broadcast).
Local Abbreviation work :=
  (work broadcast select_blocks getModelInfo sendPrompt startTime endTime
     default_temperature round_rate).
Local Abbreviation launch := (launch broadcast isoNow sqlNow).
Local Abbreviation resume :=
  (resume broadcast select_blocks getModelInfo sendPrompt
     startTime endTime isoNow sqlNow default_temperature round_rate stringify).
Local Abbreviation start :=
  (start broadcast select_workflow select_payloads isoNow sqlNow).

Lemma emit_eq (e : event) (s : world) :
  emit broadcast e s
  = (Return tt,
     mkWorld (runs s) (responses s) (journal s) (events s ++ shown broadcast [e])%list
       (log s ++ heard broadcast [Emitted e])%list).
Proof.
  unfold emit, shown, heard. cbn [filter]. destruct broadcast; [reflexivity|].
  rewrite !app_nil_r. now destruct s.
Qed.

Lemma heard_app (a b : list action) :
  heard broadcast (a ++ b) = (heard broadcast a ++ heard broadcast b)%list.
Proof.
  apply filter_app.
Qed.

Lemma heard_installed (l : list action) : broadcast = true -> heard broadcast l = l.
Proof.
  intros ->. unfold heard. induction l as [|a l IH]; [reflexivity|].
  cbn [filter]. rewrite IH. now destruct a.
Qed.

(** The head of a turn: the progress event and the request for the
    blocks.  It does not throw. *)
Lemma announce_eq (runId : Z) (n i : nat) (p : payload) (s : world) :
  let progress := execution_progress runId (id p) (name p) (progress_of i n) in
  announce runId n i p s
  = (Return tt,
     mkWorld (runs s) (responses s) (journal s)
       (events s ++ shown broadcast [progress])%list
       (log s ++ heard broadcast [Emitted progress; Queried (id p)])%list).
Proof.
  intros progress. unfold Coordinator.announce, Eff.andThen, note.
  rewrite emit_eq. fold progress. cbn [runs responses journal events log].
  rewrite <- app_assoc. unfold heard. cbn [filter].
  now destruct broadcast.
Qed.

Lemma shown_installed (es : list event) : broadcast = true -> shown broadcast es = es.
Proof.
  intros ->. reflexivity.
Qed.

Lemma shown_app (a b : list event) :
  shown broadcast (a ++ b) = (shown broadcast a ++ shown broadcast b)%list.
Proof.
  unfold shown. now destruct broadcast.
Qed.

(** The three ways the work of a turn ends: it throws before its Result is
    stored, it throws behind the insert, or it completes. *)
Lemma work_cases (runId : Z) (n i : nat) (p : payload) (context : list entry)
    (s : world) :
  (exists message asked,
      (asked = [] \/ asked = [Probed (id p); Prompted (id p)])
      /\ work runId n i p context s
         = (Throw message,
            mkWorld (runs s) (responses s) (journal s) (events s)
              (log s ++ asked)%list))
  \/ (exists message row,
      result_run_id row = runId /\ result_payload_id row = id p
      /\ work runId n i p context s
         = (Throw message,
            mkWorld (runs s) (responses s ++ [row])%list
              (journal s ++ [InsertResponse runId (id p)])%list
              (events s)
              (log s ++ [Probed (id p); Prompted (id p);
                         Wrote (InsertResponse runId (id p))])%list))
  \/ (exists context' row,
      result_run_id row = runId /\ result_payload_id row = id p
      /\ work runId n i p context s
         = (Return context',
            mkWorld (runs s) (responses s ++ [row])%list
              (journal s ++ [InsertResponse runId (id p)])%list
              (events s
                 ++ shown broadcast
                      [payload_completed runId (id p) (name p)
                         (result_content row) (result_stats row)])%list
              (log s
                 ++ heard broadcast
                      [Probed (id p); Prompted (id p);
                       Wrote (InsertResponse runId (id p));
                       Emitted (payload_completed runId (id p) (name p)
                                  (result_content row) (result_stats row))])%list)).
Proof.
  unfold Coordinator.work.
  unfold Eff.andThen, Eff.lift, Eff.ret, insert_response, note.
  cbv beta iota zeta.
  destruct (select_blocks i (id p)) as [blocks|m].
  2:{ left. exists m, []. split; [now left|]. rewrite app_nil_r. now destruct s. }
  cbn [runs responses journal events log].
  destruct (sendPrompt _ _ _ _) as [llmResponse|m].
  2:{ left. exists m, [Probed (id p); Prompted (id p)]. split; [now right|].
      now rewrite <- app_assoc. }
  destruct (Gateway.processResponse llmResponse) as [processed|m].
  2:{ left. exists m, [Probed (id p); Prompted (id p)]. split; [now right|].
      now rewrite <- app_assoc. }
  cbn [runs responses journal events log result_run_id result_payload_id].
  destruct (trim_text (Gateway.text processed)) as [content|m].
  - right; right. rewrite emit_eq.
    cbn [runs responses journal events log].
    eexists _, (mkResult _ _ _ _ _).
    split; [reflexivity|]. split; [reflexivity|].
    cbn [result_content result_stats].
    rewrite <- !app_assoc. unfold heard. cbn [filter app].
    reflexivity.
  - right; left. eexists m, (mkResult _ _ _ _ _).
    split; [reflexivity|]. split; [reflexivity|].
    rewrite <- !app_assoc. reflexivity.
Qed.

(** The three ways a step ends: it throws before its Result is stored, it
    throws behind the insert, or it completes.  Its progress event is out
    in every case. *)
Lemma run_step_cases (runId : Z) (n i : nat) (p : payload) (context : list entry)
    (s : world) :
  let progress := execution_progress runId (id p) (name p) (progress_of i n) in
  (exists message asked,
      (asked = [] \/ asked = [Probed (id p); Prompted (id p)])
      /\ run_step runId n i p context s
         = (Throw message,
            mkWorld (runs s) (responses s) (journal s)
              (events s ++ shown broadcast [progress])%list
              (log s
                 ++ heard broadcast (Emitted progress :: Queried (id p) :: asked))%list))
  \/ (exists message row,
      result_run_id row = runId /\ result_payload_id row = id p
      /\ run_step runId n i p context s
         = (Throw message,
            mkWorld (runs s) (responses s ++ [row])%list
              (journal s ++ [InsertResponse runId (id p)])%list
              (events s ++ shown broadcast [progress])%list
              (log s
                 ++ heard broadcast
                      [Emitted progress; Queried (id p); Probed (id p);
                       Prompted (id p);
                       Wrote (InsertResponse runId (id p))])%list))
  \/ (exists context' row,
      result_run_id row = runId /\ result_payload_id row = id p
      /\ run_step runId n i p context s
         = (Return context',
            mkWorld (runs s) (responses s ++ [row])%list
              (journal s ++ [InsertResponse runId (id p)])%list
              (events s
                 ++ shown broadcast
                      [progress;
                       payload_completed runId (id p) (name p)
                         (result_content row) (result_stats row)])%list
              (log s ++ heard broadcast (step_log runId n i [p] [row]))%list)).
Proof.
  intros progress. unfold Coordinator.run_step, Eff.andThen.
  rewrite announce_eq. fold progress. cbv beta iota zeta.
  match goal with |- context [Coordinator.work _ _ _ _ _ _ _ _ _ _ _ _ _ ?w] =>
    destruct (work_cases runId n i p context w)
      as [(m & asked & A & E) | [(m & row & R1 & R2 & E) | (c & row & R1 & R2 & E)]];
      rewrite E; cbn [runs responses journal events log]
  end.
  - left. exists m, asked. split; [exact A|].
    rewrite <- app_assoc.
    change (Emitted progress :: Queried (id p) :: asked)
      with ([Emitted progress; Queried (id p)] ++ asked)%list.
    rewrite heard_app.
    replace (heard broadcast asked) with asked; [reflexivity|].
    destruct A as [-> | ->]; reflexivity.
  - right; left. exists m, row. split; [exact R1|]. split; [exact R2|].
    rewrite <- app_assoc.
    change [Emitted progress; Queried (id p); Probed (id p); Prompted (id p);
            Wrote (InsertResponse runId (id p))]
      with ([Emitted progress; Queried (id p)]
              ++ [Probed (id p); Prompted (id p);
                  Wrote (InsertResponse runId (id p))])%list.
    rewrite heard_app. reflexivity.
  - right; right. exists c, row. split; [exact R1|]. split; [exact R2|].
    rewrite <- !app_assoc, <- shown_app, <- heard_app. reflexivity.
Qed.

(** A loop that runs to its end has stored one Result per step, in step
    order, given out the events of every step, and done the actions of
    every step in their order. *)
Lemma run_steps_returns (runId : Z) (n : nat) (rest : list payload) :
  forall (i : nat) (context context' : list entry) (s s' : world),
    run_steps runId n i rest context s = (Return context', s') ->
    exists rows,
      responses s' = (responses s ++ rows)%list
      /\ map result_payload_id rows = map id rest
      /\ of_run runId rows
      /\ events s' = (events s ++ shown broadcast (step_events runId n i rest rows))%list
      /\ runs s' = runs s
      /\ journal s' = (journal s ++ inserts runId rows)%list
      /\ log s' = (log s ++ heard broadcast (step_log runId n i rest rows))%list.
Proof.
  induction rest as [|p rest IH]; intros i context context' s s' H.
  - cbn in H. injection H as _ <-. exists []. unfold shown.
    destruct broadcast; cbn; rewrite !app_nil_r; repeat split; constructor.
  - cbn [Coordinator.run_steps] in H. unfold Eff.andThen in H.
    destruct (run_step_cases runId n i p context s)
      as [(m & asked & _ & E) | [(m & row & _ & _ & E) | (c & row & R1 & R2 & E)]];
      rewrite E in H; try discriminate.
    apply IH in H as (rows & H1 & H2 & H3 & H4 & H5 & H6 & H7).
    cbn [runs responses journal events log] in *.
    exists (row :: rows). repeat split.
    + rewrite H1, <- app_assoc. reflexivity.
    + cbn. now rewrite R2, H2.
    + constructor; assumption.
    + rewrite H4, <- app_assoc, <- shown_app. reflexivity.
    + exact H5.
    + rewrite H6, <- app_assoc. unfold inserts. cbn. now rewrite R2.
    + rewrite H7, <- app_assoc, <- heard_app. reflexivity.
Qed.

(** A loop that throws has stored the Results of the steps before the
    failing one, in step order, and at most the Result of the failing step
    behind them; of the failing step only the progress event is out, and no
    later step has left a trace. *)
Lemma run_steps_throws (runId : Z) (n : nat) (rest : list payload) :
  forall (i : nat) (context : list entry) (message : string) (s s' : world),
    run_steps runId n i rest context s = (Throw message, s') ->
    exists (done : list payload) (p : payload) (pending : list payload)
           (rows : list result),
      rest = (done ++ p :: pending)%list
      /\ responses s' = (responses s ++ rows)%list
      /\ (map result_payload_id rows = map id done
          \/ map result_payload_id rows = map id (done ++ [p])%list)
      /\ of_run runId rows
      /\ events s'
         = (events s
              ++ shown broadcast
                   (step_events runId n i done rows
                      ++ [execution_progress runId (id p) (name p)
                            (progress_of (i + List.length done) n)]))%list
      /\ runs s' = runs s
      /\ journal s' = (journal s ++ inserts runId rows)%list.
Proof.
  induction rest as [|p rest IH]; intros i context message s s' H.
  - cbn in H. discriminate.
  - cbn [Coordinator.run_steps] in H. unfold Eff.andThen in H.
    destruct (run_step_cases runId n i p context s)
      as [(m & asked & _ & E) | [(m & row & R1 & R2 & E) | (c & row & R1 & R2 & E)]];
      rewrite E in H.
    + injection H as _ <-. exists [], p, rest, [].
      cbn [runs responses journal events List.length app step_events map inserts].
      rewrite Nat.add_0_r, !app_nil_r.
      repeat split; try reflexivity; [now left | constructor].
    + injection H as _ <-. exists [], p, rest, [row].
      cbn [runs responses journal events List.length app step_events map inserts].
      rewrite Nat.add_0_r, R2.
      repeat split; try reflexivity; [now right | repeat constructor; exact R1].
    + apply IH in H as (done & q & pending & rows & H0 & H1 & H2 & H3 & H4 & H5 & H6).
      cbn [runs responses journal events] in *.
      exists (p :: done), q, pending, (row :: rows). repeat split.
      * now rewrite H0.
      * rewrite H1, <- app_assoc. reflexivity.
      * cbn. rewrite R2. destruct H2 as [H2 | H2]; [left | right]; now rewrite H2.
      * constructor; assumption.
      * rewrite H4, <- app_assoc, <- shown_app. cbn [List.length].
        replace (i + S (List.length done))%nat with (S i + List.length done)%nat by lia.
        reflexivity.
      * exact H5.
      * rewrite H6, <- app_assoc. unfold inserts. cbn. now rewrite R2.
Qed.

Lemma status_updates_app (runId : Z) (a b : list write) :
  status_updates runId (a ++ b)
  = (status_updates runId a ++ status_updates runId b)%list.
Proof.
  unfold status_updates. apply flat_map_app.
Qed.

Lemma status_updates_inserts (runId r : Z) (rows : list result) :
  status_updates runId (inserts r rows) = [].
Proof.
  induction rows as [|x rows IH]; [reflexivity | exact IH].
Qed.

Lemma announced_failures_app (runId : Z) (a b : list event) :
  announced_failures runId (a ++ b)
  = (announced_failures runId a ++ announced_failures runId b)%list.
Proof.
  unfold announced_failures. apply flat_map_app.
Qed.

Lemma announced_failures_steps (runId r : Z) (n : nat) (payloads : list payload) :
  forall (i : nat) (rows : list result),
    announced_failures runId (step_events r n i payloads rows) = [].
Proof.
  induction payloads as [|p payloads IH]; intros i [|row rows]; try reflexivity.
  cbn. apply IH.
Qed.

Lemma length_step_events (runId : Z) (n : nat) (payloads : list payload) :
  forall (i : nat) (rows : list result),
    List.length rows = List.length payloads ->
    List.length (step_events runId n i payloads rows) = (2 * List.length payloads)%nat.
Proof.
  induction payloads as [|p payloads IH]; intros i [|row rows] H;
    try discriminate; [reflexivity|].
  cbn [step_events List.length]. injection H as H. rewrite (IH _ _ H). lia.
Qed.

Lemma find_run_update (f : run -> run) (runId : Z) (rs : list run) :
  (forall r, run_id (f r) = run_id r) ->
  find_run (update_run f runId rs) runId = option_map f (find_run rs runId).
Proof.
  intros Hf. unfold find_run, update_run.
  induction rs as [|r rs IH]; [reflexivity|]. cbn [map find].
  destruct (run_id r =? runId)%Z eqn:E.
  - rewrite Hf, E. reflexivity.
  - rewrite E. exact IH.
Qed.

Lemma assoc_set_key (fields : list (string * value)) (key : string) (v : value) :
  assoc (set_key fields key v) key = v.
Proof.
  induction fields as [|[k old] fields IH]; cbn.
  - now rewrite String.eqb_refl.
  - destruct (k =? key)%string eqn:E; cbn; now rewrite E.
Qed.

(** The world a run that completed its steps ends in. *)
Lemma execute_after_return (workflowId : value) (runId : Z) (payloads : list payload)
    (context : list entry) (s s1 : world) :
  run_steps runId (List.length payloads) 0 payloads [] s = (Return context, s1) ->
  let final := executeWorkflowAsync workflowId runId payloads s in
  responses final = responses s1
  /\ events final = (events s1 ++ shown broadcast [workflow_completed runId])%list
  /\ status_updates runId (journal final)
     = (status_updates runId (journal s1) ++ ["completed"])%list
  /\ option_map status (find_run (runs final) runId)
     = option_map (fun _ => "completed") (find_run (runs s1) runId)
  /\ exists closing : list action,
       log final
       = (log s1 ++ closing
            ++ heard broadcast [Emitted (workflow_completed runId)])%list
       /\ (closing = [Wrote (UpdateRunStatus runId "completed")]
           \/ closing = [Wrote (UpdateRunStatus runId "completed");
                         Wrote (UpdateRunMetadata runId "models")]).
Proof.
  intros H final.
  assert (E : final
              = snd (emit broadcast (workflow_completed runId)
                       (snd (record_models stringify runId context
                               (snd (mark_completed isoNow sqlNow runId s1)))))).
  { subst final. unfold Coordinator.executeWorkflowAsync.
    unfold Eff.tryCatch, Eff.andThen. rewrite H. cbv beta iota zeta.
    unfold mark_completed, modify_run. cbv beta iota zeta.
    destruct (record_models _ _ _ _) as [[[]|m] s3] eqn:R.
    - cbn [snd]. rewrite emit_eq. reflexivity.
    - exfalso. unfold record_models, modify_run, Eff.ret in R.
      destruct (0 <? _)%nat in R; discriminate. }
  rewrite E. clear E final.
  unfold mark_completed, record_models, modify_run, Eff.ret.
  cbv beta iota zeta. cbn [snd runs responses journal events log].
  match goal with |- context [(0 <? ?n)%nat] => destruct (0 <? n)%nat end;
    rewrite emit_eq; cbn [snd runs responses journal events log];
    (split; [reflexivity|]); (split; [reflexivity|]).
  - split; [|split].
    + rewrite !status_updates_app. cbn. rewrite Z.eqb_refl, app_nil_r. reflexivity.
    + rewrite !find_run_update by reflexivity.
      destruct (find_run (runs s1) runId); reflexivity.
    + eexists. split; [|now right]. now rewrite <- !app_assoc.
  - split; [|split].
    + rewrite !status_updates_app. cbn. rewrite Z.eqb_refl. reflexivity.
    + rewrite !find_run_update by reflexivity.
      destruct (find_run (runs s1) runId); reflexivity.
    + eexists. split; [|now left]. now rewrite <- !app_assoc.
Qed.

(** The world a run whose loop threw ends in. *)
Lemma execute_after_throw (workflowId : value) (runId : Z) (payloads : list payload)
    (message : string) (s s1 : world) :
  run_steps runId (List.length payloads) 0 payloads [] s = (Throw message, s1) ->
  executeWorkflowAsync workflowId runId payloads s
  = mkWorld
      (update_run
         (fun r => mkRun (run_id r) (workflow_id r) "failed" (Some sqlNow)
                     (json_set (run_metadata r) "error" (Text message)))
         runId (runs s1))
      (responses s1)
      (journal s1 ++ [UpdateRunStatus runId "failed"])%list
      (events s1 ++ shown broadcast [workflow_failed runId message])%list
      (log s1
         ++ Wrote (UpdateRunStatus runId "failed")
            :: heard broadcast [Emitted (workflow_failed runId message)])%list.
Proof.
  intros H. unfold Coordinator.executeWorkflowAsync.
  unfold Eff.tryCatch, Eff.andThen at 1. rewrite H.
  unfold Eff.andThen, mark_failed, modify_run. cbv beta iota zeta.
  rewrite emit_eq. cbn [runs responses journal events log].
  now rewrite <- app_assoc.
Qed.

(** An execution is its launch followed by its resumption. *)
Lemma launch_resume (workflowId : value) (runId : Z) (payloads : list payload)
    (s : world) :
  executeWorkflowAsync workflowId runId payloads s
  = resume workflowId runId payloads (snd (launch runId payloads s)).
Proof.
  unfold Coordinator.executeWorkflowAsync, Coordinator.resume, Coordinator.launch.
  destruct payloads as [|p rest].
  - cbn [Coordinator.run_steps]. unfold Eff.tryCatch, Eff.andThen, Eff.ret.
    unfold mark_completed, modify_run. reflexivity.
  - cbn [Coordinator.run_steps]. unfold Coordinator.run_step.
    unfold Eff.tryCatch, Eff.andThen. rewrite !announce_eq.
    cbn [snd].
    destruct (work _ _ _ _ _ _) as [[c|m] w]; [|reflexivity].
    destruct (run_steps _ _ _ _ _ _) as [[c'|m'] w']; reflexivity.
Qed.

(** C6.  With a broadcaster installed, a run whose steps all complete
    emits, behind what was emitted before, for each step in order its
    [execution_progress] event (carrying the step's name and the progress
    [i / n * 100] as the doubles compute it) and its [payload_completed]
    event, then one [workflow_completed] event and nothing else: [2 n + 1]
    events.  In the order of what the run does, the progress event of a
    step comes before everything else of the step: the request for its
    blocks, the two requests to the gateway and the insert of its Result,
    which its completion event follows; the run is marked completed behind
    the last step, before [workflow_completed].  For three steps the events
    are the seven events progress(0), completed(step 1),
    progress(33.33333333333333), completed(step 2),
    progress(66.66666666666666), completed(step 3), workflow_completed. *)
#[warnings="-inexact-float"]
Theorem successful_run_event_sequence (workflowId : value) (runId : Z)
    (payloads : list payload) (s : world) :
  broadcast = true ->
  is_return (fst (run_steps runId (List.length payloads) 0 payloads [] s)) = true ->
  exists rows : list result,
    map result_payload_id rows = map id payloads
    /\ responses (executeWorkflowAsync workflowId runId payloads s)
       = (responses s ++ rows)%list
    /\ events (executeWorkflowAsync workflowId runId payloads s)
       = (events s
            ++ step_events runId (List.length payloads) 0 payloads rows
            ++ [workflow_completed runId])%list
    /\ List.length (step_events runId (List.length payloads) 0 payloads rows
                      ++ [workflow_completed runId])
       = (2 * List.length payloads + 1)%nat
    /\ (exists closing : list action,
          log (executeWorkflowAsync workflowId runId payloads s)
          = (log s
               ++ step_log runId (List.length payloads) 0 payloads rows
               ++ closing
               ++ [Emitted (workflow_completed runId)])%list
          /\ (closing = [Wrote (UpdateRunStatus runId "completed")]
              \/ closing = [Wrote (UpdateRunStatus runId "completed");
                            Wrote (UpdateRunMetadata runId "models")]))
    /\ (forall p1 p2 p3 : payload,
          payloads = [p1; p2; p3] ->
          exists r1 r2 r3 : result,
            rows = [r1; r2; r3]
            /\ events (executeWorkflowAsync workflowId runId payloads s)
               = (events s
                    ++ [execution_progress runId (id p1) (name p1) 0%float;
                        payload_completed runId (id p1) (name p1)
                          (result_content r1) (result_stats r1);
                        execution_progress runId (id p2) (name p2)
                          33.33333333333333%float;
                        payload_completed runId (id p2) (name p2)
                          (result_content r2) (result_stats r2);
                        execution_progress runId (id p3) (name p3)
                          66.66666666666666%float;
                        payload_completed runId (id p3) (name p3)
                          (result_content r3) (result_stats r3);
                        workflow_completed runId])%list).
Proof.
  intros B H.
  destruct (run_steps runId (List.length payloads) 0 payloads [] s)
    as [[context|m] s1] eqn:E; [|discriminate]. clear H.
  destruct (execute_after_return workflowId runId payloads context s s1 E)
    as (F1 & F2 & _ & _ & closing & F5 & F6).
  apply run_steps_returns in E as (rows & H1 & H2 & _ & H4 & _ & _ & H7).
  rewrite shown_installed in F2 by exact B.
  rewrite shown_installed in H4 by exact B.
  rewrite heard_installed in F5 by exact B.
  rewrite heard_installed in H7 by exact B.
  exists rows. split; [exact H2|]. split; [now rewrite F1|].
  assert (Ev : events (executeWorkflowAsync workflowId runId payloads s)
               = (events s
                    ++ step_events runId (List.length payloads) 0 payloads rows
                    ++ [workflow_completed runId])%list).
  { rewrite F2, H4, <- app_assoc. reflexivity. }
  split; [exact Ev|]. split; [|split].
  - rewrite length_app, length_step_events; [cbn; lia|].
    rewrite <- (length_map result_payload_id), H2. apply length_map.
  - exists closing. split; [|exact F6].
    rewrite F5, H7, <- !app_assoc. reflexivity.
  - intros p1 p2 p3 ->. rewrite Ev.
    destruct rows as [|r1 [|r2 [|r3 [|r4 rows]]]]; try discriminate.
    exists r1, r2, r3. split; reflexivity.
Qed.

(** A failing run whose row holds a JSON object for metadata, as a start
    request with a body writes it.  With a broadcaster installed, when some
    step of the run throws, the coordinator sets the status of the run to
    "failed" and stores the message of the exception in the metadata, under
    the key "error", as it is; it emits one
    [workflow_failed] event, carrying the message, behind the progress
    event of the failing step; the steps behind the failing one leave
    neither a Result nor an event; the Results stored until then stay. *)
Theorem failed_run_is_marked_and_announced (workflowId : value) (runId : Z)
    (payloads : list payload) (s : world) (message : string)
    (r : run) (fields : list (string * value)) :
  broadcast = true ->
  fst (run_steps runId (List.length payloads) 0 payloads [] s) = Throw message ->
  find_run (runs s) runId = Some r ->
  run_metadata r = Some fields ->
  let final := executeWorkflowAsync workflowId runId payloads s in
  (exists r' : run,
      find_run (runs final) runId = Some r'
      /\ status r' = "failed"
      /\ run_metadata r' = Some (set_key fields "error" (Text message))
      /\ assoc (set_key fields "error" (Text message)) "error" = Text message)
  /\ (exists (done : list payload) (p : payload) (pending : list payload)
             (rows : list result),
        payloads = (done ++ p :: pending)%list
        /\ responses final = (responses s ++ rows)%list
        /\ (map result_payload_id rows = map id done
            \/ map result_payload_id rows = map id (done ++ [p])%list)
        /\ events final
           = (events s
                ++ step_events runId (List.length payloads) 0 done rows
                ++ [execution_progress runId (id p) (name p)
                      (progress_of (List.length done) (List.length payloads));
                    workflow_failed runId message])%list)
  /\ responses final
     = responses (snd (run_steps runId (List.length payloads) 0 payloads [] s))
  /\ announced_failures runId (events final)
     = (announced_failures runId (events s) ++ [message])%list.
Proof.
  intros B H Hr Hm final.
  destruct (run_steps runId (List.length payloads) 0 payloads [] s)
    as [[context|m] s1] eqn:E; [discriminate|].
  cbn [fst] in H. injection H as ->.
  pose proof (execute_after_throw workflowId runId payloads message s s1 E) as F.
  fold final in F.
  apply run_steps_throws in E
    as (done & p & pending & rows & H0 & H1 & H2 & _ & H4 & H5 & _).
  rewrite shown_installed in F by exact B.
  rewrite shown_installed in H4 by exact B. cbn [Nat.add] in H4.
  assert (Ev : events final
               = (events s
                    ++ step_events runId (List.length payloads) 0 done rows
                    ++ [execution_progress runId (id p) (name p)
                          (progress_of (List.length done) (List.length payloads));
                        workflow_failed runId message])%list).
  { rewrite F. cbn [events]. rewrite H4, <- !app_assoc. reflexivity. }
  repeat split.
  - rewrite F. cbn [runs]. rewrite find_run_update by reflexivity.
    rewrite H5, Hr. cbn [option_map]. eexists. split; [reflexivity|].
    cbn [status run_metadata]. rewrite Hm. cbn [json_set option_map].
    repeat split. apply assoc_set_key.
  - exists done, p, pending, rows. rewrite F at 1. cbn [responses].
    repeat split; assumption.
  - rewrite F. reflexivity.
  - rewrite Ev, !announced_failures_app, announced_failures_steps.
    cbn. rewrite Z.eqb_refl. reflexivity.
Qed.

(** X13.  Order of the Results and single transition.  In every run the Results are appended
    behind the stored ones, one per step in step order over an initial
    stretch of the steps, and the status of the run is written once, to
    "completed" or to "failed". *)
Lemma results_follow_steps (workflowId : value) (runId : Z)
    (payloads : list payload) (s : world) :
  let final := executeWorkflowAsync workflowId runId payloads s in
  exists (rows : list result) (st : string),
    responses final = (responses s ++ rows)%list
    /\ of_run runId rows
    /\ map result_payload_id rows
       = firstn (List.length rows) (map id payloads)
    /\ (List.length rows <= List.length payloads)%nat
    /\ (st = "completed" \/ st = "failed")
    /\ status_updates runId (journal final)
       = (status_updates runId (journal s) ++ [st])%list.
Proof.
  intros final.
  destruct (run_steps runId (List.length payloads) 0 payloads [] s)
    as [[context|m] s1] eqn:E.
  - destruct (execute_after_return workflowId runId payloads context s s1 E)
      as (F1 & _ & F3 & _). fold final in F1, F3.
    apply run_steps_returns in E as (rows & H1 & H2 & H3 & _ & _ & H6 & _).
    assert (L : List.length rows = List.length payloads).
    { rewrite <- (length_map result_payload_id), H2. apply length_map. }
    exists rows, "completed". repeat split.
    + now rewrite F1.
    + exact H3.
    + rewrite H2, L, <- (length_map id). symmetry. apply firstn_all.
    + lia.
    + now left.
    + rewrite F3, H6, status_updates_app, status_updates_inserts, app_nil_r.
      reflexivity.
  - pose proof (execute_after_throw workflowId runId payloads m s s1 E) as F.
    fold final in F.
    apply run_steps_throws in E
      as (done & p & pending & rows & H0 & H1 & H2 & H3 & _ & _ & H6).
    exists rows, "failed". rewrite F. cbn [responses journal].
    assert (P : forall (a b : list payload),
               firstn (List.length (map id a)) (map id (a ++ b)) = map id a).
    { intros a b. rewrite map_app, firstn_app, Nat.sub_diag, firstn_all.
      cbn. apply app_nil_r. }
    repeat split.
    + exact H1.
    + exact H3.
    + rewrite <- (length_map result_payload_id). destruct H2 as [H2 | H2]; rewrite H2, H0.
      * apply eq_sym, P.
      * change (done ++ p :: pending)%list with (done ++ [p] ++ pending)%list.
        rewrite app_assoc. apply eq_sym, P.
    + rewrite <- (length_map result_payload_id), H0.
      destruct H2 as [H2 | H2]; rewrite H2, length_map, !length_app; cbn; lia.
    + now right.
    + rewrite H6, !status_updates_app, status_updates_inserts, app_nil_r.
      cbn. rewrite Z.eqb_refl. reflexivity.
Qed.

Lemma max_run_id_bound (rs : list run) (r : run) :
  In r rs -> (run_id r <= max_run_id rs)%Z.
Proof.
  induction rs as [|x rs IH]; [contradiction|].
  change (max_run_id (x :: rs)) with (Z.max (run_id x) (max_run_id rs)).
  intros [-> | H]; [lia|]. specialize (IH H). lia.
Qed.

Lemma next_run_id_fresh (rs : list run) : find_run rs (next_run_id rs) = None.
Proof.
  unfold find_run. destruct (find _ rs) as [r|] eqn:E; [|reflexivity].
  apply find_some in E as [Hin Heq]. apply Z.eqb_eq in Heq.
  pose proof (max_run_id_bound rs r Hin). unfold next_run_id in Heq. lia.
Qed.

Lemma find_run_appended (rs : list run) (row : run) :
  find_run rs (run_id row) = None ->
  find_run (rs ++ [row]) (run_id row) = Some row.
Proof.
  unfold find_run. induction rs as [|r rs IH]; cbn [app find].
  - now rewrite Z.eqb_refl.
  - destruct (run_id r =? run_id row)%Z; [discriminate | exact IH].
Qed.

(** C8, as the code has it.  A start request without an identifier, or
    with a falsy one, is answered 400 "Workflow ID is required"; one for a
    pipeline that does not exist is answered 404 "Workflow not found"; one
    for a pipeline without steps is answered 400 "Workflow has no payloads
    to execute"; none of the three writes a row, emits an event or launches
    an execution.  A request for a pipeline with at least one step inserts a
    run row of status "running" under a fresh identifier, launches the
    execution, and answers with that identifier and the status "running"
    before any step has been executed: when it answers, what has happened
    since the request is the insert of the run row, the progress event of
    the first step (with a broadcaster installed) and the request for the
    blocks of the first step, in this order, and nothing else; no model has
    been asked and no Result stored.  The execution in flight, resumed on
    the world of the answer, ends as [executeWorkflowAsync] does on the
    world behind the insert. *)
Theorem start_outcomes (workflowId : value) (s : world) :
  (truthy workflowId = false ->
     start workflowId s = (error_reply 400 "Workflow ID is required", s, None))
  /\ (truthy workflowId = true ->
      select_workflow workflowId = Return None ->
      start workflowId s = (error_reply 404 "Workflow not found", s, None))
  /\ (forall w : workflow,
        truthy workflowId = true ->
        select_workflow workflowId = Return (Some w) ->
        select_payloads workflowId = Return [] ->
        start workflowId s
        = (error_reply 400 "Workflow has no payloads to execute", s, None))
  /\ (forall (w : workflow) (p : payload) (ps : list payload),
        truthy workflowId = true ->
        select_workflow workflowId = Return (Some w) ->
        select_payloads workflowId = Return (p :: ps) ->
        exists (runId : Z) (row : run) (replied : world),
          let first :=
            execution_progress runId (id p) (name p)
              (progress_of 0 (List.length (p :: ps))) in
          start workflowId s
          = (mkReply 200 [("runId", Num runId);
                          ("message", Text "Workflow execution started");
                          ("status", Text "running")],
             replied,
             Some (mkTask workflowId runId (p :: ps)))
          /\ find_run (runs s) runId = None
          /\ run_id row = runId
          /\ workflow_id row = workflowId
          /\ status row = "running"
          /\ runs replied = (runs s ++ [row])%list
          /\ find_run (runs replied) runId = Some row
          /\ responses replied = responses s
          /\ journal replied = (journal s ++ [InsertRun runId])%list
          /\ events replied = (events s ++ shown broadcast [first])%list
          /\ log replied
             = (log s
                  ++ Wrote (InsertRun runId)
                  :: heard broadcast [Emitted first; Queried (id p)])%list
          /\ resume workflowId runId (p :: ps) replied
             = executeWorkflowAsync workflowId runId (p :: ps)
                 (mkWorld (runs s ++ [row])%list (responses s)
                    (journal s ++ [InsertRun runId])%list (events s)
                    (log s ++ [Wrote (InsertRun runId)])%list)).
Proof.
  unfold Coordinator.start.
  split; [|split; [|split]].
  - intros ->. reflexivity.
  - intros -> ->. reflexivity.
  - intros w -> -> ->. reflexivity.
  - intros w p ps -> -> ->. cbn [negb Nat.eqb].
    change (List.length (p :: ps) =? 0)%nat with false. cbv iota.
    match goal with
    | |- context [Coordinator.launch _ _ _ ?r _ ?w] =>
        exists r; match w with mkWorld (_ ++ [?row])%list _ _ _ _ => exists row end;
        exists (snd (launch r (p :: ps) w));
        rewrite <- (launch_resume workflowId r (p :: ps) w)
    end.
    unfold Coordinator.launch. rewrite announce_eq.
    cbn [snd runs responses journal events log run_id workflow_id status].
    rewrite <- app_assoc. cbn [app].
    repeat (split; [reflexivity|]).
    split; [apply next_run_id_fresh|].
    repeat (split; [reflexivity|]).
    split; [|repeat split].
    match goal with |- find_run (_ ++ [?row])%list _ = _ =>
      apply (find_run_appended (runs s) row)
    end.
    apply next_run_id_fresh.
Qed.

End Facts.

Import Examples.

#[warnings="-inexact-float"]
Lemma successful_run_event_sequence_witness :
  is_return
    (fst (run_steps true blocks_of no_model_info answering started_at ended_at
            Undefined rate 1 3 0 three_steps [] started)) = true
  /\ exists r1 r2 r3 : result,
       map result_payload_id [r1; r2; r3] = [1%Z; 2%Z; 3%Z]
       /\ events (executeWorkflowAsync true blocks_of no_model_info answering
                    started_at ended_at iso sql Undefined rate print
                    (Num 1) 1 three_steps started)
          = [execution_progress 1 1 "step1" 0%float;
             payload_completed 1 1 "step1" (result_content r1) (result_stats r1);
             execution_progress 1 2 "step2" 33.33333333333333%float;
             payload_completed 1 2 "step2" (result_content r2) (result_stats r2);
             execution_progress 1 3 "step3" 66.66666666666666%float;
             payload_completed 1 3 "step3" (result_content r3) (result_stats r3);
             workflow_completed 1]
       /\ firstn 6 (log (executeWorkflowAsync true blocks_of no_model_info answering
                           started_at ended_at iso sql Undefined rate print
                           (Num 1) 1 three_steps started))
          = [Wrote (InsertRun 1);
             Emitted (execution_progress 1 1 "step1" 0%float);
             Queried 1; Probed 1; Prompted 1;
             Wrote (InsertResponse 1 1)].
Proof.
  split; [reflexivity|].
  destruct (successful_run_event_sequence true blocks_of no_model_info answering
              started_at ended_at iso sql Undefined rate print
              (Num 1) 1 three_steps started eq_refl eq_refl)
    as (rows & H1 & _ & _ & _ & (closing & H5 & _) & H6).
  destruct (H6 (step 1 "step1") (step 2 "step2") (step 3 "step3") eq_refl)
    as (r1 & r2 & r3 & -> & Ev).
  exists r1, r2, r3. split; [exact H1|]. split; [exact Ev|].
  rewrite H5. reflexivity.
Defined.

Lemma failed_run_is_marked_and_announced_witness :
  let final := executeWorkflowAsync true blocks_of no_model_info down_at_second
                 started_at ended_at iso sql Undefined rate print
                 (Num 1) 1 three_steps started in
  (exists r' : run,
      find_run (runs final) 1 = Some r'
      /\ status r' = "failed"
      /\ option_map (fun fields => assoc fields "error") (run_metadata r')
         = Some (Text "Connection error to host.docker.internal:5001/v1/completions"))
  /\ announced_failures 1 (events final)
     = ["Connection error to host.docker.internal:5001/v1/completions"].
Proof.
  intros final.
  destruct (failed_run_is_marked_and_announced true blocks_of no_model_info
              down_at_second started_at ended_at iso sql Undefined rate print
              (Num 1) 1 three_steps started
              "Connection error to host.docker.internal:5001/v1/completions"
              (mkRun 1 (Num 1) "running" None
                 (Some [("workflow_name", Text "Research");
                        ("total_payloads", Num 3);
                        ("started_at", Text iso)]))
              [("workflow_name", Text "Research");
               ("total_payloads", Num 3);
               ("started_at", Text iso)]
              eq_refl eq_refl eq_refl eq_refl)
    as ((r' & H1 & H2 & H3 & H4) & _ & _ & H5).
  split.
  - exists r'. split; [exact H1|]. split; [exact H2|].
    rewrite H3. cbn [option_map]. now rewrite H4.
  - exact H5.
Defined.

#[warnings="-inexact-float"]
Lemma start_outcomes_witness :
  start true no_workflow (steps_of three_steps) iso sql Null empty_world
  = (error_reply 400 "Workflow ID is required", empty_world, None)
  /\ start true no_workflow (steps_of three_steps) iso sql (Num 1) empty_world
     = (error_reply 404 "Workflow not found", empty_world, None)
  /\ start true research (steps_of []) iso sql (Num 1) empty_world
     = (error_reply 400 "Workflow has no payloads to execute", empty_world, None)
  /\ exists (row : run) (replied : world),
       start true research (steps_of three_steps) iso sql (Num 1) empty_world
       = (mkReply 200 [("runId", Num 1);
                       ("message", Text "Workflow execution started");
                       ("status", Text "running")],
          replied,
          Some (mkTask (Num 1) 1 three_steps))
       /\ status row = "running"
       /\ runs replied = [row]
       /\ responses replied = []
       /\ events replied = [execution_progress 1 1 "step1" 0%float]
       /\ log replied
          = [Wrote (InsertRun 1);
             Emitted (execution_progress 1 1 "step1" 0%float);
             Queried 1].
Proof.
  pose proof (start_outcomes true no_workflow (steps_of three_steps)
                blocks_of no_model_info answering started_at ended_at iso sql
                Undefined rate print Null empty_world) as (H1 & _).
  pose proof (start_outcomes true no_workflow (steps_of three_steps)
                blocks_of no_model_info answering started_at ended_at iso sql
                Undefined rate print (Num 1) empty_world) as (_ & H2 & _).
  pose proof (start_outcomes true research (steps_of [])
                blocks_of no_model_info answering started_at ended_at iso sql
                Undefined rate print (Num 1) empty_world) as (_ & _ & H3 & _).
  pose proof (start_outcomes true research (steps_of three_steps)
                blocks_of no_model_info answering started_at ended_at iso sql
                Undefined rate print (Num 1) empty_world) as (_ & _ & _ & H4).
  split; [exact (H1 eq_refl)|]. split; [exact (H2 eq_refl eq_refl)|].
  split; [exact (H3 (mkWorkflow "Research") eq_refl eq_refl eq_refl)|].
  destruct (H4 (mkWorkflow "Research") (step 1 "step1")
              [step 2 "step2"; step 3 "step3"] eq_refl eq_refl eq_refl)
    as (runId & row & replied & E & _ & _ & _ & St & Rs & _ & Re & _ & Ev & Lg & _).
  assert (I : Some 1%Z = Some runId)
    by exact (f_equal (fun o => option_map task_run (snd o)) E).
  injection I as <-. exists row, replied.
  split; [exact E|]. split; [exact St|]. split; [exact Rs|].
  split; [exact Re|]. split; [exact Ev | exact Lg].
Defined.

(** C8 as stated fails: a start request for a pipeline that exists and has
    no step is answered with the status 400, a bad request, and not with
    the not-found status 404. *)
Lemma empty_pipeline_is_a_bad_request :
  let outcome := start true research (steps_of []) iso sql (Num 1) empty_world in
  code (fst (fst outcome)) = 400%Z
  /\ code (fst (fst outcome)) <> 404%Z
  /\ body (fst (fst outcome)) = [("error", Text "Workflow has no payloads to execute")]
  /\ snd (fst outcome) = empty_world.
Proof.
  cbn. repeat split. discriminate.
Qed.

(** C9 at the failing input.  A pipeline of one step whose backend answers
    [{"result": 42}]: the Result of the step is stored, then trimming the
    text throws, and the run is marked failed with as many Results as the
    pipeline has steps, not fewer. *)
Theorem failed_run_with_a_result_for_every_step :
  let final :=
    snd (start_and_run true research (steps_of one_step) blocks_of no_model_info
           answering_a_number started_at ended_at iso sql Undefined rate print
           (Num 1) empty_world) in
  option_map status (find_run (runs final) 1) = Some "failed"
  /\ map result_content (results_of 1 (responses final)) = [Num 42]
  /\ List.length (results_of 1 (responses final)) = List.length one_step
  /\ announced_failures 1 (events final) = ["processed.text.trim is not a function"]
  /\ journal final
     = [InsertRun 1; InsertResponse 1 1; UpdateRunStatus 1 "failed"].
Proof.
  cbn. repeat split.
Qed.

End CoordinatorFacts.

(** ** Output sanitization, continued *)

Module SanitizeFacts.

Import JsString JsStringFacts Js Gateway Sanitized.

(** *** More on strings *)

Lemma span_spec (p : ascii -> bool) (s a b : string) :
  span p s = (a, b) ->
  s = a ++ b /\ all_chars p a = true
  /\ (b = "" \/ exists d b', b = String d b' /\ p d = false).
Proof.
  revert a b. induction s as [|c t IH]; intros a b H; simpl in H.
  - injection H as <- <-. repeat split. now left.
  - destruct (p c) eqn:E.
    + destruct (span p t) as [a' b'] eqn:S. injection H as <- <-.
      destruct (IH a' b' eq_refl) as (H1 & H2 & H3).
      repeat split; simpl; [now rewrite <- H1 | now rewrite E, H2 | exact H3].
    + injection H as <- <-. repeat split. right. now exists c, t.
Qed.

Lemma all_chars_append (p : ascii -> bool) (a b : string) :
  all_chars p (a ++ b) = all_chars p a && all_chars p b.
Proof.
  induction a as [|c a IH]; simpl; [reflexivity|].
  now rewrite IH, andb_assoc.
Qed.

Lemma rev_append (a b : string) : rev (a ++ b) = rev b ++ rev a.
Proof.
  induction a as [|c a IH]; simpl.
  - now rewrite append_empty_r.
  - now rewrite IH, append_assoc.
Qed.

Lemma rev_involutive (s : string) : rev (rev s) = s.
Proof.
  induction s as [|c s IH]; simpl; [reflexivity|].
  now rewrite rev_append, IH.
Qed.

Lemma all_chars_rev (p : ascii -> bool) (s : string) :
  all_chars p (rev s) = all_chars p s.
Proof.
  induction s as [|c s IH]; simpl; [reflexivity|].
  rewrite all_chars_append, IH. simpl. rewrite andb_true_r. apply andb_comm.
Qed.

Lemma includes_cons (n : string) (c : ascii) (t : string) :
  includes n (String c t) = starts_with n (String c t) || includes n t.
Proof. reflexivity. Qed.

Lemma starts_with_extend (n a w : string) :
  starts_with n a = true -> starts_with n (a ++ w) = true.
Proof.
  unfold starts_with. revert a. induction n as [|x n IH]; intros a; [reflexivity|].
  destruct a as [|c a]; simpl; [discriminate|].
  destruct (x =? c)%char; [apply IH | discriminate].
Qed.

Lemma includes_extend (n a w : string) :
  includes n a = true -> includes n (a ++ w) = true.
Proof.
  induction a as [|c a IH]; intros H.
  - simpl in H. rewrite orb_false_r in H.
    pose proof (starts_with_extend n "" w H) as E.
    change ("" ++ w) with w in *.
    destruct w; simpl; now rewrite E.
  - rewrite includes_cons in H. change (String c a ++ w) with (String c (a ++ w)).
    rewrite includes_cons. apply orb_true_iff in H as [H | H].
    + change (String c (a ++ w)) with (String c a ++ w).
      now rewrite (starts_with_extend _ _ _ H).
    + rewrite (IH H). apply orb_true_r.
Qed.

Lemma includes_behind (n a t : string) :
  includes n t = true -> includes n (a ++ t) = true.
Proof.
  intros H. induction a as [|c a IH]; [exact H|].
  change (String c a ++ t) with (String c (a ++ t)).
  rewrite includes_cons, IH. apply orb_true_r.
Qed.

Lemma starts_with_shorter (p q s : string) :
  starts_with (p ++ q) s = true -> starts_with p s = true.
Proof.
  unfold starts_with. revert s. induction p as [|x p IH]; intros s; [reflexivity|].
  destruct s as [|c s]; simpl; [discriminate|].
  destruct (x =? c)%char; [apply IH | discriminate].
Qed.

Lemma includes_shorter (p q s : string) :
  includes (p ++ q) s = true -> includes p s = true.
Proof.
  induction s as [|c s IH]; intros H.
  - simpl in *. rewrite orb_false_r in *. exact (starts_with_shorter _ _ _ H).
  - rewrite includes_cons in *. apply orb_true_iff in H as [H | H].
    + now rewrite (starts_with_shorter _ _ _ H).
    + rewrite (IH H). apply orb_true_r.
Qed.

(** What [trimStart] leaves is what follows a stretch of white space. *)
Lemma trim_start_spec (s : string) :
  exists w, s = w ++ trim_start s /\ all_chars is_space w = true.
Proof.
  induction s as [|c s IH]; simpl.
  - now exists "".
  - destruct (is_space c) eqn:E.
    + destruct IH as (w & H1 & H2). exists (String c w). simpl.
      now rewrite <- H1, E, H2.
    + now exists "".
Qed.

Lemma trim_start_head (s : string) :
  trim_start s = "" \/ exists d x, trim_start s = String d x /\ is_space d = false.
Proof.
  induction s as [|c s IH]; simpl; [now left|].
  destruct (is_space c) eqn:E; [exact IH | right; now exists c, s].
Qed.

Lemma trim_end_spec (s : string) :
  exists w, s = trim_end s ++ w /\ all_chars is_space w = true.
Proof.
  unfold trim_end. destruct (trim_start_spec (rev s)) as (w & H1 & H2).
  exists (rev w). split.
  - rewrite <- (rev_involutive s) at 1. rewrite H1 at 1. apply rev_append.
  - now rewrite all_chars_rev.
Qed.

Lemma trim_start_snoc (a : string) (d : ascii) :
  is_space d = false ->
  trim_start (a ++ String d "") = trim_start a ++ String d "".
Proof.
  intros H. induction a as [|c a IH]; simpl.
  - now rewrite H.
  - destruct (is_space c); [exact IH | reflexivity].
Qed.

Lemma trim_end_cons (d : ascii) (x : string) :
  is_space d = false -> trim_end (String d x) = String d (trim_end x).
Proof.
  intros H. unfold trim_end. simpl rev at 2.
  rewrite trim_start_snoc by exact H. now rewrite rev_append.
Qed.

Lemma visible_space (c : ascii) :
  is_visible c = true -> is_space c = true -> c = " "%char.
Proof.
  destruct c as [[] [] [] [] [] [] [] []]; intros V S;
    try reflexivity; discriminate.
Qed.

Lemma printable_not_space_visible (c : ascii) :
  is_printable c = true -> is_space c = false -> is_visible c = true.
Proof.
  destruct c as [[] [] [] [] [] [] [] []]; intros V S;
    try reflexivity; discriminate.
Qed.

(** *** The replacements of the cleaning *)

Lemma not_space_char (c : ascii) : is_space c = false -> (" " =? c)%char = false.
Proof.
  destruct c as [[] [] [] [] [] [] [] []]; intros S; try reflexivity; discriminate.
Qed.

Lemma starts_with_space (n : string) (c : ascii) (y : string) :
  is_space c = false -> starts_with (String " " n) (String c y) = false.
Proof.
  intros S. unfold starts_with. cbn [strip_prefix].
  now rewrite (not_space_char c S).
Qed.

Lemma spaces_cases (c : ascii) (t : string) :
  (is_space c = false /\ spaces (String c t) = None)
  \/ (is_space c = true
      /\ exists a b, span is_space t = (a, b)
                     /\ spaces (String c t) = Some (S (String.length a), " ")).
Proof.
  unfold spaces. simpl. destruct (is_space c); [right | left; now split].
  split; [reflexivity|]. destruct (span is_space t) as [a b]. now exists a, b.
Qed.

Lemma unprintable_gone (s : string) :
  forall k, all_chars is_printable (replace_global unprintable k s) = true.
Proof.
  induction s as [|c t IH]; intros k; [reflexivity|].
  destruct k as [|k]; cbn [replace_global]; [|apply IH].
  unfold unprintable. destruct (is_printable c) eqn:E; simpl.
  - now rewrite E, IH.
  - apply IH.
Qed.

Lemma spaces_leave_visible (s : string) :
  all_chars is_printable s = true ->
  forall k, all_chars is_visible (replace_global spaces k s) = true.
Proof.
  induction s as [|c t IH]; intros H k; [reflexivity|].
  simpl in H. apply andb_prop in H as [Hc Ht].
  destruct k as [|k]; cbn [replace_global]; [|now apply IH].
  destruct (spaces_cases c t) as [[S E] | [S (a & b & _ & E)]]; rewrite E.
  - simpl. now rewrite (printable_not_space_visible c Hc S), IH.
  - simpl. now apply IH.
Qed.

Lemma spaces_leave_single (s : string) :
  forall k, includes "  " (replace_global spaces k s) = false.
Proof.
  induction s as [|c t IH]; intros k; [reflexivity|].
  destruct k as [|k]; cbn [replace_global]; [|apply IH].
  destruct (spaces_cases c t) as [[S E] | [S (a & b & Sp & E)]]; rewrite E.
  - rewrite includes_cons, IH, orb_false_r.
    now apply starts_with_space.
  - pose proof (IH (String.length a)) as I.
    destruct (span_spec _ _ _ _ Sp) as (-> & _ & [-> | (d & b' & -> & Sd)]).
    + rewrite replace_global_skip in *. reflexivity.
    + rewrite replace_global_skip in *. cbn [replace_global] in *.
      destruct (spaces_cases d b') as [[_ E'] | [S' _]]; [|congruence].
      rewrite E' in *.
      change (" " ++ String d (replace_global spaces 0 b'))
        with (String " " (String d (replace_global spaces 0 b'))).
      rewrite includes_cons, I, orb_false_r.
      unfold starts_with. cbn [strip_prefix]. rewrite Ascii.eqb_refl.
      now rewrite (not_space_char d Sd).
Qed.

Lemma trim_visible (s : string) :
  all_chars is_visible s = true -> all_chars is_visible (trim s) = true.
Proof.
  intros H. unfold trim.
  destruct (trim_start_spec s) as (w & E1 & _).
  destruct (trim_end_spec (trim_start s)) as (w' & E2 & _).
  rewrite E1, all_chars_append in H. apply andb_prop in H as [_ H].
  rewrite E2, all_chars_append in H. now apply andb_prop in H as [H _].
Qed.

Lemma trim_includes (n s : string) :
  includes n (trim s) = true -> includes n s = true.
Proof.
  intros H. unfold trim in H.
  destruct (trim_start_spec s) as (w & E1 & _).
  destruct (trim_end_spec (trim_start s)) as (w' & E2 & _).
  rewrite E1. apply includes_behind. rewrite E2. now apply includes_extend.
Qed.

Lemma trim_no_space_ahead (s : string) : starts_with " " (trim s) = false.
Proof.
  unfold trim. destruct (trim_start_head s) as [-> | (d & x & -> & S)];
    [reflexivity|].
  rewrite trim_end_cons by exact S.
  now apply starts_with_space.
Qed.

Lemma trim_no_space_behind (s : string) : starts_with " " (rev (trim s)) = false.
Proof.
  unfold trim, trim_end. rewrite rev_involutive.
  destruct (trim_start_head (rev (trim_start s))) as [-> | (d & x & -> & S)];
    [reflexivity|].
  now apply starts_with_space.
Qed.

(** What the four replacements and the trim leave is tidy. *)
Lemma scrub_tidy (text : string) : tidy (scrub text) = true.
Proof.
  unfold scrub, tidy.
  set (s3 := replace_global unprintable 0 _).
  assert (V : all_chars is_visible (replace_global spaces 0 s3) = true).
  { apply spaces_leave_visible. apply unprintable_gone. }
  rewrite (trim_visible _ V), trim_no_space_ahead, trim_no_space_behind.
  destruct (includes "  " (trim (replace_global spaces 0 s3))) eqn:I;
    [|reflexivity].
  apply trim_includes in I. now rewrite spaces_leave_single in I.
Qed.

(** *** Patterns replaced by a space *)

Lemma starts_with_cons (x : ascii) (p : string) (c : ascii) (s : string) :
  starts_with (String x p) (String c s) = (x =? c)%char && starts_with p s.
Proof.
  unfold starts_with. cbn [strip_prefix]. now destruct (x =? c)%char.
Qed.

Lemma starts_with_nil (x : ascii) (p : string) : starts_with (String x p) "" = false.
Proof. reflexivity. Qed.

Lemma strip_prefix_sound (p s t : string) : strip_prefix p s = Some t -> s = p ++ t.
Proof.
  revert s. induction p as [|x p IH]; intros s H; simpl in H.
  - now injection H as ->.
  - destruct s as [|c s]; [discriminate|].
    destruct (x =? c)%char eqn:E; [|discriminate].
    apply Ascii.eqb_eq in E as ->. simpl. now rewrite (IH _ H).
Qed.

Lemma strip_prefix_self (p t : string) : strip_prefix p (p ++ t) = Some t.
Proof.
  induction p as [|x p IH]; [reflexivity|].
  change (String x p ++ t) with (String x (p ++ t)). cbn [strip_prefix].
  now rewrite Ascii.eqb_refl.
Qed.

Lemma starts_with_self (p t : string) : starts_with p (p ++ t) = true.
Proof.
  induction p as [|x p IH]; [reflexivity|].
  change (String x p ++ t) with (String x (p ++ t)).
  now rewrite starts_with_cons, Ascii.eqb_refl, IH.
Qed.

Lemma includes_self (a p t : string) : includes p (a ++ p ++ t) = true.
Proof.
  apply includes_behind. destruct (p ++ t) eqn:E.
  - simpl. rewrite <- E, starts_with_self. reflexivity.
  - rewrite includes_cons, <- E, starts_with_self. reflexivity.
Qed.

(** A pattern free of spaces that shows at the head of the result showed at
    the head of the subject: a replacement brings no new match. *)
Lemma no_new_match m (p : string) :
  spacing m -> all_chars (fun c => negb (c =? " ")%char) p = true ->
  forall s, starts_with p (replace_global m 0 s) = true -> starts_with p s = true.
Proof.
  intros Hm. induction p as [|x p IH]; intros Hp s H; [reflexivity|].
  simpl in Hp. apply andb_prop in Hp as [Hx Hp].
  destruct s as [|c t]; [exact H|].
  cbn [replace_global] in H.
  destruct (Hm (String c t)) as [E | [k E]]; rewrite E in H.
  - rewrite starts_with_cons in *. apply andb_prop in H as [H1 H2].
    now rewrite H1, (IH Hp t H2).
  - change (" " ++ replace_global m k t)
      with (String " " (replace_global m k t)) in H.
    rewrite starts_with_cons in H. apply andb_prop in H as [H1 _].
    now rewrite H1 in Hx.
Qed.

(** Such a pattern, matched wherever it shows, is gone from the result. *)
Lemma pattern_gone m (x : ascii) (p : string) :
  spacing m -> all_chars (fun c => negb (c =? " ")%char) (String x p) = true ->
  (forall s, starts_with (String x p) s = true -> m s <> None) ->
  forall s k, includes (String x p) (replace_global m k s) = false.
Proof.
  intros Hm Hp Hc. induction s as [|c t IH]; intros k; [reflexivity|].
  destruct k as [|k]; [|apply IH].
  destruct (starts_with (String x p) (replace_global m 0 (String c t))) eqn:S.
  - apply (no_new_match m _ Hm Hp) in S. apply Hc in S.
    cbn [replace_global] in *.
    destruct (Hm (String c t)) as [E | [k E]]; [contradiction|].
    rewrite E.
    change (" " ++ replace_global m k t) with (String " " (replace_global m k t)).
    rewrite includes_cons, IH, orb_false_r, starts_with_cons.
    simpl in Hp. apply andb_prop in Hp as [Hx _].
    destruct (x =? " ")%char; [discriminate | reflexivity].
  - cbn [replace_global] in *.
    destruct (Hm (String c t)) as [E | [k E]]; rewrite E in *.
    + now rewrite includes_cons, S, IH.
    + change (" " ++ replace_global m k t)
        with (String " " (replace_global m k t)) in *.
      now rewrite includes_cons, S, IH.
Qed.

(** Such a pattern does not come to show in the result unless it showed in
    the subject. *)
Lemma no_new_occurrence m (x : ascii) (p : string) :
  spacing m -> all_chars (fun c => negb (c =? " ")%char) (String x p) = true ->
  forall s k,
    includes (String x p) (replace_global m k s) = true ->
    includes (String x p) s = true.
Proof.
  intros Hm Hp. induction s as [|c t IH]; intros k H; [exact H|].
  rewrite includes_cons.
  destruct k as [|k]; [|cbn [replace_global] in H; rewrite (IH k H); apply orb_true_r].
  destruct (starts_with (String x p) (replace_global m 0 (String c t))) eqn:S.
  - now rewrite (no_new_match m _ Hm Hp _ S).
  - cbn [replace_global] in *.
    destruct (Hm (String c t)) as [E | [k E]]; rewrite E in *.
    + rewrite includes_cons, S in H. rewrite (IH 0%nat H). apply orb_true_r.
    + change (" " ++ replace_global m k t)
        with (String " " (replace_global m k t)) in *.
      rewrite includes_cons, S in H. rewrite (IH k H). apply orb_true_r.
Qed.

Lemma bracketed_marker_spacing : spacing bracketed_marker.
Proof.
  intros s. unfold bracketed_marker.
  destruct (strip_prefix "[UNK_BYTE_" s) as [t|]; [|now left].
  destruct (span _ t) as [body rest].
  destruct (starts_with "]" rest); [right; eexists; reflexivity | now left].
Qed.

Lemma bare_marker_spacing : spacing bare_marker.
Proof.
  intros s. unfold bare_marker.
  destruct (strip_prefix "UNK_BYTE_" s) as [t|]; [|now left].
  destruct (span _ t) as [body rest]. right; eexists; reflexivity.
Qed.

Lemma unprintable_spacing : spacing unprintable.
Proof.
  intros [|c t]; [now left|]. unfold unprintable.
  destruct (is_printable c); [now left | right; eexists; reflexivity].
Qed.

Lemma spaces_spacing : spacing spaces.
Proof.
  intros [|c t]; [now left|].
  destruct (spaces_cases c t) as [[_ E] | [_ (a & b & _ & E)]]; rewrite E;
    [now left | right; eexists; reflexivity].
Qed.

Lemma bare_marker_complete (s : string) :
  starts_with "UNK_BYTE_" s = true -> bare_marker s <> None.
Proof.
  unfold starts_with, bare_marker.
  destruct (strip_prefix "UNK_BYTE_" s) as [t|]; [|discriminate].
  intros _. destruct (span _ t). discriminate.
Qed.

(** The marker with its underscore is gone from what the replacements and
    the trim leave. *)
Lemma scrub_without_marker (text : string) :
  includes "UNK_BYTE_" (scrub text) = false.
Proof.
  unfold scrub.
  destruct (includes "UNK_BYTE_" (trim _)) eqn:I; [|reflexivity].
  apply trim_includes in I.
  apply (no_new_occurrence spaces "U" "NK_BYTE_" spaces_spacing eq_refl) in I.
  apply (no_new_occurrence unprintable "U" "NK_BYTE_" unprintable_spacing eq_refl)
    in I.
  rewrite (pattern_gone bare_marker "U" "NK_BYTE_" bare_marker_spacing eq_refl
             bare_marker_complete) in I.
  discriminate.
Qed.

Lemma isCorrupted_false (text : string) :
  isCorrupted text = false -> includes "UNK_BYTE" text = false.
Proof.
  unfold isCorrupted. intros H.
  apply orb_false_iff in H as [H _]. now apply orb_false_iff in H as [_ H].
Qed.

Lemma clean_string_without_marker (text : string) :
  includes "UNK_BYTE_" (clean_string text) = false.
Proof.
  unfold clean_string. destruct (isCorrupted text) eqn:C; cbn [negb].
  - destruct (3 <? String.length (scrub text))%nat;
      [apply scrub_without_marker | reflexivity].
  - destruct (includes "UNK_BYTE_" text) eqn:I; [|reflexivity].
    apply (includes_shorter "UNK_BYTE" "_") in I.
    now rewrite (isCorrupted_false _ C) in I.
Qed.

(** *** Cleaning what is clean *)

Lemma all_chars_at p (a x : string) (y : ascii) (z : string) :
  all_chars p a = true -> a = x ++ String y z -> p y = true /\ all_chars p z = true.
Proof.
  intros H ->. rewrite all_chars_append in H. apply andb_prop in H as [_ H].
  simpl in H. now apply andb_prop in H.
Qed.

Lemma replace_global_nowhere m (a : string) :
  (forall x y z, a = x ++ String y z -> m (String y z) = None) ->
  replace_global m 0 a = a.
Proof.
  intros H. rewrite <- (append_empty_r a) at 1.
  rewrite replace_global_copy; [apply append_empty_r|].
  intros x y z E. rewrite append_empty_r. exact (H x y z E).
Qed.

(** A matcher that puts the matched text back changes nothing. *)
Lemma replace_global_self (Q : string -> Prop) m :
  self_replacing Q m -> (forall c t, Q (String c t) -> Q t) ->
  forall (n : nat) (s : string),
    (String.length s <= n)%nat -> Q s -> replace_global m 0 s = s.
Proof.
  intros Hm Hq. induction n as [|n IH]; intros [|c t] L Hs; try reflexivity.
  - simpl in L. lia.
  - destruct (m (String c t)) as [[len r]|] eqn:E.
    + destruct (Hm _ _ _ Hs E) as (c' & a & rest & Es & -> & -> & Hr).
      rewrite Es in E |- *.
      rewrite (replace_global_match m c' a rest _ E).
      rewrite (IH rest); [reflexivity | | exact Hr].
      apply (f_equal String.length) in Es. rewrite length_append in Es.
      simpl in *. lia.
    + cbn [replace_global]. rewrite E. f_equal.
      apply IH; [simpl in L; lia | exact (Hq _ _ Hs)].
Qed.

Lemma single_spaced_tail (c : ascii) (t : string) :
  single_spaced (String c t) -> single_spaced t.
Proof.
  intros [V I]. simpl in V. apply andb_prop in V as [_ V].
  rewrite includes_cons in I. apply orb_false_iff in I as [_ I]. now split.
Qed.

Lemma spaces_self_replacing : self_replacing single_spaced spaces.
Proof.
  intros [|c t] len r Q E; [discriminate|].
  destruct (spaces_cases c t) as [[_ E'] | [S (a & b & Sp & E')]];
    rewrite E' in E; [discriminate|]. injection E as <- <-.
  destruct Q as [V I]. pose proof (single_spaced_tail c t (conj V I)) as Qt.
  simpl in V. apply andb_prop in V as [Vc Vt].
  pose proof (visible_space c Vc S) as ->.
  destruct (span_spec _ _ _ _ Sp) as (-> & Ha & _).
  destruct a as [|d a].
  - exists " "%char, "", b.
    split; [reflexivity|]. split; [reflexivity|]. split; [reflexivity | exact Qt].
  - exfalso. simpl in Ha. apply andb_prop in Ha as [Sd _].
    simpl in Vt. apply andb_prop in Vt as [Vd _].
    pose proof (visible_space d Vd Sd) as ->.
    rewrite includes_cons in I. apply orb_false_iff in I as [I _].
    discriminate.
Qed.

Lemma trim_start_fixed (s : string) :
  all_chars is_visible s = true -> starts_with " " s = false -> trim_start s = s.
Proof.
  destruct s as [|c t]; [reflexivity|]. intros V S. simpl in *.
  apply andb_prop in V as [Vc _].
  destruct (is_space c) eqn:E; [|reflexivity].
  now rewrite (visible_space c Vc E) in S.
Qed.

Lemma visible_printable (s : string) :
  all_chars is_visible s = true -> all_chars is_printable s = true.
Proof.
  induction s as [|c t IH]; [reflexivity|]. simpl. intros H.
  apply andb_prop in H as [Hc Ht]. rewrite (IH Ht), andb_true_r.
  unfold is_printable. unfold is_visible in Hc. now rewrite Hc.
Qed.

(** Tidy text without the underscore marker goes through the replacements
    and the trim unchanged. *)
Lemma scrub_fixed (c : string) :
  tidy c = true -> includes "UNK_BYTE_" c = false -> scrub c = c.
Proof.
  unfold tidy. intros T M.
  apply andb_prop in T as [T D]. apply andb_prop in T as [T E].
  apply andb_prop in T as [V A].
  apply negb_true_iff in D, E, A.
  assert (N : forall p x y z t,
             c = x ++ String y z -> strip_prefix p (String y z) = Some t ->
             includes "UNK_BYTE_" (String y z) = true ->
             False).
  { intros p x y z t -> _ I. now rewrite (includes_behind _ x _ I) in M. }
  unfold scrub.
  rewrite (replace_global_nowhere bracketed_marker c).
  2:{ intros x y z Ec. unfold bracketed_marker.
      destruct (strip_prefix "[UNK_BYTE_" (String y z)) as [t|] eqn:S; [|reflexivity].
      exfalso. apply (N _ x y z t Ec S).
      rewrite (strip_prefix_sound _ _ _ S).
      apply (includes_self "[" "UNK_BYTE_" t). }
  rewrite (replace_global_nowhere bare_marker c).
  2:{ intros x y z Ec. unfold bare_marker.
      destruct (strip_prefix "UNK_BYTE_" (String y z)) as [t|] eqn:S; [|reflexivity].
      exfalso. apply (N _ x y z t Ec S).
      rewrite (strip_prefix_sound _ _ _ S).
      apply (includes_self "" "UNK_BYTE_" t). }
  rewrite (replace_global_nowhere unprintable c).
  2:{ intros x y z Ec. unfold unprintable.
      destruct (all_chars_at _ _ _ _ _ (visible_printable _ V) Ec) as [Hy _].
      now rewrite Hy. }
  rewrite (replace_global_self single_spaced spaces spaces_self_replacing
             single_spaced_tail (String.length c) c (le_n _) (conj V D)).
  unfold trim, trim_end.
  rewrite (trim_start_fixed c V A).
  rewrite (trim_start_fixed (rev c)); [apply rev_involutive | | exact E].
  now rewrite all_chars_rev.
Qed.

Lemma clean_string_idempotent (text : string) :
  clean_string (clean_string text) = clean_string text.
Proof.
  unfold clean_string at 2 3.
  destruct (isCorrupted text) eqn:C; cbn [negb].
  - destruct (3 <? String.length (scrub text))%nat eqn:L; [|reflexivity].
    unfold clean_string. destruct (isCorrupted (scrub text)); cbn [negb];
      [|reflexivity].
    rewrite (scrub_fixed (scrub text) (scrub_tidy text) (scrub_without_marker text)).
    now rewrite L.
  - unfold clean_string. now rewrite C.
Qed.

End SanitizeFacts.

Module SanitizeProperties.

Import JsString Js Gateway Sanitized.

(** X1.  On a string [cleanCorruptedText] never throws.  Text that is not
    flagged comes back as it is; flagged text comes back as the sentinel
    message or as text of more than three characters, all of the range
    [\x20-\x7E], with no space at either end and no two spaces in a row. *)
Theorem cleaned_text_is_tidy (text : string) :
  exists cleaned : string,
    cleanCorruptedText (Text text) = Return (Text cleaned)
    /\ ((isCorrupted text = false /\ cleaned = text)
        \/ (isCorrupted text = true
            /\ (cleaned = corrupted_message
                \/ (tidy cleaned = true /\ (3 < String.length cleaned)%nat)))).
Proof.
  destruct text as [|c t]; [exists ""; split; [reflexivity | now left]|].
  exists (clean_string (String c t)). split; [reflexivity|].
  unfold clean_string. destruct (isCorrupted (String c t)); cbn [negb].
  - right. split; [reflexivity|].
    destruct (3 <? String.length (scrub (String c t)))%nat eqn:L; [right | now left].
    split; [apply SanitizeFacts.scrub_tidy | now apply Nat.ltb_lt].
  - left. now split.
Qed.

(** X2.  Whatever the string, the text [cleanCorruptedText] returns does not
    contain the marker with its underscore, [UNK_BYTE_]. *)
Theorem underscore_marker_never_survives (text : string) :
  exists cleaned : string,
    cleanCorruptedText (Text text) = Return (Text cleaned)
    /\ includes "UNK_BYTE_" cleaned = false.
Proof.
  destruct text as [|c t]; [exists ""; split; reflexivity|].
  exists (clean_string (String c t)). split; [reflexivity|].
  apply SanitizeFacts.clean_string_without_marker.
Qed.

(** X3.  Cleaning is idempotent on strings: cleaning the text that
    [cleanCorruptedText] returned returns it again. *)
Theorem cleaning_is_idempotent (text : string) :
  bind (cleanCorruptedText (Text text)) cleanCorruptedText
  = cleanCorruptedText (Text text).
Proof.
  destruct text as [|c t]; [reflexivity|].
  change (cleanCorruptedText (Text (String c t)))
    with (@Return value (Text (clean_string (String c t)))).
  cbn [bind].
  destruct (clean_string (String c t)) as [|d u] eqn:E; [reflexivity|].
  change (cleanCorruptedText (Text (String d u)))
    with (@Return value (Text (clean_string (String d u)))).
  rewrite <- E, SanitizeFacts.clean_string_idempotent. reflexivity.
Qed.

End SanitizeProperties.

(** ** Prompt assembly *)

Module AssemblyFacts.

Import JsString JsStringFacts Js Context Coordinator Payloads.

Lemma match_variable_sound (s variable : string) :
  match_variable s = Some variable -> exists rest, s = token variable ++ rest.
Proof.
  unfold match_variable.
  destruct (strip_prefix "{{" s) as [t|] eqn:P; [|discriminate].
  destruct (span _ t) as [v r] eqn:S.
  destruct v as [|c v]; [discriminate|].
  unfold starts_with.
  destruct (strip_prefix "}}" r) as [r'|] eqn:R; [|discriminate].
  intros H. injection H as <-.
  apply SanitizeFacts.strip_prefix_sound in P, R.
  destruct (SanitizeFacts.span_spec _ _ _ _ S) as (-> & _ & _).
  exists r'. rewrite P, R. unfold token. now rewrite !append_assoc.
Qed.

(** With no response to resolve against, every match is put back. *)
Lemma empty_context_self_replacing (Meta : Type) :
  Sanitized.self_replacing (fun _ => True) (variable_matcher (@nil (response Meta))).
Proof.
  intros s len r _ H. unfold variable_matcher in H.
  destruct (match_variable s) as [v|] eqn:E; [|discriminate].
  injection H as <- <-.
  destruct (match_variable_sound _ _ E) as [rest ->].
  exists "{"%char, ("{" ++ v ++ "}}"), rest.
  split; [reflexivity|]. split; [|split; [reflexivity | exact I]].
  simpl. rewrite length_append. simpl. lia.
Qed.

Lemma substitute_tokens_empty (Meta : Type) (prompt : string) :
  substitute_tokens (@nil (response Meta)) prompt = prompt.
Proof.
  unfold substitute_tokens.
  apply (SanitizeFacts.replace_global_self (fun _ => True) _
           (empty_context_self_replacing Meta) (fun _ _ _ => I)
           (String.length prompt) prompt (le_n _) I).
Qed.

Lemma process_block_empty (b : block) : process_block [] b = b.
Proof.
  unfold process_block. destruct (tags b) as [t|]; [|reflexivity].
  destruct (negb (t =? "") && includes "response" t); [|reflexivity].
  destruct (match_payload_tag t); reflexivity.
Qed.

(** *** Decimal numerals *)

Lemma digits_of_uint (d : Decimal.uint) :
  all_chars is_digit (DecimalString.NilEmpty.string_of_uint d) = true.
Proof.
  induction d; simpl; try reflexivity; exact IHd.
Qed.

Lemma string_of_Z_digits (n : Z) :
  (0 <= n)%Z ->
  all_chars is_digit (string_of_Z n) = true /\ string_of_Z n <> ""
  /\ parseInt (string_of_Z n) = n.
Proof.
  intros H. destruct n as [|p|p]; [repeat split; discriminate | | lia].
  unfold string_of_Z, parseInt. cbn [Z.to_int DecimalString.NilZero.string_of_int].
  pose proof (DecimalPos.Unsigned.to_uint_nonnil p) as N.
  rewrite (DecimalString.NilZero.usu _ N).
  repeat split.
  - unfold DecimalString.NilZero.string_of_uint.
    destruct (Pos.to_uint p); try reflexivity; apply digits_of_uint.
  - unfold DecimalString.NilZero.string_of_uint.
    destruct (Pos.to_uint p); discriminate.
  - unfold Z.of_uint. now rewrite DecimalPos.Unsigned.of_to.
Qed.

Lemma span_all (p : ascii -> bool) (s : string) :
  all_chars p s = true -> span p s = (s, "").
Proof.
  induction s as [|c t IH]; [reflexivity|]. simpl. intros H.
  apply andb_prop in H as [Hc Ht]. now rewrite Hc, (IH Ht).
Qed.

Lemma match_payload_tag_skip (c : ascii) (s : string) :
  payload_tag (String c s) = None ->
  match_payload_tag (String c s) = match_payload_tag s.
Proof.
  intros H. cbn [match_payload_tag]. now rewrite H.
Qed.

Lemma payload_tag_digits (d : string) :
  all_chars is_digit d = true -> d <> "" ->
  match_payload_tag ("payload_" ++ d) = Some d.
Proof.
  intros D N.
  assert (E : payload_tag ("payload_" ++ d) = Some d).
  { unfold payload_tag. rewrite SanitizeFacts.strip_prefix_self, (span_all _ _ D).
    destruct d; [contradiction | reflexivity]. }
  change ("payload_" ++ d) with (String "p" ("ayload_" ++ d)) in *.
  cbn [match_payload_tag]. now rewrite E.
Qed.

Lemma match_payload_tag_written (payloadId : Z) :
  (0 <= payloadId)%Z ->
  match_payload_tag (response_block_tags payloadId) = Some (string_of_Z payloadId).
Proof.
  intros H. destruct (string_of_Z_digits payloadId H) as (D & N & _).
  unfold response_block_tags.
  change ("response,payload_" ++ string_of_Z payloadId)
    with (String "r" (String "e" (String "s" (String "p" (String "o"
            (String "n" (String "s" (String "e" (String ","
               ("payload_" ++ string_of_Z payloadId)))))))))).
  do 9 (rewrite match_payload_tag_skip by reflexivity).
  now apply payload_tag_digits.
Qed.

Lemma includes_response_written (payloadId : Z) :
  includes "response" (response_block_tags payloadId) = true.
Proof.
  apply (SanitizeFacts.includes_self "" "response").
Qed.

End AssemblyFacts.

Module AssemblyProperties.

Import JsString Js Context Coordinator Payloads.

(** X11.  Under the empty context, that is at the first step of every run,
    [replaceVariables] returns any prompt as it is, tokens included, and
    the assembled prompt is the contents of the step's blocks joined by
    blank lines. *)
Theorem first_prompt_is_the_joined_blocks :
  (forall (Meta : Type) (prompt : string),
      replaceVariables prompt (@nil (response Meta)) = prompt)
  /\ (forall blocks : list block,
        assemble blocks [] = join (nl ++ nl) (map block_content blocks)).
Proof.
  assert (R : forall (Meta : Type) (prompt : string),
             replaceVariables prompt (@nil (response Meta)) = prompt).
  { intros Meta prompt.
    rewrite ContextFacts.replaceVariables_cases,
      AssemblyFacts.substitute_tokens_empty, String.eqb_refl.
    reflexivity. }
  split; [exact R|].
  intros blocks. unfold assemble. rewrite R. do 2 f_equal.
  induction blocks as [|b blocks IH]; [reflexivity|].
  cbn [map]. now rewrite AssemblyFacts.process_block_empty, IH.
Qed.

(** X12.  The tags written for the response block of a payload are read back to
    that payload: during assembly the block takes the content of the
    earliest response of the payload in the context, and keeps its own
    (empty) content when the payload has not answered yet. *)
Theorem response_block_takes_the_answer (blockId payloadId : Z) (name : string)
    (context : list entry) :
  (0 <= payloadId)%Z ->
  process_block context (response_block blockId payloadId name)
  = match find (fun r => (Context.payloadId r =? payloadId)%Z) context with
    | Some sourceResponse =>
        mkBlock blockId (name ++ " - response")
          (Some (Context.content sourceResponse))
          (Some (response_block_tags payloadId))
    | None => response_block blockId payloadId name
    end.
Proof.
  intros H. unfold process_block, response_block. cbn [tags block_id title].
  rewrite AssemblyFacts.includes_response_written,
    (AssemblyFacts.match_payload_tag_written _ H).
  destruct (AssemblyFacts.string_of_Z_digits _ H) as (_ & _ & ->).
  unfold response_block_tags at 1.
  destruct ("response,payload_" ++ string_of_Z payloadId =? "")%string eqn:E;
    [|reflexivity].
  apply String.eqb_eq in E. discriminate.
Qed.

Lemma response_block_takes_the_answer_witness :
  (0 <= 7)%Z
  /\ process_block
       [Context.mkResponse 7%Z "draft" "First answer"
          (mkStats (Gateway.mkMetadata (Num 0) (Num 0) (Num 0) (Text "stop") None)
             1%Z (Num 0) Null)]
       (response_block 12 7 "draft")
     = mkBlock 12 "draft - response" (Some "First answer")
         (Some "response,payload_7").
Proof.
  split; [lia|].
  rewrite (response_block_takes_the_answer 12 7 "draft" _ ltac:(lia)).
  reflexivity.
Defined.

End AssemblyProperties.

(** ** The fallback chain *)

Module FallbackFacts.

Import Js Gateway Fallback.

Section Facts.

Variable transport : list effect -> request -> Result value.

Lemma refused_app (history a b : list effect) :
  refused transport history a -> refused transport (history ++ a) b ->
  refused transport history (a ++ b).
Proof.
  revert history. induction a as [|e a IH]; intros history Ha Hb; cbn in *.
  - now rewrite app_nil_r in Hb.
  - destruct Ha as [He Ha]. split; [exact He|].
    apply IH; [exact Ha|]. now rewrite <- app_assoc.
Qed.

Lemma makeRequest_short_circuits port path shape prompt merged given timeout :
  short_circuits transport
    (makeRequest transport port path shape prompt merged given timeout).
Proof.
  intros s. unfold makeRequest. cbn [fst snd llmInstances effects].
  split; [reflexivity|].
  match goal with |- context [transport ?h ?r] =>
    exists [Sent r]; split; [reflexivity|];
    destruct (transport h r) as [v|m] eqn:E
  end.
  - eexists [], _. split; [reflexivity|]. split; [exact I|].
    rewrite app_nil_r. exact E.
  - cbn. now rewrite E.
Qed.

Lemma tryCatch_short_circuits (x : M value) (handler : string -> M value) :
  short_circuits transport x ->
  (forall m, short_circuits transport (handler m)) ->
  short_circuits transport (Eff.tryCatch x handler).
Proof.
  intros Hx Hh s. unfold Eff.tryCatch.
  destruct (Hx s) as (I1 & made1 & E1 & R1).
  destruct (x s) as [[v|m] s1]; cbn [fst snd] in *.
  - split; [exact I1|]. exists made1. now split.
  - destruct (Hh m s1) as (I2 & made2 & E2 & R2).
    split; [now rewrite I2|]. exists (made1 ++ made2)%list.
    split; [now rewrite E2, E1, app_assoc|].
    rewrite E1 in R2.
    destruct (fst (handler m s1)) as [v|m'].
    + destruct R2 as (before & r & -> & B & T).
      exists (made1 ++ before)%list, r. rewrite <- !app_assoc. repeat split.
      * now apply refused_app.
      * now rewrite <- app_assoc in T.
    + now apply refused_app.
Qed.

Lemma chat_chain_short_circuits port formattedPrompt mergedConfig given modelFormat :
  short_circuits transport
    (chat_chain transport port formattedPrompt mergedConfig given modelFormat).
Proof.
  assert (D : short_circuits transport
                (default_chain transport port formattedPrompt mergedConfig given)).
  { apply tryCatch_short_circuits; [|intros _]; apply makeRequest_short_circuits. }
  assert (C : short_circuits transport
                (command_r_chain transport port formattedPrompt mergedConfig given
                   modelFormat)).
  { unfold command_r_chain. destruct (strict_eq modelFormat (Text "command-r"));
      [|exact D].
    apply tryCatch_short_circuits; [|intros _; exact D].
    apply tryCatch_short_circuits; [apply makeRequest_short_circuits | intros _].
    apply tryCatch_short_circuits; [|intros _]; apply makeRequest_short_circuits. }
  unfold chat_chain. destruct (strict_eq modelFormat (Text "mistral")); [|exact C].
  apply tryCatch_short_circuits; [apply makeRequest_short_circuits | intros _; exact C].
Qed.

(** An effect that is no request, ahead of a computation. *)
Lemma perform_short_circuits (e : effect) (x : M value) :
  match e with Sent _ => False | _ => True end ->
  short_circuits transport x ->
  short_circuits transport (Eff.andThen (perform e) (fun _ => x)).
Proof.
  intros He Hx s. unfold Eff.andThen, perform.
  destruct (Hx (mkService (llmInstances s) (effects s ++ [e])%list))
    as (Hi & made & E & R).
  cbn [llmInstances effects] in *.
  split; [exact Hi|]. exists (e :: made). split.
  - now rewrite E, <- app_assoc.
  - destruct (fst (x _)) as [v|m].
    + destruct R as (before & r & -> & B & T).
      exists (e :: before), r. repeat split.
      * destruct e; [contradiction | exact I | exact I].
      * exact B.
      * now rewrite <- app_assoc in T.
    + cbn. split; [now destruct e | exact R].
Qed.

Lemma raise_short_circuits (message : string) :
  short_circuits transport (Eff.raise message).
Proof.
  intros s. cbn. split; [reflexivity|]. exists []. now rewrite app_nil_r.
Qed.

Lemma attempt_once_short_circuits port formattedPrompt mergedConfig given
    modelFormat (attempt : Z) :
  short_circuits transport
    (attempt_once transport port formattedPrompt mergedConfig given modelFormat
       attempt).
Proof.
  unfold attempt_once. destruct (0 <? attempt)%Z.
  - apply perform_short_circuits; [exact I | apply chat_chain_short_circuits].
  - intros s. apply chat_chain_short_circuits.
Qed.

Lemma retry_loop_short_circuits port formattedPrompt mergedConfig given modelFormat
    (maxRetries : value) (turns : nat) :
  forall (attempt : Z) (lastError : option string),
    short_circuits transport
      (retry_loop transport port formattedPrompt mergedConfig given modelFormat
         maxRetries turns attempt lastError).
Proof.
  induction turns as [|turns IH]; intros attempt lastError; cbn [retry_loop].
  - apply raise_short_circuits.
  - apply tryCatch_short_circuits; [apply attempt_once_short_circuits|].
    intros m. apply perform_short_circuits; [exact I|].
    destruct (strict_eq (Num attempt) maxRetries);
      [apply raise_short_circuits | apply IH].
Qed.

(** *** The order of the endpoints *)

Hypothesis transport_fails :
  forall history r, exists message, transport history r = Throw message.

Lemma requests_app (a b : list effect) :
  requests (a ++ b) = (requests a ++ requests b)%list.
Proof.
  unfold requests. apply flat_map_app.
Qed.

Lemma makeRequest_fails_along port path shape prompt merged given timeout :
  fails_along [path]
    (makeRequest transport port path shape prompt merged given timeout).
Proof.
  intros s. unfold makeRequest.
  match goal with |- context [transport ?h ?r] =>
    destruct (transport_fails h r) as [message E]; rewrite E;
    exists message, [Sent r]
  end.
  split; [reflexivity|]. split; [reflexivity | split; reflexivity].
Qed.

Lemma tryCatch_fails_along (a b : list string) (x : M value)
    (handler : string -> M value) :
  fails_along a x -> (forall m, fails_along b (handler m)) ->
  fails_along (a ++ b) (Eff.tryCatch x handler).
Proof.
  intros Hx Hh s. unfold Eff.tryCatch.
  destruct (Hx s) as (m & sent & E & P & O). rewrite E.
  destruct (Hh m (mkService (llmInstances s) (effects s ++ sent)%list))
    as (m' & sent' & E' & P' & O').
  rewrite E'. exists m', (sent ++ sent')%list. cbn [llmInstances effects].
  split; [now rewrite app_assoc|]. split.
  - now rewrite requests_app, P, P'.
  - now apply GatewayFacts.only_requests_app.
Qed.

Lemma chat_chain_fails_along port formattedPrompt mergedConfig given modelFormat :
  fails_along (chain_paths modelFormat)
    (chat_chain transport port formattedPrompt mergedConfig given modelFormat).
Proof.
  assert (D : fails_along ["/api/v1/generate"; "/v1/completions"]
                (default_chain transport port formattedPrompt mergedConfig given)).
  { apply (tryCatch_fails_along ["/api/v1/generate"] ["/v1/completions"]);
      [|intros _]; apply makeRequest_fails_along. }
  unfold chain_paths, chat_chain, command_r_chain.
  destruct (strict_eq modelFormat (Text "mistral")).
  - apply tryCatch_fails_along; [apply makeRequest_fails_along | intros _].
    destruct (strict_eq modelFormat (Text "command-r")); [|exact D].
    apply tryCatch_fails_along; [|intros _; exact D].
    apply (tryCatch_fails_along ["/api/v1/generate"] ["/v1/generate"; "/generate"]);
      [apply makeRequest_fails_along | intros _].
    apply (tryCatch_fails_along ["/v1/generate"] ["/generate"]);
      [|intros _]; apply makeRequest_fails_along.
  - cbn [app].
    destruct (strict_eq modelFormat (Text "command-r")); [|exact D].
    apply tryCatch_fails_along; [|intros _; exact D].
    apply (tryCatch_fails_along ["/api/v1/generate"] ["/v1/generate"; "/generate"]);
      [apply makeRequest_fails_along | intros _].
    apply (tryCatch_fails_along ["/v1/generate"] ["/generate"]);
      [|intros _]; apply makeRequest_fails_along.
Qed.

Lemma retry_loop_requests port formattedPrompt mergedConfig given modelFormat
    (n : Z) (turns : nat) :
  forall (attempt : Z) (lastError : option string) (s : service),
    (attempt + Z.of_nat turns = n + 1)%Z ->
    requests
      (effects
         (snd (retry_loop transport port formattedPrompt mergedConfig given
                 modelFormat (Num n) turns attempt lastError s)))
    = (requests (effects s)
         ++ List.concat (repeat (chain_paths modelFormat) turns))%list.
Proof.
  induction turns as [|turns IH]; intros attempt lastError s Hn; cbn [retry_loop].
  - cbn. now rewrite app_nil_r.
  - unfold Eff.tryCatch at 1.
    assert (A : exists message sent,
               attempt_once transport port formattedPrompt mergedConfig given
                 modelFormat attempt s
               = (Throw message,
                  mkService (llmInstances s) (effects s ++ sent)%list)
               /\ requests sent = chain_paths modelFormat).
    { unfold attempt_once, Eff.andThen. destruct (0 <? attempt)%Z.
      - unfold perform at 1.
        destruct (chat_chain_fails_along port formattedPrompt mergedConfig given
                    modelFormat
                    (mkService (llmInstances s) (effects s ++ [Waited retryDelayMs])%list))
          as (m & sent & E & P & _).
        rewrite E. exists m, (Waited retryDelayMs :: sent). cbn [llmInstances effects].
        split; [now rewrite <- app_assoc | exact P].
      - unfold Eff.ret at 1.
        destruct (chat_chain_fails_along port formattedPrompt mergedConfig given
                    modelFormat s) as (m & sent & E & P & _).
        rewrite E. now exists m, sent. }
    destruct A as (m & sent & E & P). rewrite E.
    unfold Eff.andThen, perform. cbn [llmInstances effects strict_eq].
    destruct (attempt =? n)%Z eqn:Q.
    + apply Z.eqb_eq in Q. assert (turns = 0%nat) as -> by lia.
      cbn. rewrite !requests_app, P. cbn. now rewrite !app_nil_r.
    + rewrite IH by lia. cbn [effects].
      rewrite !requests_app, P. cbn. now rewrite app_nil_r, <- app_assoc.
Qed.

End Facts.

End FallbackFacts.

Module FallbackProperties.

Import Js Gateway Fallback Examples.

Lemma find_set_instance (l : list (Z * instance)) (p : Z) (i : instance) :
  find_instance (set_instance l p i) p = Some i.
Proof.
  induction l as [|[q j] l IH]; cbn.
  - now rewrite Z.eqb_refl.
  - destruct (q =? p)%Z eqn:E; cbn; now rewrite E.
Qed.

Lemma find_set_instance_other (l : list (Z * instance)) (p q : Z) (i : instance) :
  q <> p -> find_instance (set_instance l p i) q = find_instance l q.
Proof.
  intros N. induction l as [|[r j] l IH]; cbn.
  - destruct (p =? q)%Z eqn:E; [apply Z.eqb_eq in E; congruence | reflexivity].
  - destruct (r =? p)%Z eqn:E; cbn.
    + apply Z.eqb_eq in E as ->.
      destruct (p =? q)%Z eqn:E'; [apply Z.eqb_eq in E'; congruence | reflexivity].
    + destruct (r =? q)%Z; [reflexivity | exact IH].
Qed.

Lemma ports_set_instance (l : list (Z * instance)) (p : Z) (i j : instance) :
  find_instance l p = Some j -> map fst (set_instance l p i) = map fst l.
Proof.
  induction l as [|[q k] l IH]; cbn; [discriminate|].
  destruct (q =? p)%Z; cbn; [reflexivity|]. intros H. now rewrite (IH H).
Qed.

(** X8.  [sendPrompt] returns nothing but the answer to the last request it
    sent, every request before that one having failed, and nothing is sent
    behind an answer; it throws only when every request it sent has
    failed.  This holds for every backend and every configuration, on a
    registered port. *)
Theorem first_success_is_returned
    (transport : list effect -> request -> Result value) (now : string)
    (port : Z) (prompt : string) (given : config) (s : service) (inst : instance) :
  find_instance (llmInstances s) port = Some inst ->
  let outcome := sendPrompt transport now port prompt given s in
  exists made : list effect,
    effects (snd outcome) = (effects s ++ made)%list
    /\ match fst outcome with
       | Return v =>
           exists (before : list effect) (r : request),
             made = (before ++ [Sent r])%list
             /\ refused transport (effects s) before
             /\ transport (effects s ++ before)%list r = Return v
       | Throw _ => refused transport (effects s) made
       end.
Proof.
  intros H outcome. subst outcome. unfold sendPrompt. rewrite H.
  match goal with |- context [retry_loop _ ?p ?f ?m ?g ?mf ?mr ?t ?a ?l ?st] =>
    destruct (FallbackFacts.retry_loop_short_circuits transport p f m g mf mr t a l st)
      as (_ & made & E & R)
  end.
  exists made. split; [exact E | exact R].
Qed.

Lemma first_success_is_returned_witness :
  let outcome := sendPrompt completions_only iso 5001 "Hello" [] one_instance in
  find_instance (llmInstances one_instance) 5001
  = Some (mkInstance "local" "unknown" None [("max_length", Num 1000)])
  /\ fst outcome = Return (Obj [("choices", Arr [Obj [("text", Text "Done.")]])])
  /\ requests (effects (snd outcome)) = ["/api/v1/generate"; "/v1/completions"]
  /\ exists made : list effect,
       effects (snd outcome) = (effects one_instance ++ made)%list
       /\ exists (before : list effect) (r : request),
            made = (before ++ [Sent r])%list
            /\ refused completions_only (effects one_instance) before.
Proof.
  intros outcome. split; [reflexivity|]. split; [reflexivity|].
  split; [reflexivity|].
  destruct (first_success_is_returned completions_only iso 5001 "Hello" []
              one_instance _ eq_refl) as (made & E & R).
  exists made. split; [exact E|].
  change (fst (sendPrompt completions_only iso 5001 "Hello" [] one_instance))
    with (@Return value (Obj [("choices", Arr [Obj [("text", Text "Done.")]])]))
    in R.
  destruct R as (before & r & M & B & _). now exists before, r.
Defined.

(** X9.  With every candidate failing, a registered port and a retry count [n]
    in force, the requests [sendPrompt] sends are [n + 1] times the chain
    of its model format: the chat endpoint first for "mistral"; the Kobold,
    the Cohere-style and the plain generate endpoints first for
    "command-r"; and for every format the Kobold endpoint, then the
    OpenAI-compatible completions endpoint. *)
Theorem failing_chain_order
    (transport : list effect -> request -> Result value) (now : string)
    (port : Z) (prompt : string) (given : config) (s : service) (inst : instance)
    (n : Z) :
  (forall history r, exists message, transport history r = Throw message) ->
  find_instance (llmInstances s) port = Some inst ->
  or_else (assoc given "retries") (Num 2) = Num n -> (0 <= n)%Z ->
  requests (effects (snd (sendPrompt transport now port prompt given s)))
  = (requests (effects s)
       ++ List.concat
            (repeat (chain_paths (or_else (assoc given "model_format") (Text "default")))
               (Z.to_nat (n + 1))))%list.
Proof.
  intros F H R N. unfold sendPrompt. rewrite H, R.
  unfold turns_of. cbn [to_number].
  rewrite (FallbackFacts.retry_loop_requests transport F) with (n := n) by lia.
  reflexivity.
Qed.

Lemma failing_chain_order_witness :
  requests
    (effects
       (snd (sendPrompt refusing iso 5001 "Hello"
               [("model_format", Text "command-r"); ("retries", Num 1)]
               one_instance)))
  = ["/api/v1/generate"; "/v1/generate"; "/generate";
     "/api/v1/generate"; "/v1/completions";
     "/api/v1/generate"; "/v1/generate"; "/generate";
     "/api/v1/generate"; "/v1/completions"].
Proof.
  rewrite (failing_chain_order refusing iso 5001 "Hello"
             [("model_format", Text "command-r"); ("retries", Num 1)]
             one_instance
             (mkInstance "local" "unknown" None [("max_length", Num 1000)]) 1
             (fun _ r => ex_intro _ ("Connection error to " ++ path r) eq_refl)
             eq_refl eq_refl ltac:(lia)).
  reflexivity.
Defined.

(** X10.  On a port that is not registered [sendPrompt] throws at once and
    leaves the service as it was: nothing is sent.  On a registered port it
    stamps the instance of that port with the time of use and leaves all
    else in the registry as it was, whatever the backend does. *)
Theorem sendPrompt_touches_only_its_instance
    (transport : list effect -> request -> Result value) (now : string)
    (port : Z) (prompt : string) (given : config) (s : service) :
  (find_instance (llmInstances s) port = None ->
   sendPrompt transport now port prompt given s
   = (Throw ("No LLM instance registered on port " ++ string_of_Z port), s))
  /\ (forall inst : instance,
        find_instance (llmInstances s) port = Some inst ->
        let after := llmInstances (snd (sendPrompt transport now port prompt given s)) in
        find_instance after port
        = Some (mkInstance (name inst) (status inst) (Some now) (instance_config inst))
        /\ (forall q : Z, q <> port ->
              find_instance after q = find_instance (llmInstances s) q)
        /\ map fst after = map fst (llmInstances s)).
Proof.
  split.
  - intros H. unfold sendPrompt. now rewrite H.
  - intros inst H after. subst after. unfold sendPrompt. rewrite H.
    match goal with |- context [retry_loop _ ?p ?f ?m ?g ?mf ?mr ?t ?a ?l ?st] =>
      destruct (FallbackFacts.retry_loop_short_circuits transport p f m g mf mr t a l st)
        as (E & _)
    end.
    rewrite E. cbn [llmInstances]. split; [apply find_set_instance|]. split.
    + intros q Q. now apply find_set_instance_other.
    + exact (ports_set_instance _ _ _ _ H).
Qed.

Lemma sendPrompt_touches_only_its_instance_witness :
  let after := llmInstances
                 (snd (sendPrompt refusing iso 5001 "Hello" [] two_instances)) in
  sendPrompt refusing iso 6000 "Hello" [] two_instances
  = (Throw "No LLM instance registered on port 6000", two_instances)
  /\ find_instance after 5001
     = Some (mkInstance "small" "unknown" (Some iso) [("max_length", Num 1000)])
  /\ find_instance after 5002 = find_instance (llmInstances two_instances) 5002.
Proof.
  intros after.
  destruct (sendPrompt_touches_only_its_instance refusing iso 6000 "Hello" []
              two_instances) as [U _].
  destruct (sendPrompt_touches_only_its_instance refusing iso 5001 "Hello" []
              two_instances) as [_ R].
  destruct (R _ eq_refl) as (R1 & R2 & _).
  split; [exact (U eq_refl)|]. split; [exact R1|].
  apply R2. discriminate.
Defined.

(** The retry lemma of the gateway at a backend that refuses every
    connection: three turns, two pauses, the last error raised. *)
Lemma sendPrompt_exhausts_witness :
  exists (message : string) (made : list effect) (s' : service),
    sendPrompt refusing iso 5001 "Hello" [] one_instance = (Throw message, s')
    /\ attempts_failed (effects s') = 3%nat
    /\ pauses (effects s') = [2000%Z; 2000%Z].
Proof.
  destruct (GatewayFacts.sendPrompt_exhausts refusing
              (fun _ r => ex_intro _ ("Connection error to " ++ path r) eq_refl)
              iso 5001 "Hello" [] one_instance
              (mkInstance "local" "unknown" None [("max_length", Num 1000)]) 2
              eq_refl eq_refl ltac:(lia))
    as (message & made & s' & E & F & A & P).
  exists message, made, s'. split; [exact E|].
  rewrite F. cbn [effects one_instance app]. split; [exact A | exact P].
Defined.

End FallbackProperties.

(** ** Response normalization and prompt formatting, continued *)

Module NormalizationProperties.

Import JsString Js Gateway Shapes.

(** X4.  A response of none of the five shapes is refused: what is not a
    non-null object with "Invalid LLM response format", an object that
    passes none of the shape tests with "Unsupported LLM response format".
    No text and no metadata are made up for it. *)
Theorem unrecognized_response_is_refused (response : value) :
  recognized response = false ->
  processResponse response
  = Throw (if truthy response && is_object response
           then "Unsupported LLM response format"
           else "Invalid LLM response format").
Proof.
  unfold recognized. intros H.
  destruct (truthy response && is_object response) eqn:O.
  - apply andb_prop in O as [T O]. cbn [andb] in H.
    apply orb_false_iff in H as [H H4]. apply orb_false_iff in H as [H H3].
    apply orb_false_iff in H as [H1 H2].
    now apply GatewayFacts.processResponse_unsupported.
  - now apply GatewayFacts.processResponse_invalid.
Qed.

Lemma unrecognized_response_is_refused_witness :
  processResponse (Obj [("output", Text "Done.")])
  = Throw "Unsupported LLM response format"
  /\ processResponse (Text "Done.") = Throw "Invalid LLM response format".
Proof.
  split.
  - apply (unrecognized_response_is_refused (Obj [("output", Text "Done.")])).
    reflexivity.
  - apply (unrecognized_response_is_refused (Text "Done.")). reflexivity.
Defined.

(** X5.  The metadata of a normalized response, field by field.  The response
    has one of the five shapes; the prompt count, the completion count and
    the finish reason are what the backend gave at the place of that shape
    when that is truthy, and otherwise [0], [0] and "unknown"; so is the
    total, by [0], outside the Kobold shape, where it is the sum of the two
    counts as given, whatever that is; and the response type names the
    shape. *)
Theorem normalized_fields_are_given_or_default (response : value) (p : processed) :
  processResponse response = Return p ->
  exists sh : shape,
    shape_of response = Some sh
    /\ promptTokens (meta p)
       = (if truthy (given_prompt_tokens sh response)
          then given_prompt_tokens sh response else Num 0)
    /\ completionTokens (meta p)
       = (if truthy (given_completion_tokens sh response)
          then given_completion_tokens sh response else Num 0)
    /\ finishReason (meta p)
       = (if truthy (given_finish_reason sh response)
          then given_finish_reason sh response else Text "unknown")
    /\ tokens (meta p)
       = match sh with
         | Kobold => given_total sh response
         | _ => if truthy (given_total sh response)
                then given_total sh response else Num 0
         end
    /\ responseType (meta p) = response_type sh.
Proof.
  unfold processResponse, shape_of.
  destruct (truthy response) eqn:T; [|discriminate].
  destruct (is_object response) eqn:O; [|discriminate].
  cbn [negb orb andb].
  assert (N : nullish response = false) by (now destruct response).
  destruct (truthy (prop response "results")
            && truthy (prop (prop response "results") "0")) eqn:E1.
  { intros H. apply GatewayFacts.bind_Return in H as (t & _ & H).
    injection H as <-. exists Kobold.
    apply andb_prop in E1 as [_ E1].
    assert (N1 : nullish (prop (prop response "results") "0") = false)
      by (now destruct (prop (prop response "results") "0")).
    unfold given_total, given_prompt_tokens, given_completion_tokens,
      given_finish_reason, counts_holder, opt_get.
    rewrite N1. cbn [meta promptTokens completionTokens finishReason tokens
                     responseType response_type].
    repeat split. }
  destruct (truthy (prop response "generations")
            && gt0 (prop (prop response "generations") "length")).
  { intros H. apply GatewayFacts.bind_Return in H as (t & G & H).
    apply GatewayFacts.bind_Return in H as (t' & _ & H).
    apply GatewayFacts.bind_Return in H as (r & R & H). injection H as <-.
    exists CommandR.
    unfold get in R.
    destruct (nullish (prop (prop response "generations") "0")); [discriminate|].
    injection R as <-.
    cbn [meta promptTokens completionTokens finishReason tokens
         responseType response_type].
    repeat split. }
  destruct (truthy (prop response "choices")
            && truthy (prop (prop response "choices") "0")) eqn:E3.
  { cbn [andb].
    destruct (truthy (prop (prop (prop response "choices") "0") "message")).
    - intros H. apply GatewayFacts.bind_Return in H as (t & _ & H).
      injection H as <-. exists Chat. repeat split.
    - intros H. apply GatewayFacts.bind_Return in H as (t & _ & H).
      injection H as <-. exists Completion. repeat split. }
  cbn [andb].
  destruct (truthy (prop response "result")); [|discriminate].
  intros H. injection H as <-. exists Direct.
  unfold given_total, given_prompt_tokens, given_completion_tokens,
    given_finish_reason, counts_holder, opt_get.
  rewrite N. repeat split.
Qed.

Lemma normalized_fields_are_given_or_default_witness :
  exists p : processed,
    processResponse
      (Obj [("choices", Arr [Obj [("message", Obj [("content", Text "Done.")])]]);
            ("usage", Obj [("completion_tokens", Num 7)])])
    = Return p
    /\ promptTokens (meta p) = Num 0
    /\ completionTokens (meta p) = Num 7
    /\ finishReason (meta p) = Text "unknown"
    /\ tokens (meta p) = Num 0
    /\ responseType (meta p) = Some "chat".
Proof.
  eexists. split; [reflexivity|].
  destruct (normalized_fields_are_given_or_default
              (Obj [("choices", Arr [Obj [("message", Obj [("content", Text "Done.")])]]);
                    ("usage", Obj [("completion_tokens", Num 7)])])
              _ eq_refl) as (sh & S & H1 & H2 & H3 & H4 & H5).
  injection S as <-.
  split; [exact H1|]. split; [exact H2|]. split; [exact H3|].
  split; [exact H4 | exact H5].
Defined.

Lemma processResponse_defaults_witness :
  let p := mkProcessed (Text "Done.")
             (mkMetadata (Num 0) (Num 0) (Num 7) (Text "unknown") (Some "chat")) in
  processResponse
    (Obj [("choices", Arr [Obj [("message", Obj [("content", Text "Done.")])]]);
          ("usage", Obj [("completion_tokens", Num 7)])])
  = Return p
  /\ defaulted (promptTokens (meta p)) (Num 0)
  /\ defaulted (completionTokens (meta p)) (Num 0)
  /\ defaulted (finishReason (meta p)) (Text "unknown").
Proof.
  intros p. split; [reflexivity|].
  destruct (GatewayFacts.processResponse_defaults
              (Obj [("choices", Arr [Obj [("message", Obj [("content", Text "Done.")])]]);
                    ("usage", Obj [("completion_tokens", Num 7)])])
              p eq_refl) as (H1 & H2 & H3 & _).
  split; [exact H1|]. split; [exact H2 | exact H3].
Defined.

(** X6.  The formatted prompt always contains the prompt as it was given, and
    is the prompt itself for every model format other than "llama" and
    "llama_chat", unknown formats included. *)
Theorem formatted_prompt_contains_the_prompt (prompt : string) (modelFormat : value) :
  includes prompt (formatPromptForModel prompt modelFormat) = true
  /\ (strict_eq modelFormat (Text "llama") = false ->
      strict_eq modelFormat (Text "llama_chat") = false ->
      formatPromptForModel prompt modelFormat = prompt).
Proof.
  assert (S : includes prompt prompt = true).
  { pose proof (SanitizeFacts.includes_self "" prompt "") as H.
    cbn [append] in H. now rewrite JsStringFacts.append_empty_r in H. }
  unfold formatPromptForModel.
  destruct (strict_eq modelFormat (Text "mistral")); [now split|].
  destruct (strict_eq modelFormat (Text "llama")).
  { split; [apply SanitizeFacts.includes_self | discriminate]. }
  destruct (strict_eq modelFormat (Text "llama_chat")).
  { split; [|discriminate].
    apply (SanitizeFacts.includes_self
             ("<s>[INST] <<SYS>>" ++ nl ++ "You are a helpful assistant."
                ++ nl ++ "<</SYS>>" ++ nl ++ nl) prompt " [/INST]"). }
  destruct (strict_eq modelFormat (Text "command-r")); now split.
Qed.

Lemma formatted_prompt_contains_the_prompt_witness :
  formatPromptForModel "Hello" (Text "vicuna") = "Hello"
  /\ includes "Hello" (formatPromptForModel "Hello" (Text "llama")) = true.
Proof.
  split.
  - apply (proj2 (formatted_prompt_contains_the_prompt "Hello" (Text "vicuna")));
      reflexivity.
  - apply (proj1 (formatted_prompt_contains_the_prompt "Hello" (Text "llama"))).
Defined.

End NormalizationProperties.

(** ** The run coordinator, continued *)

Module RunFacts.

Import Js Coordinator Frame.

Section Facts.

Variable select_blocks : nat -> Z -> Result (list block).
Variable getModelInfo : nat -> value -> Result value.
Variable sendPrompt : nat -> value -> string -> Gateway.config -> Result value.
Variables startTime endTime : nat -> Z.
Variables isoNow sqlNow : string.
Variable default_temperature : value.
Variable round_rate : value -> Z -> value.
Variable stringify : value -> string.

Local Abbreviation run_step b :=
  (run_step b select_blocks getModelInfo sendPrompt startTime endTime
     default_temperature round_rate).
Local Abbreviation run_steps b :=
  (run_steps b select_blocks getModelInfo sendPrompt startTime endTime
     default_temperature round_rate).
Local Abbreviation executeWorkflowAsync b :=
  (executeWorkflowAsync b select_blocks getModelInfo sendPrompt
     startTime endTime isoNow sqlNow default_temperature round_rate stringify).

(** What a step returns, and what it adds to the world, depends neither on
    the world nor on the broadcaster. *)
Lemma run_step_shape (runId : Z) (n i : nat) (p : payload) (context : list entry) :
  exists (res : Result (list entry)) (rows : list result) (evs : list event)
         (acts : list action),
    forall (b : bool) (s : world),
      run_step b runId n i p context s = (res, grown runId rows evs acts b s).
Proof.
  unfold Coordinator.run_step, Coordinator.announce, Coordinator.work, grown.
  unfold Eff.andThen, Eff.lift, Eff.ret, insert_response, note, emit, heard, shown.
  cbv beta iota zeta.
  destruct (select_blocks i (id p)) as [blocks|m].
  2:{ eexists _, [], [_], [Emitted _; Queried _].
      intros [] s;
        cbn [fst snd runs responses journal events log filter inserts map app];
        rewrite ?app_nil_r, <- ?app_assoc; reflexivity. }
  destruct (sendPrompt _ _ _ _) as [llmResponse|m].
  2:{ eexists _, [], [_], [Emitted _; Queried _; Probed _; Prompted _].
      intros [] s;
        cbn [fst snd runs responses journal events log filter inserts map app];
        rewrite ?app_nil_r, <- ?app_assoc; reflexivity. }
  destruct (Gateway.processResponse llmResponse) as [processed|m].
  2:{ eexists _, [], [_], [Emitted _; Queried _; Probed _; Prompted _].
      intros [] s;
        cbn [fst snd runs responses journal events log filter inserts map app];
        rewrite ?app_nil_r, <- ?app_assoc; reflexivity. }
  destruct (trim_text (Gateway.text processed)) as [content|m].
  - eexists _, [mkResult _ _ _ _ _], [_; _],
      [Emitted _; Queried _; Probed _; Prompted _; Wrote _; Emitted _].
    intros [] s;
      cbn [fst snd runs responses journal events log filter inserts map app
           result_run_id result_payload_id];
      rewrite ?app_nil_r, <- ?app_assoc; reflexivity.
  - eexists _, [mkResult _ _ _ _ _], [_],
      [Emitted _; Queried _; Probed _; Prompted _; Wrote _].
    intros [] s;
      cbn [fst snd runs responses journal events log filter inserts map app
           result_run_id result_payload_id];
      rewrite ?app_nil_r, <- ?app_assoc; reflexivity.
Qed.

Lemma grown_grown (runId : Z) (rows rows' : list result) (evs evs' : list event)
    (acts acts' : list action) (b : bool) (s : world) :
  grown runId rows' evs' acts' b (grown runId rows evs acts b s)
  = grown runId (rows ++ rows') (evs ++ evs') (acts ++ acts') b s.
Proof.
  unfold grown, inserts. cbn [runs responses journal events log].
  now rewrite map_app, CoordinatorFacts.shown_app, CoordinatorFacts.heard_app,
    <- !app_assoc.
Qed.

Lemma grown_nil (runId : Z) (b : bool) (s : world) : grown runId [] [] [] b s = s.
Proof.
  unfold grown, shown, heard, inserts. destruct b, s; cbn; now rewrite !app_nil_r.
Qed.

Lemma run_steps_shape (runId : Z) (n : nat) (rest : list payload) :
  forall (i : nat) (context : list entry),
  exists (res : Result (list entry)) (rows : list result) (evs : list event)
         (acts : list action),
    forall (b : bool) (s : world),
      run_steps b runId n i rest context s = (res, grown runId rows evs acts b s).
Proof.
  induction rest as [|p rest IH]; intros i context.
  - exists (Return context), [], [], []. intros b s. now rewrite grown_nil.
  - destruct (run_step_shape runId n i p context) as (res & rows & evs & acts & E).
    destruct res as [context'|m].
    + destruct (IH (S i) context') as (res' & rows' & evs' & acts' & E').
      exists res', (rows ++ rows')%list, (evs ++ evs')%list, (acts ++ acts')%list.
      intros b s. cbn [Coordinator.run_steps]. unfold Eff.andThen.
      now rewrite E, E', grown_grown.
    + exists (Throw m), rows, evs, acts. intros b s.
      cbn [Coordinator.run_steps]. unfold Eff.andThen. now rewrite E.
Qed.

(** A step does the same to every world, under every broadcaster. *)
Lemma run_steps_related (runId : Z) (n : nat) (rest : list payload) :
  forall (i : nat) (context : list entry) (b b' : bool) (s s' : world),
    fst (run_steps b runId n i rest context s)
    = fst (run_steps b' runId n i rest context s')
    /\ exists rows evs acts,
         snd (run_steps b runId n i rest context s) = grown runId rows evs acts b s
         /\ snd (run_steps b' runId n i rest context s')
            = grown runId rows evs acts b' s'.
Proof.
  intros i context b b' s s'.
  destruct (run_steps_shape runId n rest i context) as (res & rows & evs & acts & E).
  rewrite !E. split; [reflexivity|]. now exists rows, evs, acts.
Qed.

Lemma update_run_compose (f g : run -> run) (runId : Z) (rs : list run) :
  (forall r, run_id (f r) = run_id r) ->
  update_run g runId (update_run f runId rs)
  = update_run (fun r => g (f r)) runId rs.
Proof.
  intros Hf. unfold update_run. rewrite map_map. apply map_ext. intros r.
  destruct (run_id r =? runId)%Z eqn:E; [now rewrite Hf, E | now rewrite E].
Qed.

(** A run does the same to every world, under every broadcaster: it
    appends the same Results, journals the same writes, applies the same
    terminal update to its row and gives out the same events. *)
Lemma execute_related (workflowId : value) (runId : Z) (payloads : list payload)
    (b b' : bool) (s s' : world) :
  exists (g : run -> run) (st : string) (rows : list result)
         (tail : list write) (evs : list event) (acts : list action),
    terminal_update sqlNow st g
    /\ (st = "completed" \/ st = "failed")
    /\ (st = "completed"
        <-> is_return
              (fst (run_steps b runId (List.length payloads) 0 payloads [] s)) = true)
    /\ status_updates runId tail = [st]
    /\ executeWorkflowAsync b workflowId runId payloads s
       = extended runId g rows tail evs acts b s
    /\ executeWorkflowAsync b' workflowId runId payloads s'
       = extended runId g rows tail evs acts b' s'.
Proof.
  unfold Coordinator.executeWorkflowAsync, Eff.tryCatch, Eff.andThen.
  destruct (run_steps_shape runId (List.length payloads) payloads 0 [])
    as (res & rows & evs & acts & E).
  rewrite !E. cbn [fst snd].
  destruct res as [context|m].
  - unfold mark_completed, record_models, modify_run, Eff.ret.
    cbv beta iota zeta.
    match goal with |- context [(0 <? ?n)%nat] => destruct (0 <? n)%nat end;
      rewrite !CoordinatorFacts.emit_eq; unfold grown, extended;
      cbn [snd runs responses journal events log].
    + rewrite !update_run_compose by reflexivity.
      match goal with |- context [update_run ?f runId (runs s)] =>
        exists f, "completed", rows,
          [UpdateRunStatus runId "completed"; UpdateRunMetadata runId "models"],
          (evs ++ [workflow_completed runId])%list,
          (acts ++ [Wrote (UpdateRunStatus runId "completed");
                    Wrote (UpdateRunMetadata runId "models");
                    Emitted (workflow_completed runId)])%list
      end.
      split; [intros r; cbn; do 4 (split; [reflexivity|]); intros ->; reflexivity|].
      split; [now left|]. split; [split; reflexivity|].
      split; [cbn; now rewrite Z.eqb_refl|].
      rewrite !CoordinatorFacts.shown_app, !CoordinatorFacts.heard_app, <- !app_assoc.
      split; reflexivity.
    + match goal with |- context [update_run ?f runId (runs s)] =>
        exists f, "completed", rows, [UpdateRunStatus runId "completed"],
          (evs ++ [workflow_completed runId])%list,
          (acts ++ [Wrote (UpdateRunStatus runId "completed");
                    Emitted (workflow_completed runId)])%list
      end.
      split; [intros r; cbn; do 4 (split; [reflexivity|]); intros ->; reflexivity|].
      split; [now left|]. split; [split; reflexivity|].
      split; [cbn; now rewrite Z.eqb_refl|].
      rewrite !CoordinatorFacts.shown_app, !CoordinatorFacts.heard_app, <- !app_assoc.
      split; reflexivity.
  - unfold mark_failed, modify_run. cbv beta iota zeta.
    rewrite !CoordinatorFacts.emit_eq. unfold grown, extended.
    cbn [snd runs responses journal events log].
    match goal with |- context [update_run ?f runId (runs s)] =>
      exists f, "failed", rows, [UpdateRunStatus runId "failed"],
        (evs ++ [workflow_failed runId m])%list,
        (acts ++ [Wrote (UpdateRunStatus runId "failed");
                  Emitted (workflow_failed runId m)])%list
    end.
    split; [intros r; cbn; do 4 (split; [reflexivity|]); intros ->; reflexivity|].
    split; [now right|]. split; [split; discriminate|].
    split; [cbn; now rewrite Z.eqb_refl|].
    rewrite !CoordinatorFacts.shown_app, !CoordinatorFacts.heard_app, <- !app_assoc.
    split; reflexivity.
Qed.

Lemma other_runs_update (g : run -> run) (runId : Z) (rs : list run) :
  (forall r, run_id (g r) = run_id r) ->
  other_runs runId (update_run g runId rs) = other_runs runId rs.
Proof.
  intros Hg. unfold other_runs, update_run.
  induction rs as [|r rs IH]; [reflexivity|]. cbn [map filter].
  destruct (run_id r =? runId)%Z eqn:E.
  - rewrite Hg, E. exact IH.
  - rewrite E. cbn [negb]. now rewrite IH.
Qed.

Lemma run_ids_update (g : run -> run) (runId : Z) (rs : list run) :
  (forall r, run_id (g r) = run_id r) ->
  map run_id (update_run g runId rs) = map run_id rs.
Proof.
  intros Hg. unfold update_run. rewrite map_map. apply map_ext. intros r.
  destruct (run_id r =? runId)%Z; [apply Hg | reflexivity].
Qed.



(** The Results a run adds are its own. *)
Lemma execute_rows (workflowId : value) (runId : Z) (payloads : list payload)
    (b : bool) (s : world) :
  exists rows : list result,
    responses (executeWorkflowAsync b workflowId runId payloads s)
    = (responses s ++ rows)%list
    /\ of_run runId rows.
Proof.
  destruct (run_steps b runId (List.length payloads) 0 payloads [] s)
    as [[context|m] s1] eqn:E.
  - destruct (CoordinatorFacts.execute_after_return b select_blocks getModelInfo
                sendPrompt startTime endTime isoNow sqlNow default_temperature
                round_rate stringify workflowId runId payloads context s s1 E)
      as (F1 & _).
    apply CoordinatorFacts.run_steps_returns in E as (rows & H1 & _ & H3 & _).
    exists rows. rewrite F1. now split.
  - pose proof (CoordinatorFacts.execute_after_throw b select_blocks getModelInfo
                  sendPrompt startTime endTime isoNow sqlNow default_temperature
                  round_rate stringify workflowId runId payloads m s s1 E) as F.
    apply CoordinatorFacts.run_steps_throws in E
      as (done & p & pending & rows & _ & H1 & _ & H3 & _).
    exists rows. rewrite F. cbn [responses]. now split.
Qed.

Lemma results_of_app (runId : Z) (a b : list result) :
  results_of runId (a ++ b) = (results_of runId a ++ results_of runId b)%list.
Proof.
  apply filter_app.
Qed.

Lemma results_of_other (runId other : Z) (rows : list result) :
  of_run runId rows -> other <> runId -> results_of other rows = [].
Proof.
  intros F N. induction F as [|r rows R _ IH]; [reflexivity|].
  cbn. rewrite R. destruct (Z.eqb_spec runId other) as [E|_]; [now subst|exact IH].
Qed.

Lemma results_of_own (runId : Z) (rows : list result) :
  of_run runId rows -> results_of runId rows = rows.
Proof.
  intros F. induction F as [|r rows R _ IH]; [reflexivity|].
  cbn. rewrite R, Z.eqb_refl. now f_equal.
Qed.

(** Rows of other identifiers are not updated. *)
Lemma update_run_absent (g : run -> run) (runId : Z) (rs : list run) :
  (forall r, In r rs -> run_id r <> runId) ->
  update_run g runId rs = rs.
Proof.
  intros A. unfold update_run. rewrite <- (map_id rs) at 2.
  apply map_ext_in. intros r I.
  destruct (Z.eqb_spec (run_id r) runId) as [E|_]; [now apply A in I|reflexivity].
Qed.

Lemma next_run_id_absent (rs : list run) (r : run) :
  In r rs -> run_id r <> next_run_id rs.
Proof.
  intros I. apply CoordinatorFacts.max_run_id_bound in I.
  unfold next_run_id. lia.
Qed.

End Facts.

End RunFacts.

(* ------------------------------------------------------------------ *)
(** ** Properties of a run as a whole *)

Module RunProperties.

Import Js Coordinator Frame Examples.

Section Properties.

Variable select_workflow : value -> Result (option workflow).
Variable select_payloads : value -> Result (list payload).
Variable select_blocks : nat -> Z -> Result (list block).
Variable getModelInfo : nat -> value -> Result value.
Variable sendPrompt : nat -> value -> string -> Gateway.config -> Result value.
Variables startTime endTime : nat -> Z.
Variables isoNow sqlNow : string.
Variable default_temperature : value.
Variable round_rate : value -> Z -> value.
Variable stringify : value -> string.

Local Abbreviation run_steps b :=
  (run_steps b select_blocks getModelInfo sendPrompt startTime endTime
     default_temperature round_rate).
Local Abbreviation executeWorkflowAsync b :=
  (executeWorkflowAsync b select_blocks getModelInfo sendPrompt
     startTime endTime isoNow sqlNow default_temperature round_rate stringify).
Local Abbreviation start b := (start b select_workflow select_payloads isoNow sqlNow).
Local Abbreviation start_and_run b :=
  (start_and_run b select_workflow select_payloads select_blocks getModelInfo
     sendPrompt startTime endTime isoNow sqlNow default_temperature round_rate
     stringify).
Local Abbreviation related :=
  (RunFacts.execute_related select_blocks getModelInfo sendPrompt startTime endTime
     isoNow sqlNow default_temperature round_rate stringify).

(** X14.  The broadcaster only listens.  A run writes the same run rows, the same
    Results and the same journal whether a broadcast function is installed
    or not, and without one it gives out no event. *)
Theorem broadcaster_does_not_change_the_store (workflowId : value) (runId : Z)
    (payloads : list payload) (s : world) :
  let heard := executeWorkflowAsync true workflowId runId payloads s in
  let unheard := executeWorkflowAsync false workflowId runId payloads s in
  runs unheard = runs heard
  /\ responses unheard = responses heard
  /\ journal unheard = journal heard
  /\ events unheard = events s.
Proof.
  destruct (related workflowId runId payloads false true s s)
    as (g & st & rows & tail & evs & acts & _ & _ & _ & _ & E & E').
  cbv zeta. rewrite E, E'. unfold extended. cbn.
  now rewrite app_nil_r.
Qed.

(** X15.  A run touches its own row only.  The run rows of other identifiers are
    left as they were, no run row is added or removed, and the Results of
    every other run are the ones stored before. *)
Theorem other_runs_are_untouched (workflowId : value) (runId : Z)
    (payloads : list payload) (b : bool) (s : world) :
  let final := executeWorkflowAsync b workflowId runId payloads s in
  other_runs runId (runs final) = other_runs runId (runs s)
  /\ map run_id (runs final) = map run_id (runs s)
  /\ forall other : Z,
       other <> runId ->
       results_of other (responses final) = results_of other (responses s).
Proof.
  intros final.
  destruct (related workflowId runId payloads b b s s)
    as (g & st & rows & tail & evs & acts & G & _ & _ & _ & E & _).
  destruct (RunFacts.execute_rows select_blocks getModelInfo sendPrompt startTime
              endTime isoNow sqlNow default_temperature round_rate stringify
              workflowId runId payloads b s) as (rows' & R & O).
  fold final in E, R.
  assert (K : forall r, run_id (g r) = run_id r) by (intros r; apply G).
  split; [|split].
  - rewrite E. cbn [extended runs]. now apply RunFacts.other_runs_update.
  - rewrite E. cbn [extended runs]. now apply RunFacts.run_ids_update.
  - intros other N.
    rewrite R, RunFacts.results_of_app, (RunFacts.results_of_other runId other rows' O N).
    apply app_nil_r.
Qed.

(** X16.  Every run of a stored run row ends in a terminal state.  The row is then
    "completed" or "failed", it is "completed" exactly when every step
    returned, its completion time is set, and it still belongs to the same
    workflow. *)
Theorem run_ends_completed_or_failed (workflowId : value) (runId : Z)
    (payloads : list payload) (b : bool) (s : world) (r : run) :
  find_run (runs s) runId = Some r ->
  let final := executeWorkflowAsync b workflowId runId payloads s in
  exists r' : run,
    find_run (runs final) runId = Some r'
    /\ run_id r' = run_id r
    /\ workflow_id r' = workflow_id r
    /\ (status r' = "completed" \/ status r' = "failed")
    /\ (status r' = "completed"
        <-> is_return
              (fst (run_steps b runId (List.length payloads) 0 payloads [] s)) = true)
    /\ completed_at r' = Some sqlNow.
Proof.
  intros F final.
  destruct (related workflowId runId payloads b b s s)
    as (g & st & rows & tail & evs & acts & G & T & I & _ & E & _).
  fold final in E.
  assert (K : forall x, run_id (g x) = run_id x) by (intros x; apply G).
  exists (g r).
  destruct (G r) as (G1 & G2 & G3 & G4 & _).
  rewrite E. cbn [extended runs].
  rewrite (CoordinatorFacts.find_run_update g runId (runs s) K), F, G3.
  repeat split; try assumption; apply I.
Qed.


(** X18.  A start request that is not accepted writes nothing.  The reply code is
    200, 400, 404 or 500; an execution is launched exactly with the code
    200; with any other code the store is left as it was; and a launched
    execution has a fresh run identifier and the payloads the query gave,
    at least one. *)
Theorem rejected_start_leaves_the_store_alone (workflowId : value) (b : bool)
    (s : world) :
  let outcome := start b workflowId s in
  let answer := fst (fst outcome) in
  (code answer = 200 \/ code answer = 400 \/ code answer = 404 \/ code answer = 500)%Z
  /\ (code answer = 200%Z <-> snd outcome <> None)
  /\ (code answer <> 200%Z -> snd (fst outcome) = s)
  /\ (forall t : task,
        snd outcome = Some t ->
        task_workflow t = workflowId
        /\ task_run t = next_run_id (runs s)
        /\ find_run (runs s) (task_run t) = None
        /\ select_payloads workflowId = Return (task_payloads t)
        /\ task_payloads t <> []).
Proof.
  assert (R : forall (c : Z) (message : string),
             (c = 400 \/ c = 404 \/ c = 500)%Z ->
             let outcome := (error_reply c message, s, @None task) in
             let answer := fst (fst outcome) in
             (code answer = 200 \/ code answer = 400 \/ code answer = 404
              \/ code answer = 500)%Z
             /\ (code answer = 200%Z <-> snd outcome <> None)
             /\ (code answer <> 200%Z -> snd (fst outcome) = s)
             /\ (forall t : task,
                   snd outcome = Some t ->
                   task_workflow t = workflowId
                   /\ task_run t = next_run_id (runs s)
                   /\ find_run (runs s) (task_run t) = None
                   /\ select_payloads workflowId = Return (task_payloads t)
                   /\ task_payloads t <> [])).
  { intros c message C. cbn.
    split; [now right|].
    split; [split; [lia|intros N; now contradiction N]|].
    split; [reflexivity|discriminate]. }
  unfold Coordinator.start.
  destruct (negb (truthy workflowId)); [apply R; lia|].
  destruct (select_workflow workflowId) as [[w|]|m]; [|apply R; lia|apply R; lia].
  destruct (select_payloads workflowId) as [payloads|m]; [|apply R; lia].
  destruct payloads as [|p ps]; [apply R; lia|].
  cbn [List.length Nat.eqb fst snd code].
  split; [now left|]. split; [split; [discriminate|reflexivity]|].
  split; [intros N; now contradiction N|].
  intros t H. injection H as <-.
  cbn [task_workflow task_run task_payloads].
  split; [reflexivity|]. split; [reflexivity|].
  split; [apply CoordinatorFacts.next_run_id_fresh|].
  split; [reflexivity|discriminate].
Qed.

(** X19.  A start request and its run, together.  When the request is accepted,
    the run rows at the end are the earlier ones, unchanged, followed by one
    row for the new run; that row names the workflow, is "completed" or
    "failed" and has its completion time set; and the Results added are
    those of the new run. *)
Theorem accepted_start_adds_one_finished_run (workflowId : value) (b : bool)
    (s : world) :
  let outcome := start_and_run b workflowId s in
  code (fst outcome) = 200%Z ->
  exists (row : run) (rows : list result),
    runs (snd outcome) = (runs s ++ [row])%list
    /\ run_id row = next_run_id (runs s)
    /\ workflow_id row = workflowId
    /\ (status row = "completed" \/ status row = "failed")
    /\ completed_at row = Some sqlNow
    /\ responses (snd outcome) = (responses s ++ rows)%list
    /\ of_run (run_id row) rows.
Proof.
  unfold Coordinator.start_and_run, Coordinator.start.
  destruct (negb (truthy workflowId)); [discriminate|].
  destruct (select_workflow workflowId) as [[w|]|m]; [|discriminate|discriminate].
  destruct (select_payloads workflowId) as [payloads|m]; [|discriminate].
  destruct payloads as [|p ps]; [discriminate|].
  cbn [List.length Nat.eqb fst snd task_workflow task_run task_payloads].
  intros _.
  set (runId := next_run_id (runs s)).
  set (row := mkRun runId workflowId "running" None _).
  set (s' := mkWorld _ _ _ _ _).
  rewrite <- (CoordinatorFacts.launch_resume b select_blocks getModelInfo sendPrompt
                startTime endTime isoNow sqlNow default_temperature round_rate
                stringify workflowId runId (p :: ps) s').
  destruct (related workflowId runId (p :: ps) b b s' s')
    as (g & st & rows & tail & evs & acts & G & T & _ & _ & E & _).
  destruct (RunFacts.execute_rows select_blocks getModelInfo sendPrompt startTime
              endTime isoNow sqlNow default_temperature round_rate stringify
              workflowId runId (p :: ps) b s') as (rows' & R & O).
  destruct (G row) as (G1 & G2 & G3 & G4 & _).
  exists (g row), rows'.
  split.
  - rewrite E. cbn [extended runs]. subst s'. cbn [runs].
    unfold update_run. rewrite map_app. cbn [map].
    change (run_id row) with runId. rewrite Z.eqb_refl.
    f_equal.
    apply (RunFacts.update_run_absent g runId (runs s)).
    intros r. apply RunFacts.next_run_id_absent.
  - rewrite G1, G2, G3, G4, R.
    repeat split; try assumption.
Qed.

End Properties.

Lemma other_runs_are_untouched_witness :
  results_of 2
    (responses
       (executeWorkflowAsync true blocks_of no_model_info answering started_at
          ended_at iso sql Undefined rate print (Num 1) 1 three_steps started))
  = results_of 2 (responses started).
Proof.
  pose proof (other_runs_are_untouched blocks_of no_model_info answering started_at
                ended_at iso sql Undefined rate print (Num 1) 1 three_steps true
                started) as H.
  cbv zeta in H. destruct H as (_ & _ & H).
  apply H. discriminate.
Defined.

Lemma run_ends_completed_or_failed_witness :
  find_run (runs started) 1 <> None
  /\ exists r' : run,
       find_run
         (runs (executeWorkflowAsync true blocks_of no_model_info down_at_second
                  started_at ended_at iso sql Undefined rate print (Num 1) 1
                  three_steps started)) 1 = Some r'
       /\ completed_at r' = Some sql.
Proof.
  split; [discriminate|].
  destruct (find_run (runs started) 1) as [r|] eqn:F; [|discriminate].
  destruct (run_ends_completed_or_failed blocks_of no_model_info down_at_second
              started_at ended_at iso sql Undefined rate print (Num 1) 1
              three_steps true started r F)
    as (r' & H1 & _ & _ & _ & _ & H6).
  exists r'. split; assumption.
Defined.


Lemma rejected_start_leaves_the_store_alone_witness :
  code (fst (fst (start true no_workflow (steps_of three_steps) iso sql (Num 1)
                    started)))
  <> 200%Z
  /\ snd (fst (start true no_workflow (steps_of three_steps) iso sql (Num 1) started))
     = started.
Proof.
  split; [discriminate|].
  pose proof (rejected_start_leaves_the_store_alone no_workflow
                (steps_of three_steps) iso sql (Num 1) true started) as H.
  cbv zeta in H. destruct H as (_ & _ & H & _).
  apply H. discriminate.
Defined.

Lemma accepted_start_adds_one_finished_run_witness :
  code (fst (start_and_run true research (steps_of three_steps) blocks_of
               no_model_info answering started_at ended_at iso sql Undefined rate
               print (Num 1) started)) = 200%Z
  /\ exists row : run,
       run_id row = 2%Z
       /\ List.length
            (runs (snd (start_and_run true research (steps_of three_steps) blocks_of
                          no_model_info answering started_at ended_at iso sql
                          Undefined rate print (Num 1) started))) = 2%nat.
Proof.
  split; [reflexivity|].
  pose proof (accepted_start_adds_one_finished_run research (steps_of three_steps)
                blocks_of no_model_info answering started_at ended_at iso sql
                Undefined rate print (Num 1) true started) as H.
  cbv zeta in H.
  destruct (H eq_refl) as (row & rows & H1 & H2 & _).
  exists row. split; [exact H2|].
  rewrite H1. reflexivity.
Defined.

End RunProperties.

(* ------------------------------------------------------------------ *)
(** ** Properties of the HTTP exchange *)

Module HttpFacts.

Import Js Gateway Fallback.

(** A transport that answers every request by [v] ends the chain at its
    first endpoint. *)
Lemma chat_chain_first (transport : list effect -> request -> Result value)
    (v : value) port formattedPrompt mergedConfig given modelFormat (s : service) :
  (forall history r, transport history r = Return v) ->
  exists r : request,
    chat_chain transport port formattedPrompt mergedConfig given modelFormat s
    = (Return v, mkService (llmInstances s) (effects s ++ [Sent r])%list)
    /\ [path r] = firstn 1 (chain_paths modelFormat).
Proof.
  intros T. unfold chat_chain, command_r_chain, default_chain, chain_paths.
  destruct (strict_eq modelFormat (Text "mistral"));
    [|destruct (strict_eq modelFormat (Text "command-r"))];
    unfold Eff.tryCatch, post, makeRequest; rewrite T;
    eexists (mkRequest _ _ _ _ _ _ _); split; reflexivity.
Qed.

Lemma over_blank (defaultHost : string) (parse : string -> Result value)
    (wire : list effect -> request -> Http.exchange) :
  (forall history r, exists statusCode responseData,
      wire history r = Http.Ended statusCode responseData
      /\ JsString.trim responseData = "") ->
  forall history r, Http.over defaultHost parse wire history r = Return (Obj []).
Proof.
  intros W history r. unfold Http.over, Http.settle.
  destruct (W history r) as (statusCode & responseData & -> & ->).
  reflexivity.
Qed.

End HttpFacts.

Module HttpProperties.

Import Js Gateway Fallback Examples.

(** X20.  When a request succeeds.  The promise of a request resolves in two
    cases only: the body of the response is blank, whatever its status
    code, and the value is the empty object; or the status code is one of
    200 to 299 and the body parses, and the value is the parsed body.  A
    socket error and a timeout never resolve it. *)
Theorem request_succeeds_exactly_when (defaultHost : string)
    (parse : string -> Result value) (port : Z) (path : string) (timeout : value)
    (x : Http.exchange) (v : value) :
  Http.settle defaultHost parse port path timeout x = Return v
  <-> exists (statusCode : Z) (responseData : string),
        x = Http.Ended statusCode responseData
        /\ ((JsString.trim responseData = "" /\ v = Obj [])
            \/ (JsString.trim responseData <> ""
                /\ (200 <= statusCode < 300)%Z
                /\ parse responseData = Return v)).
Proof.
  split.
  - destruct x as [statusCode responseData|message|]; cbn [Http.settle];
      [|discriminate|discriminate].
    intros H. exists statusCode, responseData. split; [reflexivity|].
    destruct (String.eqb_spec (JsString.trim responseData) "") as [B|B].
    + left. split; [exact B|]. now injection H as <-.
    + right. split; [exact B|].
      destruct (parse responseData) as [parsedData|m]; cbn [bind] in H;
        [|discriminate].
      destruct ((200 <=? statusCode)%Z && (statusCode <? 300)%Z) eqn:C.
      * apply andb_prop in C as [C1 C2]. apply Z.leb_le in C1. apply Z.ltb_lt in C2.
        split; [lia|]. exact (f_equal Return (f_equal (fun r => match r with Return a => a | Throw _ => v end) H)).
      * destruct (get parsedData "message"); discriminate.
  - intros (statusCode & responseData & -> & [[B ->]|(B & C & P)]); cbn [Http.settle].
    + now rewrite B.
    + destruct (String.eqb_spec (JsString.trim responseData) "") as [B'|_];
        [contradiction|].
      rewrite P. cbn [bind].
      replace ((200 <=? statusCode)%Z && (statusCode <? 300)%Z) with true;
        [reflexivity|].
      symmetry. apply andb_true_intro. split; [apply Z.leb_le|apply Z.ltb_lt]; lia.
Qed.

(** X21.  A blank answer ends the search.  Over a backend that answers every
    request with a blank body, under whatever status code, [sendPrompt] on
    a registered port returns the empty object after one request, to the
    first endpoint of the chain: nothing is tried behind it and no attempt
    counts as failed.  The normalization then refuses the empty object. *)
Theorem blank_answer_ends_the_search (defaultHost : string)
    (parse : string -> Result value)
    (wire : list effect -> request -> Http.exchange) (now : string)
    (port : Z) (prompt : string) (given : config) (s : service) (inst : instance)
    (n : Z) :
  (forall history r, exists statusCode responseData,
      wire history r = Http.Ended statusCode responseData
      /\ JsString.trim responseData = "") ->
  find_instance (llmInstances s) port = Some inst ->
  or_else (assoc given "retries") (Num 2) = Num n -> (0 <= n)%Z ->
  let outcome :=
    sendPrompt (Http.over defaultHost parse wire) now port prompt given s in
  fst outcome = Return (Obj [])
  /\ requests (effects (snd outcome))
     = (requests (effects s)
          ++ firstn 1 (chain_paths
                         (or_else (assoc given "model_format") (Text "default"))))%list
  /\ attempts_failed (effects (snd outcome)) = attempts_failed (effects s)
  /\ pauses (effects (snd outcome)) = pauses (effects s)
  /\ processResponse (Obj []) = Throw "Unsupported LLM response format".
Proof.
  intros W H R N outcome.
  assert (Q : exists (r : request) (registry : list (Z * instance)),
             outcome
             = (Return (Obj []), mkService registry (effects s ++ [Sent r])%list)
             /\ [path r]
                = firstn 1 (chain_paths
                              (or_else (assoc given "model_format") (Text "default")))).
  { subst outcome. unfold sendPrompt. rewrite H, R. unfold turns_of. cbn [to_number].
    destruct (Z.to_nat (n + 1)) as [|turns] eqn:T; [lia|].
    cbn [retry_loop]. unfold Eff.tryCatch at 1. unfold attempt_once, Eff.andThen.
    cbn [Z.ltb Z.compare]. unfold Eff.ret at 1.
    match goal with |- context [chat_chain ?t ?p ?f ?m ?g ?mf ?st] =>
      destruct (HttpFacts.chat_chain_first t (Obj []) p f m g mf st
                  (HttpFacts.over_blank defaultHost parse wire W)) as (r & E & P)
    end.
    rewrite E. exists r. eexists. split; [reflexivity | exact P]. }
  destruct Q as (r & registry & -> & P). cbn [fst snd effects].
  split; [reflexivity|].
  split; [rewrite FallbackFacts.requests_app; cbn; now rewrite P|].
  split; [rewrite GatewayFacts.attempts_failed_app; cbn; lia|].
  split; [|reflexivity].
  rewrite GatewayFacts.pauses_app. cbn. apply app_nil_r.
Qed.

Lemma request_succeeds_exactly_when_witness :
  Http.settle host unparsed 5001 "/health" (Num 30000) (Http.Ended 503 "")
  = Return (Obj []).
Proof.
  apply (proj2 (request_succeeds_exactly_when host unparsed 5001 "/health"
                  (Num 30000) (Http.Ended 503 "") (Obj []))).
  exists 503%Z, "". split; [reflexivity|]. left. split; reflexivity.
Defined.

Lemma blank_answer_ends_the_search_witness :
  let outcome :=
    sendPrompt (Http.over host unparsed blank_error) iso 5001 "Hello" []
      one_instance in
  fst outcome = Return (Obj [])
  /\ requests (effects (snd outcome)) = ["/api/v1/generate"].
Proof.
  intros outcome.
  pose proof (blank_answer_ends_the_search host unparsed blank_error iso 5001
                "Hello" [] one_instance
                (mkInstance "local" "unknown" None [("max_length", Num 1000)]) 2
                (fun _ _ => ex_intro _ 500%Z (ex_intro _ " " (conj eq_refl eq_refl)))
                eq_refl eq_refl ltac:(lia)) as H.
  cbv zeta in H. destruct H as (H1 & H2 & _).
  split; [exact H1 | exact H2].
Defined.

End HttpProperties.

(* ------------------------------------------------------------------ *)
(** ** Properties of the registry and of the probes *)

Module RegistryFacts.

Import Js Gateway Registry.

Lemma ports_set_instance_new (l : list (Z * instance)) (p : Z) (i : instance) :
  find_instance l p = None -> map fst (set_instance l p i) = (map fst l ++ [p])%list.
Proof.
  induction l as [|[q k] l IH]; cbn; [reflexivity|].
  destruct (q =? p)%Z; cbn; [discriminate|]. intros H. now rewrite (IH H).
Qed.

Lemma assoc_spread (a b : config) (key : string) :
  assoc (spread a b) key = if bound b key then assoc b key else assoc a key.
Proof.
  unfold spread, bound. induction b as [|[k v] b IH]; cbn; [reflexivity|].
  destruct (k =? key)%string; [reflexivity | exact IH].
Qed.

Lemma strict_eq_text (v : value) (s : string) :
  strict_eq v (Text s) = true <-> v = Text s.
Proof.
  split.
  - destruct v; cbn; try discriminate. intros H. apply String.eqb_eq in H. now subst.
  - intros ->. cbn. apply String.eqb_refl.
Qed.

(** [getModelInfo] returns in every case. *)
Lemma getModelInfo_cases (defaultHost : string) (parse : string -> Result value)
    (wire : Z -> string -> Http.exchange) (port : Z) (s : net) :
  let probe path :=
    Http.settle defaultHost parse port path (Http.timeout_of path Undefined)
      (wire port path) in
  exists (info : value) (s' : net),
    getModelInfo defaultHost parse wire port s = (Return info, s')
    /\ instances s' = instances s
    /\ asked s'
       = (asked s
            ++ (port, "/api/v1/model")
               :: (if is_return (probe "/api/v1/model") then []
                   else [(port, "/v1/models")]))%list
    /\ (forall v : value, probe "/api/v1/model" = Return v -> info = v)
    /\ (is_return (probe "/api/v1/model") = false ->
        is_return (probe "/v1/models") = false ->
        info = Obj [("success", Bool false);
                    ("message",
                     Text "Server reachable but could not get model information");
                    ("port", Num port)]).
Proof.
  intros probe.
  unfold getModelInfo, Eff.tryCatch, Eff.ret, get_json.
  fold (probe "/api/v1/model"). fold (probe "/v1/models").
  cbn [instances asked].
  destruct (probe "/api/v1/model") as [v|m]; cbn [is_return].
  - eexists. eexists. split; [reflexivity|].
    cbn [instances asked]. split; [reflexivity|]. split; [reflexivity|].
    split; [intros w W; now injection W | discriminate].
  - destruct (probe "/v1/models") as [v|m']; cbn [is_return].
    + eexists. eexists. split; [reflexivity|].
      cbn [instances asked]. split; [reflexivity|].
      split; [now rewrite <- app_assoc|].
      split; discriminate.
    + eexists. eexists. split; [reflexivity|].
      cbn [instances asked]. split; [reflexivity|].
      split; [now rewrite <- app_assoc|].
      split; [discriminate|reflexivity].
Qed.

End RegistryFacts.

Module RegistryProperties.

Import Js Gateway Registry Examples.

(** X22.  Registration and lookup.  After [registerInstance] the port is found,
    under the name given, with the status "unknown" and no time of use; a
    setting given at registration overrides the default of the service and
    every other setting keeps its default.  The other ports are found as
    before, and a port registered again keeps its single entry, at its
    place, so that [getInstances] lists one instance more only for a port
    that was not registered. *)
Theorem registered_instance_is_found (temperature top_p : value) (port : Z)
    (name : string) (given : config) (s : net) :
  let s' := registerInstance temperature top_p port name given s in
  (exists inst : instance,
      getInstance port s' = Some inst
      /\ Gateway.name inst = name
      /\ Gateway.status inst = "unknown"
      /\ Gateway.lastUsed inst = None
      /\ forall key : string,
           assoc (instance_config inst) key
           = if bound given key then assoc given key
             else assoc (defaultConfig temperature top_p) key)
  /\ (forall q : Z, q <> port -> getInstance q s' = getInstance q s)
  /\ map fst (instances s')
     = match getInstance port s with
       | Some _ => map fst (instances s)
       | None => (map fst (instances s) ++ [port])%list
       end
  /\ List.length (getInstances s')
     = match getInstance port s with
       | Some _ => List.length (getInstances s)
       | None => S (List.length (getInstances s))
       end
  /\ asked s' = asked s.
Proof.
  intros s'.
  assert (P : map fst (instances s')
              = match getInstance port s with
                | Some _ => map fst (instances s)
                | None => (map fst (instances s) ++ [port])%list
                end).
  { subst s'. unfold registerInstance, getInstance. cbn [instances].
    destruct (find_instance (instances s) port) as [j|] eqn:F.
    + exact (FallbackProperties.ports_set_instance _ _ _ _ F).
    + now apply RegistryFacts.ports_set_instance_new. }
  assert (L : List.length (getInstances s')
              = match getInstance port s with
                | Some _ => List.length (getInstances s)
                | None => S (List.length (getInstances s))
                end).
  { unfold getInstances at 1. rewrite length_map, <- (length_map fst), P.
    unfold getInstances.
    destruct (getInstance port s); rewrite ?length_app, !length_map; cbn; lia. }
  split; [|split; [|split; [exact P|split; [exact L|reflexivity]]]].
  - subst s'. unfold registerInstance, getInstance. cbn [instances].
    eexists. split; [apply FallbackProperties.find_set_instance|].
    cbn [Gateway.name Gateway.status Gateway.lastUsed instance_config].
    split; [reflexivity|]. split; [reflexivity|]. split; [reflexivity|].
    intros key. apply RegistryFacts.assoc_spread.
  - intros q Q. subst s'. unfold registerInstance, getInstance. cbn [instances].
    now apply FallbackProperties.find_set_instance_other.
Qed.

(** X23.  Registration followed by the availability check it launches.  In
    simulation the check answers from the environment: it asks nothing of
    the backend and the instance keeps the status "unknown".  Otherwise
    the health endpoint is asked once and the status becomes "available"
    or "unavailable": "available" exactly when the check returns a truthy
    value, that is when the health answer is truthy and its status is
    "ok".  Name and settings are kept, and the other ports are found as
    before. *)
Theorem registration_then_check (defaultHost : string)
    (parse : string -> Result value) (wire : Z -> string -> Http.exchange)
    (temperature top_p : value) (simulated simulated_available : bool)
    (port : Z) (name : string) (given : config) (s : net) :
  let registered := registerInstance temperature top_p port name given s in
  let outcome :=
    checkInstanceAvailability defaultHost parse wire simulated simulated_available
      port registered in
  let health :=
    Http.settle defaultHost parse port "/health"
      (Http.timeout_of "/health" Undefined) (wire port "/health") in
  exists st : string,
    getInstance port (snd outcome)
    = Some (mkInstance name st None (spread (defaultConfig temperature top_p) given))
    /\ (forall q : Z, q <> port -> getInstance q (snd outcome) = getInstance q s)
    /\ (simulated = true ->
        st = "unknown" /\ fst outcome = Bool simulated_available
        /\ asked (snd outcome) = asked s)
    /\ (simulated = false ->
        asked (snd outcome) = (asked s ++ [(port, "/health")])%list
        /\ (st = "available" \/ st = "unavailable")
        /\ (st = "available" <-> truthy (fst outcome) = true)
        /\ (st = "available"
            <-> exists response : value,
                  health = Return response
                  /\ truthy response = true
                  /\ prop response "status" = Text "ok")).
Proof.
  intros registered outcome health.
  subst outcome. unfold checkInstanceAvailability.
  assert (F : find_instance (instances registered) port
              = Some (mkInstance name "unknown" None
                        (spread (defaultConfig temperature top_p) given))).
  { apply FallbackProperties.find_set_instance. }
  assert (O : forall (i : instance) (q : Z),
             q <> port ->
             find_instance (set_instance (instances registered) port i) q
             = getInstance q s).
  { intros i q Q. unfold getInstance.
    rewrite (FallbackProperties.find_set_instance_other _ _ _ _ Q).
    now apply FallbackProperties.find_set_instance_other. }
  rewrite F. destruct simulated.
  - exists "unknown". cbn [fst snd]. split; [exact F|].
    split; [intros q Q; now apply FallbackProperties.find_set_instance_other|].
    split; [now intros _ | discriminate].
  - unfold get_json. fold health. cbn [instances asked].
    destruct health as [response|m] eqn:E.
    + destruct (truthy response) eqn:T.
      * destruct (strict_eq (prop response "status") (Text "ok")) eqn:K.
        -- exists "available". cbn [fst snd truthy with_status Gateway.name
                                   Gateway.lastUsed instance_config].
           unfold getInstance at 1. cbn [instances asked].
           split; [apply FallbackProperties.find_set_instance|].
           split; [intros q Q; unfold getInstance at 1; now apply O|].
           split; [discriminate|]. intros _.
           split; [reflexivity|]. split; [now left|]. split; [now split|].
           split; [intros _|reflexivity].
           exists response. split; [reflexivity|]. split; [exact T|].
           now apply RegistryFacts.strict_eq_text.
        -- exists "unavailable". cbn [fst snd truthy with_status Gateway.name
                                     Gateway.lastUsed instance_config].
           unfold getInstance at 1. cbn [instances asked].
           split; [apply FallbackProperties.find_set_instance|].
           split; [intros q Q; unfold getInstance at 1; now apply O|].
           split; [discriminate|]. intros _.
           split; [reflexivity|]. split; [now right|].
           split; [split; discriminate|].
           split; [discriminate|].
           intros (r & R & _ & P). injection R as <-.
           apply RegistryFacts.strict_eq_text in P. congruence.
      * exists "unavailable". rewrite T.
        cbn [fst snd with_status Gateway.name Gateway.lastUsed instance_config].
        unfold getInstance at 1. cbn [instances asked].
        split; [apply FallbackProperties.find_set_instance|].
        split; [intros q Q; unfold getInstance at 1; now apply O|].
        split; [discriminate|]. intros _.
        split; [reflexivity|]. split; [now right|].
        split; [split; [discriminate | congruence]|].
        split; [discriminate|].
        intros (r & R & T' & _). injection R as <-. congruence.
    + exists "unavailable".
      cbn [fst snd truthy with_status Gateway.name Gateway.lastUsed instance_config].
      unfold getInstance at 1. cbn [instances asked].
      split; [apply FallbackProperties.find_set_instance|].
      split; [intros q Q; unfold getInstance at 1; now apply O|].
      split; [discriminate|]. intros _.
      split; [reflexivity|]. split; [now right|].
      split; [split; discriminate|].
      split; [discriminate|].
      intros (r & R & _). discriminate.
Qed.

(** X24.  The connectivity test always reports a connection.  [getModelInfo]
    asks the Kobold endpoint, then the OpenAI-compatible one only when the
    first request failed, and throws in no case; so [testConnectivity]
    answers "connected: true" for every port, the ports nobody listens on
    included, for which the model information is the stub that says
    "success: false". *)
Theorem testConnectivity_always_connected (defaultHost : string)
    (parse : string -> Result value) (wire : Z -> string -> Http.exchange)
    (now : string) (port : Z) (s : net) :
  let probe path :=
    Http.settle defaultHost parse port path (Http.timeout_of path Undefined)
      (wire port path) in
  exists (info : value) (s' : net),
    testConnectivity defaultHost parse wire now port s
    = (Return (Obj [("connected", Bool true);
                    ("modelInfo", info);
                    ("timestamp", Text now)]), s')
    /\ getModelInfo defaultHost parse wire port s = (Return info, s')
    /\ instances s' = instances s
    /\ asked s'
       = (asked s
            ++ (port, "/api/v1/model")
               :: (if is_return (probe "/api/v1/model") then []
                   else [(port, "/v1/models")]))%list
    /\ (forall v : value, probe "/api/v1/model" = Return v -> info = v)
    /\ (is_return (probe "/api/v1/model") = false ->
        is_return (probe "/v1/models") = false ->
        info = Obj [("success", Bool false);
                    ("message",
                     Text "Server reachable but could not get model information");
                    ("port", Num port)]).
Proof.
  intros probe.
  destruct (RegistryFacts.getModelInfo_cases defaultHost parse wire port s)
    as (info & s' & E & I & A & K & S).
  exists info, s'.
  unfold testConnectivity, Eff.tryCatch, Eff.andThen, Eff.ret. rewrite E.
  split; [reflexivity|]. split; [reflexivity|]. split; [exact I|].
  split; [exact A|]. split; [exact K | exact S].
Qed.

(** X25.  The detailed test reports what answered.  It asks the Kobold endpoint
    and the OpenAI-compatible endpoint, both in every case, and the
    information endpoint behind them only when one of the two answered; a
    port counts as connected exactly when one of the two answered, and
    without an answer no model information is reported.  It throws in no
    case. *)
Theorem detailed_test_reports_what_answered (defaultHost : string)
    (parse : string -> Result value) (wire : Z -> string -> Http.exchange)
    (now : string) (port : Z) (s : net) :
  let probe path :=
    Http.settle defaultHost parse port path (Http.timeout_of path Undefined)
      (wire port path) in
  exists (d : detail) (s' : net),
    getDetailedConnectivity defaultHost parse wire now port s = (Return d, s')
    /\ detail_port d = port
    /\ detail_timestamp d = now
    /\ koboldApiAvailable d = is_return (probe "/api/v1/model")
    /\ openAiApiAvailable d = is_return (probe "/v1/models")
    /\ connected d = koboldApiAvailable d || openAiApiAvailable d
    /\ instances s' = instances s
    /\ asked s'
       = (asked s
            ++ [(port, "/api/v1/model"); (port, "/v1/models")]
            ++ (if connected d then [(port, "/info")] else []))%list
    /\ (connected d = false -> modelInfo d = Null /\ endpointInfo d = []).
Proof.
  intros probe. subst probe. cbv beta.
  unfold getDetailedConnectivity, probe_kobold, probe_openai, probe_info,
    Eff.tryCatch, Eff.andThen, Eff.ret, get_json.
  cbn [detail_port detail_timestamp instances asked].
  destruct (Http.settle defaultHost parse port "/api/v1/model"
              (Http.timeout_of "/api/v1/model" Undefined)
              (wire port "/api/v1/model")) as [k|km];
    cbn [detail_port detail_timestamp instances asked connected koboldApiAvailable
         openAiApiAvailable modelInfo apiDetails endpointInfo];
    destruct (Http.settle defaultHost parse port "/v1/models"
                (Http.timeout_of "/v1/models" Undefined)
                (wire port "/v1/models")) as [o|om];
    cbn [detail_port detail_timestamp instances asked connected koboldApiAvailable
         openAiApiAvailable modelInfo apiDetails endpointInfo];
    try (destruct (Http.settle defaultHost parse port "/info"
                     (Http.timeout_of "/info" Undefined) (wire port "/info"))
           as [i|im]);
    cbn [detail_port detail_timestamp instances asked connected koboldApiAvailable
         openAiApiAvailable modelInfo apiDetails endpointInfo];
    eexists (mkDetail _ _ _ _ _ _ _ _); eexists (mkNet _ _);
    (split; [reflexivity|]);
    cbn [detail_port detail_timestamp instances asked connected koboldApiAvailable
         openAiApiAvailable modelInfo apiDetails endpointInfo is_return orb];
    rewrite <- ?app_assoc;
    repeat (split; [reflexivity|]);
    try discriminate; reflexivity.
Qed.

Lemma registered_instance_is_found_witness :
  exists inst : instance,
    getInstance 5001
      (registerInstance NaN NaN 5001 "local" [("max_length", Num 2000)]
         nothing_asked) = Some inst
    /\ assoc (instance_config inst) "max_length" = Num 2000
    /\ assoc (instance_config inst) "top_k" = Num 40.
Proof.
  pose proof (registered_instance_is_found NaN NaN 5001 "local"
                [("max_length", Num 2000)] nothing_asked) as H.
  cbv zeta in H. destruct H as ((inst & F & _ & _ & _ & C) & _).
  exists inst. split; [exact F|].
  split; [exact (C "max_length") | exact (C "top_k")].
Defined.

Lemma registration_then_check_witness :
  exists st : string,
    getInstance 5001
      (snd (checkInstanceAvailability host unparsed nobody true true 5001
              (registerInstance NaN NaN 5001 "local" [] nothing_asked)))
    = Some (mkInstance "local" st None (spread (defaultConfig NaN NaN) []))
    /\ st = "unknown".
Proof.
  pose proof (registration_then_check host unparsed nobody NaN NaN true true 5001
                "local" [] nothing_asked) as H.
  cbv zeta in H. destruct H as (st & F & _ & S & _).
  exists st. split; [exact F|]. now destruct (S eq_refl).
Defined.

Lemma testConnectivity_always_connected_witness :
  fst (testConnectivity host unparsed nobody iso 5001 nothing_asked)
  = Return (Obj [("connected", Bool true);
                 ("modelInfo",
                  Obj [("success", Bool false);
                       ("message",
                        Text "Server reachable but could not get model information");
                       ("port", Num 5001)]);
                 ("timestamp", Text iso)]).
Proof.
  pose proof (testConnectivity_always_connected host unparsed nobody iso 5001
                nothing_asked) as H.
  cbv zeta in H. destruct H as (info & s' & E & _ & _ & _ & _ & S).
  rewrite E. cbn [fst]. now rewrite (S eq_refl eq_refl).
Defined.

Lemma detailed_test_reports_what_answered_witness :
  exists (d : detail) (s' : net),
    getDetailedConnectivity host unparsed nobody iso 5001 nothing_asked
    = (Return d, s')
    /\ connected d = false
    /\ modelInfo d = Null
    /\ asked s' = [(5001%Z, "/api/v1/model"); (5001%Z, "/v1/models")].
Proof.
  pose proof (detailed_test_reports_what_answered host unparsed nobody iso 5001
                nothing_asked) as H.
  cbv zeta in H.
  destruct H as (d & s' & E & _ & _ & K & O & C & _ & A & N).
  assert (D : connected d = false) by (rewrite C, K, O; reflexivity).
  exists d, s'. split; [exact E|]. split; [exact D|].
  split; [now destruct (N D)|].
  rewrite A, D. reflexivity.
Defined.

End RegistryProperties.

(* ------------------------------------------------------------------ *)
(** ** Properties of the connectivity routes *)

Module RouteFacts.

Import JsString Js LlmRoutes.

Lemma span_stop (p : ascii -> bool) (a rest : string) :
  all_chars p a = true ->
  match rest with
  | EmptyString => true
  | String c _ => negb (p c)
  end = true ->
  span p (a ++ rest) = (a, rest).
Proof.
  intros A R. induction a as [|c a IH]; cbn [append span].
  - destruct rest as [|c rest]; [reflexivity|].
    cbn [span]. apply negb_true_iff in R. now rewrite R.
  - cbn [all_chars] in A. apply andb_prop in A as [C A].
    rewrite C, (IH A). reflexivity.
Qed.

Lemma digit_is_no_space (c : ascii) :
  Coordinator.is_digit c = true -> is_space c = false.
Proof.
  destruct c as [[] [] [] [] [] [] [] []]; cbn; intros H;
    try discriminate H; reflexivity.
Qed.

(** A numeral is read whole, and the text behind it is left alone. *)
Lemma parseInt_digits (digits rest : string) :
  all_chars Coordinator.is_digit digits = true -> digits <> "" ->
  match rest with
  | EmptyString => true
  | String c _ => negb (Coordinator.is_digit c)
  end = true ->
  parseInt (digits ++ rest) = Some (Coordinator.parseInt digits).
Proof.
  intros A N R. destruct digits as [|c t]; [contradiction|].
  pose proof (span_stop Coordinator.is_digit (String c t) rest A R) as S.
  cbn [all_chars] in A. apply andb_prop in A as [C _].
  unfold parseInt. cbn [append trim_start] in *.
  rewrite (digit_is_no_space c C).
  destruct c as [[] [] [] [] [] [] [] []]; try discriminate C;
    cbv iota beta; rewrite S; reflexivity.
Qed.

End RouteFacts.

Module RouteProperties.

Import JsString Js LlmRoutes Examples.

(** X26.  The connectivity route never reports a failure.  It answers 400, with
    nothing asked and nothing broadcast, when the port parameter does not
    read as a number from 1 to 65535; for every other parameter it answers
    200 with "connected: true" and broadcasts, when a broadcaster is
    installed, the message of a successful connection, whatever happens on
    the port. *)
Theorem test_route_never_reports_a_failure (defaultHost : string)
    (parse : string -> Result value) (wire : Z -> string -> Http.exchange)
    (now : string) (broadcast : bool) (param : string) (s : Registry.net) :
  let outcome := test_port defaultHost parse wire now broadcast param s in
  let answer := fst (fst outcome) in
  (code answer = 400%Z
   /\ invalid (parseInt param) = true
   /\ snd (fst outcome) = []
   /\ snd outcome = s)
  \/ (exists port : Z,
        parseInt param = Some port
        /\ (1 <= port <= 65535)%Z
        /\ code answer = 200%Z
        /\ prop (body answer) "connected" = Bool true
        /\ snd (fst outcome)
           = if broadcast
             then [SYSTEM_MESSAGE "INFO"
                     ("Successfully connected to LLM on port " ++ string_of_Z port)]
             else []).
Proof.
  unfold test_port.
  destruct (parseInt param) as [port|]; [|left; now repeat split].
  destruct (invalid (Some port)) eqn:I; [left; now repeat split|].
  right. exists port. split; [reflexivity|].
  cbn [invalid] in I. apply orb_false_iff in I as [I1 I2].
  apply Z.leb_gt in I1. apply Z.ltb_ge in I2. split; [lia|].
  destruct (RegistryFacts.getModelInfo_cases defaultHost parse wire port s)
    as (info & s' & E & _).
  unfold Registry.testConnectivity, Eff.tryCatch, Eff.andThen, Eff.ret.
  rewrite E. cbn. now destruct broadcast.
Qed.

(** X27.  How the port parameter is read.  A parameter that begins with the
    decimal numeral of a number from 1 to 65535 stands for that number,
    whatever text follows the numeral, and the route answers 200; when the
    number is 0 or above 65535 the route answers 400. *)
Theorem port_parameter_is_read_by_its_numeral (defaultHost : string)
    (parse : string -> Result value) (wire : Z -> string -> Http.exchange)
    (now : string) (broadcast : bool) (n : Z) (rest : string) (s : Registry.net) :
  (0 <= n)%Z ->
  match rest with
  | EmptyString => true
  | String c _ => negb (Coordinator.is_digit c)
  end = true ->
  let outcome :=
    test_port defaultHost parse wire now broadcast (string_of_Z n ++ rest) s in
  parseInt (string_of_Z n ++ rest) = Some n
  /\ code (fst (fst outcome))
     = if ((1 <=? n)%Z && (n <=? 65535)%Z) then 200%Z else 400%Z.
Proof.
  intros N R outcome.
  destruct (AssemblyFacts.string_of_Z_digits n N) as (A & E & P).
  assert (Q : parseInt (string_of_Z n ++ rest) = Some n).
  { rewrite (RouteFacts.parseInt_digits _ _ A E R). now rewrite P. }
  split; [exact Q|].
  subst outcome. unfold test_port. rewrite Q. cbn [invalid].
  destruct (n <=? 0)%Z eqn:L; cbn [orb].
  - apply Z.leb_le in L.
    replace (1 <=? n)%Z with false by (symmetry; apply Z.leb_gt; lia).
    reflexivity.
  - apply Z.leb_gt in L.
    replace (1 <=? n)%Z with true by (symmetry; apply Z.leb_le; lia).
    cbn [andb]. rewrite Z.ltb_antisym.
    destruct (n <=? 65535)%Z; cbn [negb]; [|reflexivity].
    destruct (RegistryFacts.getModelInfo_cases defaultHost parse wire n s)
      as (info & s' & G & _).
    unfold Registry.testConnectivity, Eff.tryCatch, Eff.andThen, Eff.ret.
    rewrite G. reflexivity.
Qed.

Lemma test_route_never_reports_a_failure_witness :
  let outcome := test_port host unparsed nobody iso true "5001" nothing_asked in
  code (fst (fst outcome)) = 200%Z
  /\ (code (fst (fst outcome)) = 400%Z
      \/ prop (body (fst (fst outcome))) "connected" = Bool true).
Proof.
  intros outcome. split; [reflexivity|].
  destruct (test_route_never_reports_a_failure host unparsed nobody iso true "5001"
              nothing_asked) as [(H & _)|(port & _ & _ & _ & H & _)].
  - left. exact H.
  - right. exact H.
Defined.

Lemma port_parameter_is_read_by_its_numeral_witness :
  parseInt "5001abc" = Some 5001%Z
  /\ code (fst (fst (test_port host unparsed nobody iso false "5001abc"
                       nothing_asked))) = 200%Z.
Proof.
  exact (port_parameter_is_read_by_its_numeral host unparsed nobody iso false 5001
           "abc" nothing_asked ltac:(lia) eq_refl).
Defined.

End RouteProperties.

(* ------------------------------------------------------------------ *)
(** ** Properties of the route that starts a run by path *)

Module PathStartProperties.

Import Js Coordinator Frame PathStart Examples.

(** X28.  The two start routes accept the same requests and launch the same
    execution.  Where the route by body answers 400, 404 or 500 the route
    by path answers with the same code and writes nothing; where the first
    answers 200 the second answers 202, both launch the same payloads under
    the same run identifier and journal the same insert, and the rows they
    insert differ: "running" with metadata for the first, "IN_PROGRESS"
    with no metadata for the second. *)
Theorem both_routes_launch_the_same_run
    (select_workflow : value -> Result (option workflow))
    (select_payloads : value -> Result (list payload)) (isoNow sqlNow : string)
    (b : bool) (workflowId : value) (s : world) :
  let by_body := start b select_workflow select_payloads isoNow sqlNow workflowId s in
  let by_path := start_by_path select_workflow select_payloads workflowId s in
  snd by_path = snd by_body
  /\ journal (snd (fst by_path)) = journal (snd (fst by_body))
  /\ ((code (fst (fst by_body)) <> 200%Z
       /\ code (fst (fst by_path)) = code (fst (fst by_body))
       /\ snd (fst by_path) = s /\ snd (fst by_body) = s)
      \/ (code (fst (fst by_body)) = 200%Z
          /\ code (fst (fst by_path)) = 202%Z
          /\ exists row row' : run,
               runs (snd (fst by_body)) = (runs s ++ [row])%list
               /\ runs (snd (fst by_path)) = (runs s ++ [row'])%list
               /\ run_id row' = run_id row
               /\ workflow_id row' = workflow_id row
               /\ status row = "running" /\ status row' = "IN_PROGRESS"
               /\ run_metadata row <> None /\ run_metadata row' = None)).
Proof.
  unfold Coordinator.start, start_by_path.
  destruct (negb (truthy workflowId)).
  { cbn. split; [reflexivity|]. split; [reflexivity|]. left.
    split; [discriminate|]. now repeat split. }
  destruct (select_workflow workflowId) as [[w|]|m].
  2,3: cbn; split; [reflexivity|]; split; [reflexivity|]; left;
       split; [discriminate|]; now repeat split.
  destruct (select_payloads workflowId) as [payloads|m].
  2: cbn; split; [reflexivity|]; split; [reflexivity|]; left;
     split; [discriminate|]; now repeat split.
  destruct payloads as [|p ps].
  { cbn. split; [reflexivity|]. split; [reflexivity|]. left.
    split; [discriminate|]. now repeat split. }
  unfold Coordinator.launch. rewrite CoordinatorFacts.announce_eq.
  cbn [List.length Nat.eqb fst snd code journal runs].
  split; [reflexivity|]. split; [reflexivity|]. right.
  split; [reflexivity|]. split; [reflexivity|].
  eexists (mkRun _ _ _ _ _), (mkRun _ _ _ _ _).
  split; [reflexivity|]. split; [reflexivity|].
  cbn [run_id workflow_id status run_metadata].
  repeat split. discriminate.
Qed.

(** X29.  A run started by path keeps no metadata.  Its row is inserted with a
    [NULL] metadata, which the updates of the coordinator leave [NULL]: at
    the end of the run the row is "completed" or "failed" with its
    completion time set, and its metadata holds neither the completion
    time, nor the models, nor the error of a failed run. *)
Theorem run_started_by_path_keeps_no_metadata
    (select_workflow : value -> Result (option workflow))
    (select_payloads : value -> Result (list payload))
    (select_blocks : nat -> Z -> Result (list block))
    (getModelInfo : nat -> value -> Result value)
    (sendPrompt : nat -> value -> string -> Gateway.config -> Result value)
    (startTime endTime : nat -> Z) (isoNow sqlNow : string)
    (default_temperature : value) (round_rate : value -> Z -> value)
    (stringify : value -> string) (b : bool) (workflowId : value) (s : world)
    (t : task) :
  let started := start_by_path select_workflow select_payloads workflowId s in
  snd started = Some t ->
  let final :=
    executeWorkflowAsync b select_blocks getModelInfo sendPrompt startTime endTime
      isoNow sqlNow default_temperature round_rate stringify
      (task_workflow t) (task_run t) (task_payloads t) (snd (fst started)) in
  exists row : run,
    runs final = (runs s ++ [row])%list
    /\ run_id row = task_run t
    /\ (status row = "completed" \/ status row = "failed")
    /\ completed_at row = Some sqlNow
    /\ run_metadata row = None.
Proof.
  unfold start_by_path.
  destruct (negb (truthy workflowId)); [discriminate|].
  destruct (select_workflow workflowId) as [[w|]|m]; [|discriminate|discriminate].
  destruct (select_payloads workflowId) as [payloads|m]; [|discriminate].
  destruct payloads as [|p ps]; [discriminate|].
  cbn [List.length Nat.eqb fst snd].
  intros H. injection H as <-.
  cbn [task_workflow task_run task_payloads].
  set (runId := next_run_id (runs s)).
  set (row := mkRun runId workflowId "IN_PROGRESS" None None).
  set (s' := mkWorld _ _ _ _ _).
  destruct (RunFacts.execute_related select_blocks getModelInfo sendPrompt
              startTime endTime isoNow sqlNow default_temperature round_rate
              stringify workflowId runId (p :: ps) b b s' s')
    as (g & st & rows & tail & evs & acts & G & T & _ & _ & E & _).
  destruct (G row) as (G1 & G2 & G3 & G4 & G5).
  exists (g row). split.
  - rewrite E. cbn [extended runs]. subst s'. cbn [runs].
    unfold update_run. rewrite map_app. cbn [map].
    change (run_id row) with runId. rewrite Z.eqb_refl.
    f_equal.
    apply (RunFacts.update_run_absent g runId (runs s)).
    intros r. apply RunFacts.next_run_id_absent.
  - rewrite G1, G3, G4, (G5 eq_refl). now repeat split.
Qed.

Lemma both_routes_launch_the_same_run_witness :
  snd (start_by_path research (steps_of three_steps) (Num 1) empty_world)
  = Some (mkTask (Num 1) 1 three_steps)
  /\ code (fst (fst (start_by_path research (steps_of three_steps) (Num 1)
                       empty_world))) = 202%Z.
Proof.
  pose proof (both_routes_launch_the_same_run research (steps_of three_steps) iso
                sql true (Num 1) empty_world) as H.
  cbv zeta in H. destruct H as (H1 & _ & [(N & _)|(_ & H2 & _)]).
  - now contradiction N.
  - split; [exact H1 | exact H2].
Defined.

Lemma run_started_by_path_keeps_no_metadata_witness :
  exists row : run,
    runs (executeWorkflowAsync true blocks_of no_model_info down_at_second
            started_at ended_at iso sql Undefined rate print (Num 1) 1 three_steps
            (snd (fst (start_by_path research (steps_of three_steps) (Num 1)
                         empty_world))))
    = [row]
    /\ status row = "failed"
    /\ run_metadata row = None.
Proof.
  destruct (run_started_by_path_keeps_no_metadata research (steps_of three_steps)
              blocks_of no_model_info down_at_second started_at ended_at iso sql
              Undefined rate print true (Num 1) empty_world
              (mkTask (Num 1) 1 three_steps) eq_refl)
    as (row & R & _ & _ & _ & M).
  exists row. cbn [task_workflow task_run task_payloads] in R.
  split; [exact R|]. split; [|exact M].
  assert (K : map status
                (runs (executeWorkflowAsync true blocks_of no_model_info
                         down_at_second started_at ended_at iso sql Undefined
                         rate print (Num 1) 1 three_steps
                         (snd (fst (start_by_path research (steps_of three_steps)
                                      (Num 1) empty_world)))))
              = ["failed"]) by reflexivity.
  rewrite R in K. now injection K.
Defined.

(** C7 at the failing input.  The three-step pipeline is started by path
    ([POST /workflow/:id]) and its backend is down at the second step.  The
    run is marked failed, one [workflow_failed] event carries the message
    of the exception, the Result of the first step stays and the steps
    behind the failing one leave none; but the message is not stored: the
    run row was inserted without metadata, and the update that marks the
    run failed leaves its metadata [NULL]. *)
Theorem failed_run_started_by_path_stores_no_message :
  let message := "Connection error to host.docker.internal:5001/v1/completions" in
  let outcome := start_by_path research (steps_of three_steps) (Num 1) empty_world in
  let final :=
    executeWorkflowAsync true blocks_of no_model_info down_at_second started_at
      ended_at iso sql Undefined rate print (Num 1) 1 three_steps
      (snd (fst outcome)) in
  code (fst (fst outcome)) = 202%Z
  /\ snd outcome = Some (mkTask (Num 1) 1 three_steps)
  /\ fst (run_steps true blocks_of no_model_info down_at_second started_at ended_at
            Undefined rate 1 3 0 three_steps [] (snd (fst outcome)))
     = Throw message
  /\ option_map status (find_run (runs final) 1) = Some "failed"
  /\ option_map run_metadata (find_run (runs final) 1) = Some None
  /\ announced_failures 1 (events final) = [message]
  /\ map result_payload_id (results_of 1 (responses final)) = [1%Z]
  /\ journal final
     = [InsertRun 1; InsertResponse 1 1; UpdateRunStatus 1 "failed"].
Proof.
  vm_compute. repeat split.
Qed.

End PathStartProperties.
